(** * Forsee: the prediction and chat gateways, the session and the asset
    directory

    A shallow embedding of [backend/server.js] (the two Express handlers
    [/api/predict] and [/api/chat], and the provider of the session that
    the file continues with) and of [src/context/DashboardContext.tsx]
    (the device list of the dashboard), with the properties of the
    specification stated on the embedded code.

    JavaScript data is modelled as it is at run time: numbers are IEEE 754
    binary64 values (Rocq's primitive floats), strings are sequences of
    UTF-16 code units, objects are finite maps from property names to
    values.  The calls that leave the process (the generative model, the
    assets REST resource, the identity provider) are events of a small
    interaction monad. *)

From Stdlib Require Import ZArith List String Ascii Floats.
From stdpp Require Import base option list gmap.
Import ListNotations.

#[local] Open Scope Z_scope.

(** ** Strings *)

Module JsString.

(** A JavaScript string: its UTF-16 code units. *)
Abbreviation jsstring := (list N).

(** The string of an ASCII literal of the source. *)
Definition js (s : string) : jsstring :=
  map N_of_ascii (list_ascii_of_string s).

Definition unit_eqb (a b : N) : bool := N.eqb a b.

Fixpoint startsWith (pat s : jsstring) : bool :=
  match pat, s with
  | [], _ => true
  | _ :: _, [] => false
  | p :: pat', c :: s' => unit_eqb p c && startsWith pat' s'
  end.

(** [String.prototype.includes(pat)]. *)
Fixpoint includes (s pat : jsstring) : bool :=
  startsWith pat s ||
  match s with
  | [] => false
  | _ :: s' => includes s' pat
  end.

(** [s.replace(/pat/g, '')] for a pattern without metacharacters: one pass
    from the left, matches do not overlap, and the text produced is not
    scanned again.  [skip] counts the units of the current match that are
    still to be dropped. *)
Fixpoint remove_all_from (pat s : jsstring) (skip : nat) : jsstring :=
  match s with
  | [] => []
  | c :: s' =>
      match skip with
      | S k => remove_all_from pat s' k
      | O =>
          match pat with
          | [] => c :: remove_all_from pat s' O
          | _ :: pat' =>
              if startsWith pat s
              then remove_all_from pat s' (length pat')
              else c :: remove_all_from pat s' O
          end
      end
  end.

Definition remove_all (pat s : jsstring) : jsstring := remove_all_from pat s O.

(** WhiteSpace and LineTerminator code points of ECMAScript: what [trim]
    strips and what [StringToNumber] skips. *)
Definition is_js_space (c : N) : bool :=
  ((9 <=? c) && (c <=? 13) || (c =? 32) || (c =? 160) || (c =? 5760)
   || (8192 <=? c) && (c <=? 8202) || (c =? 8232) || (c =? 8233)
   || (c =? 8239) || (c =? 8287) || (c =? 12288) || (c =? 65279))%N.

Fixpoint trimStart (s : jsstring) : jsstring :=
  match s with
  | c :: s' => if is_js_space c then trimStart s' else s
  | [] => []
  end.

Definition trimEnd (s : jsstring) : jsstring := rev (trimStart (rev s)).

(** [String.prototype.trim]. *)
Definition trim (s : jsstring) : jsstring := trimEnd (trimStart s).

(** [String.prototype.toLowerCase], as far as ASCII goes.  Two code points
    outside ASCII have a lower case inside it: U+0130 (to "i" followed by
    U+0307) and U+212A, the Kelvin sign (to "k").  Every other unit outside
    ASCII lowers to units outside ASCII and is left as it is here, which
    changes no answer of [includes] for an ASCII pattern. *)
Definition lower_unit (c : N) : jsstring :=
  (if (65 <=? c) && (c <=? 90) then [c + 32]
   else if c =? 304 then [105; 775]
   else if c =? 8490 then [107]
   else [c])%N.

Definition toLowerCase (s : jsstring) : jsstring := flat_map lower_unit s.

(** Decimal digits of a natural number, as for an array index. *)
Definition digit_unit (d : Z) : N := Z.to_N (48 + d).

Fixpoint decimal_digits_fuel (fuel : nat) (n : Z) (acc : jsstring) : jsstring :=
  match fuel with
  | O => acc
  | S fuel' =>
      let acc' := digit_unit (n mod 10) :: acc in
      if n / 10 =? 0 then acc' else decimal_digits_fuel fuel' (n / 10) acc'
  end.

(** The fuel is the binary length of [n], never less than its number of
    decimal digits. *)
Definition decimal (n : Z) : jsstring :=
  decimal_digits_fuel (S (Z.to_nat (Z.log2 n))) n [].

End JsString.
Import JsString.

(** ** Numbers *)

Module JsNumber.

(** The binary64 value nearest to [num / den] (ties to even), with the sign
    [neg]; [num] and [den] are positive.  The quotient is taken with enough
    binary digits for the rounding position to lie inside it, and the
    remainder gives the position of the exact value between two
    neighbours. *)
Definition round_ratio (neg : bool) (num den : Z) : float :=
  let s := Z.max 1100 (Z.log2 den - Z.log2 num + 64) in
  let n := num * 2 ^ s in
  let q := n / den in
  let r := n mod den in
  let loc := if r =? 0 then loc_Exact else loc_Inexact (2 * r ?= den) in
  SF2Prim (binary_round_aux prec emax neg q (- s) loc).

(** The Number value of the decimal numeral [m * 10 ^ e], [0 <= m]. *)
Definition of_decimal (neg : bool) (m e : Z) : float :=
  if m =? 0 then (if neg then neg_zero else zero)
  else if 0 <=? e then round_ratio neg (m * 10 ^ e) 1
  else round_ratio neg m (10 ^ (- e)).

Definition of_Z (n : Z) : float := of_decimal (n <? 0) (Z.abs n) 0.

(** *** Number::toString *)

(** A positive finite number as an exact fraction. *)
Definition to_ratio (x : float) : Z * Z :=
  match Prim2SF x with
  | S754_finite _ m e =>
      if 0 <=? e then (Zpos m * 2 ^ e, 1) else (Zpos m, 2 ^ (- e))
  | _ => (0, 1)
  end.

Definition below_pow10 (num den n : Z) : bool :=
  if 0 <=? n then num <? 10 ^ n * den else num * 10 ^ (- n) <? den.

(** The least [n], from [n0] on, with [num / den < 10 ^ n]. *)
Fixpoint exponent10_from (fuel : nat) (num den n0 : Z) : Z :=
  match fuel with
  | O => n0
  | S fuel' =>
      if below_pow10 num den n0 then n0
      else exponent10_from fuel' num den (n0 + 1)
  end.

(** Binary64 values lie between [10 ^ -324] and [10 ^ 309]. *)
Definition exponent10 (num den : Z) : Z :=
  exponent10_from 640 num den (-323).

(** The numeral of [k] digits for [x = num / den], if there is one that
    reads back as [x]: the pair [(s, p)] stands for [s * 10 ^ p].  Of the
    two numerals around [x] the nearer one is taken, the even one on a tie.
    With [force] the nearer numeral is returned even if it does not read
    back. *)
Definition digits_at (x : float) (num den n0 : Z) (force : bool) (k : Z)
  : option (Z * Z) :=
  let p := n0 - k in
  let a := if 0 <=? p then num else num * 10 ^ (- p) in
  let b := if 0 <=? p then den * 10 ^ p else den in
  let lo := a / b in
  let r := a mod b in
  let hi := if lo + 1 =? 10 ^ k then (10 ^ (k - 1), p + 1) else (lo + 1, p) in
  let reads '(s, q) := force || (of_decimal false s q =? x)%float in
  let lo_ok := reads (lo, p) in
  let hi_ok := reads hi in
  let lo_nearer :=
    (r <? b - r) || ((r =? b - r) && Z.even lo) in
  if lo_ok && (lo_nearer || negb hi_ok) then Some (lo, p)
  else if hi_ok then Some hi
  else None.

Fixpoint shortest_from (fuel : nat) (x : float) (num den n0 k : Z) : Z * Z :=
  match fuel with
  | O => default (0, 0) (digits_at x num den n0 true k)
  | S fuel' =>
      match digits_at x num den n0 false k with
      | Some sp => sp
      | None => shortest_from fuel' x num den n0 (k + 1)
      end
  end.

(** Seventeen digits identify every binary64 value. *)
Definition shortest (x : float) : Z * Z :=
  let '(num, den) := to_ratio x in
  shortest_from 16 x num den (exponent10 num den) 1.

Definition zeros (n : Z) : jsstring := repeat 48%N (Z.to_nat n).

Definition format_positive (x : float) : jsstring :=
  let '(s, p) := shortest x in
  let ds := decimal s in
  let k := Z.of_nat (length ds) in
  let n := p + k in
  if (k <=? n) && (n <=? 21) then ds ++ zeros (n - k)
  else if (0 <? n) && (n <=? 21) then
    take (Z.to_nat n) ds ++ js "." ++ drop (Z.to_nat n) ds
  else if (-6 <? n) && (n <=? 0) then js "0." ++ zeros (- n) ++ ds
  else
    let e := n - 1 in
    let tail := js (if e <? 0 then "e-" else "e+") ++ decimal (Z.abs e) in
    if k =? 1 then ds ++ tail
    else take 1 ds ++ js "." ++ drop 1 ds ++ tail.

(** Number::toString(x, 10). *)
Definition Number_toString (x : float) : jsstring :=
  if is_nan x then js "NaN"
  else if is_zero x then js "0"
  else if is_infinity x then (if get_sign x then js "-Infinity" else js "Infinity")
  else if get_sign x then js "-" ++ format_positive (- x)%float
  else format_positive x.

(** *** StringToNumber *)

Definition is_digit (c : N) : bool := ((48 <=? c) && (c <=? 57))%N.

Fixpoint span_digits (s : jsstring) : jsstring * jsstring :=
  match s with
  | c :: s' =>
      if is_digit c then let '(ds, rest) := span_digits s' in (c :: ds, rest)
      else ([], s)
  | [] => ([], [])
  end.

Definition digits_value (ds : jsstring) : Z :=
  fold_left (fun acc d => 10 * acc + (Z.of_N d - 48)) ds 0.

(** The value of a digit in a radix up to sixteen, if it is one. *)
Definition digit_in (radix : Z) (c : N) : option Z :=
  let z := Z.of_N c in
  let d :=
    if (48 <=? z) && (z <=? 57) then z - 48
    else if (97 <=? z) && (z <=? 102) then z - 87
    else if (65 <=? z) && (z <=? 70) then z - 55
    else radix in
  if d <? radix then Some d else None.

Fixpoint radix_value (radix : Z) (s : jsstring) (acc : Z) : option Z :=
  match s with
  | [] => Some acc
  | c :: s' =>
      match digit_in radix c with
      | Some d => radix_value radix s' (radix * acc + d)
      | None => None
      end
  end.

(** What follows the digits of a decimal literal: nothing, or an
    ExponentPart; the result is the exponent. *)
Definition exponent_part (s : jsstring) : option Z :=
  match s with
  | [] => Some 0
  | c :: s' =>
      if ((c =? 101) || (c =? 69))%N then
        let '(neg, s'') :=
          match s' with
          | 43%N :: r => (false, r)
          | 45%N :: r => (true, r)
          | _ => (false, s')
          end in
        match span_digits s'' with
        | (d :: ds, []) =>
            let e := digits_value (d :: ds) in Some (if neg then - e else e)
        | _ => None
        end
      else None
  end.

(** StrUnsignedDecimalLiteral. *)
Definition unsigned_decimal (neg : bool) (s : jsstring) : float :=
  if bool_decide (s = js "Infinity") then (if neg then neg_infinity else infinity)
  else
    let '(ip, r1) := span_digits s in
    match r1 with
    | 46%N :: r2 =>
        let '(fp, r3) := span_digits r2 in
        match ip ++ fp, exponent_part r3 with
        | d :: ds, Some e =>
            of_decimal neg (digits_value (d :: ds)) (e - Z.of_nat (length fp))
        | _, _ => nan
        end
    | _ =>
        match ip, exponent_part r1 with
        | _ :: _, Some e => of_decimal neg (digits_value ip) e
        | _, _ => nan
        end
    end.

Definition non_decimal (radix : Z) (ds : jsstring) : float :=
  match ds, radix_value radix ds 0 with
  | _ :: _, Some n => of_decimal false n 0
  | _, _ => nan
  end.

(** StringToNumber: the empty or blank string is [+0], a string that is
    not a StringNumericLiteral is [NaN]. *)
Definition StringToNumber (str : jsstring) : float :=
  match trim str with
  | [] => zero
  | 43%N :: s => unsigned_decimal false s
  | 45%N :: s => unsigned_decimal true s
  | 48%N :: c :: ds =>
      if ((c =? 120) || (c =? 88))%N then non_decimal 16 ds
      else if ((c =? 111) || (c =? 79))%N then non_decimal 8 ds
      else if ((c =? 98) || (c =? 66))%N then non_decimal 2 ds
      else unsigned_decimal false (48%N :: c :: ds)
  | s => unsigned_decimal false s
  end.

End JsNumber.
Import JsNumber.

(** ** Values *)

(** A JavaScript value as the handlers meet it: what [JSON.parse] builds,
    and [undefined] for what a property read or a destructuring finds
    absent.  An object is the finite map of its own properties. *)
#[warnings="-register-all"]
Inductive value : Type :=
| VUndef
| VNull
| VBool (b : bool)
| VNum (x : float)
| VStr (s : jsstring)
| VArr (elems : list value)
| VObj (props : gmap jsstring value).

Definition num (n : Z) : value := VNum (of_Z n).
Definition str (s : string) : value := VStr (js s).

(** An object literal. *)
Definition object (fields : list (string * value)) : value :=
  VObj (list_to_map (map (fun kv => (js (fst kv), snd kv)) (rev fields))).

(** ToBoolean: [undefined], [null], [false], [0], [-0], [NaN] and the empty
    string are falsy, everything else is truthy (every array and object,
    the empty ones too). *)
Definition ToBoolean (v : value) : bool :=
  match v with
  | VUndef | VNull => false
  | VBool b => b
  | VNum x => negb (is_zero x || is_nan x)
  | VStr s => negb (bool_decide (s = []))
  | VArr _ | VObj _ => true
  end.

(** The operator [||]: the left operand if it is truthy, the right one
    otherwise. *)
Definition js_or (a b : value) : value := if ToBoolean a then a else b.

(** *** Errors *)

(** The errors the language itself raises in the handlers.  The wording of
    their messages is the engine's. *)
Inductive engine_error : Type :=
| JsonSyntaxError (text : jsstring)
| ReadOfNullish (base : value) (property : jsstring)
| DestructureNullish (source : value)
| NoPrimitiveValue (operand : value)
| CircularStructure
| BigIntInJson.

(** What [JSON.stringify] meets in an own enumerable property of a thrown
    object: a value of JSON, a BigInt, an object with properties of its
    own, or an object that it is already in the middle of writing (a
    reference back to the thrown object or to an object around this
    one). *)
#[warnings="-register-all"]
Inductive detail : Type :=
| Plain (v : value)
| BigInt (n : Z)
| Nested (props : list (jsstring * detail))
| Cycle.

(** A thrown value: an [Error] object, of which the handlers read
    [message] and, through [JSON.stringify], the own enumerable
    properties.  [None] is a thrown value without a [message].  The
    [message] and the [stack] of an Error are not enumerable: what the
    engine throws has no enumerable property at all. *)
Record Error : Type := mkError {
  message : option jsstring;
  enumerable : list (jsstring * detail)
}.

Class Engine : Type := { wording : engine_error -> jsstring }.

Definition raise `{Engine} (e : engine_error) : Error :=
  mkError (Some (wording e)) [].

(** [error.message] as a value. *)
Definition message_value (e : Error) : value :=
  match message e with
  | Some s => VStr s
  | None => VUndef
  end.

(** The result of evaluating what may throw. *)
Inductive outcome (A : Type) : Type :=
| Returns (a : A)
| Throws (e : Error).
Arguments Returns {A} a.
Arguments Throws {A} e.

#[export] Instance outcome_ret : MRet outcome := fun _ a => Returns a.
#[export] Instance outcome_bind : MBind outcome := fun _ _ f o =>
  match o with
  | Returns a => f a
  | Throws e => Throws e
  end.

(** *** Conversions *)

Section Conversions.
Context `{Engine}.

(** [Array.prototype.join] with the separator [","]. *)
Definition join_comma (parts : list jsstring) : jsstring :=
  match parts with
  | [] => []
  | p :: ps => p ++ flat_map (fun q => 44%N :: q) ps
  end.

(** ToString.  An array is joined with commas, its [null] and [undefined]
    elements giving the empty string.  A plain object is
    ["[object Object]"] through [Object.prototype.toString]; an own
    property [toString] of the object hides that method and, being no
    function, leaves the object without a primitive value: a TypeError. *)
Fixpoint ToString (v : value) : outcome jsstring :=
  match v with
  | VUndef => Returns (js "undefined")
  | VNull => Returns (js "null")
  | VBool b => Returns (js (if b then "true" else "false"))
  | VNum x => Returns (Number_toString x)
  | VStr s => Returns s
  | VArr elems =>
      parts ←
        (fix each (l : list value) : outcome (list jsstring) :=
           match l with
           | [] => Returns []
           | e :: l' =>
               part ←
                 match e with
                 | VUndef | VNull => Returns []
                 | _ => ToString e
                 end;
               rest ← each l';
               Returns (part :: rest)
           end) elems;
      Returns (join_comma parts)
  | VObj props =>
      match props !! js "toString" with
      | Some _ => Throws (raise (NoPrimitiveValue v))
      | None => Returns (js "[object Object]")
      end
  end.

(** ToPrimitive: the [valueOf] of an array or a plain object gives no
    primitive, so with every hint the result is that of [toString]. *)
Definition ToPrimitive (v : value) : outcome value :=
  match v with
  | VArr _ | VObj _ => s ← ToString v; Returns (VStr s)
  | _ => Returns v
  end.

(** ToNumber of a primitive. *)
Definition primitive_number (p : value) : float :=
  match p with
  | VUndef => nan
  | VNull => zero
  | VBool b => if b then one else zero
  | VNum x => x
  | VStr s => StringToNumber s
  | VArr _ | VObj _ => nan
  end.

(** ToNumber. *)
Definition ToNumber (v : value) : outcome float :=
  p ← ToPrimitive v; Returns (primitive_number p).

(** The operator [+]: concatenation as soon as one operand is a string
    after ToPrimitive, addition of numbers otherwise. *)
Definition js_add (a b : value) : outcome value :=
  lprim ← ToPrimitive a;
  rprim ← ToPrimitive b;
  match lprim, rprim with
  | VStr _, _ | _, VStr _ =>
      lstr ← ToString lprim;
      rstr ← ToString rprim;
      Returns (VStr (lstr ++ rstr))
  | _, _ => Returns (VNum (primitive_number lprim + primitive_number rprim)%float)
  end.

(** The operator [-]. *)
Definition js_sub (a b : value) : outcome value :=
  lnum ← ToNumber a;
  rnum ← ToNumber b;
  Returns (VNum (lnum - rnum)%float).

End Conversions.

(** *** Properties *)

(** The index a property name denotes, if it is a canonical array index. *)
Definition array_index (name : jsstring) : option nat :=
  match name with
  | [] => None
  | c :: _ =>
      if forallb is_digit name && ((length name =? 1)%nat || negb (c =? 48)%N)
      then Some (Z.to_nat (digits_value name)) else None
  end.

(** Own properties of a value, with [length] and the indices of arrays and
    strings.  The names the handlers read are not names of members of the
    built-in prototypes, so a name that is not an own property reads as
    [undefined]. *)
Definition own_property (v : value) (name : jsstring) : value :=
  match v with
  | VObj props => default VUndef (props !! name)
  | VArr elems =>
      if bool_decide (name = js "length") then num (Z.of_nat (length elems))
      else default VUndef (i ← array_index name; elems !! i)
  | VStr s =>
      if bool_decide (name = js "length") then num (Z.of_nat (length s))
      else default VUndef (i ← array_index name; c ← s !! i; Some (VStr [c]))
  | _ => VUndef
  end.

(** [base.name]: a TypeError on [undefined] and [null]. *)
Definition get_member `{Engine} (base : value) (name : string) : outcome value :=
  match base with
  | VUndef | VNull => Throws (raise (ReadOfNullish base (js name)))
  | _ => Returns (own_property base (js name))
  end.

(** [base?.name]. *)
Definition get_member_optional (base : value) (name : string) : value :=
  match base with
  | VUndef | VNull => VUndef
  | _ => own_property base (js name)
  end.

Definition indexed {A} (f : A -> value) (l : list A) : gmap jsstring value :=
  list_to_map (imap (fun i x => (decimal (Z.of_nat i), f x)) l).

(** [{...v}]: the own enumerable properties of [v]; [undefined], [null],
    numbers and booleans have none, an array has its elements and a string
    its units, under their indices. *)
Definition spread (v : value) : gmap jsstring value :=
  match v with
  | VObj props => props
  | VArr elems => indexed id elems
  | VStr s => indexed (fun c => VStr [c]) s
  | _ => ∅
  end.

(** ** JSON.parse *)

Module Json.

Inductive token : Type :=
| TLBrace | TRBrace | TLBracket | TRBracket | TColon | TComma
| TString (s : jsstring)
| TValue (v : value).

(** *** Tokens

    The lexer reads one code unit at a time.  Its state says what it is in
    the middle of: nothing, a string (the units read so far, last first), an
    escape, the four hexadecimal digits of a [\u] escape, a literal name, or
    a number. *)

Inductive num_phase : Type :=
| NMinus | NZero | NInt | NDot | NFrac | NE | NESign | NExp.

Record numeral : Type := mkNumeral {
  n_neg : bool;       (* a leading minus sign *)
  n_mant : Z;         (* the digits of the integer and fraction parts *)
  n_frac : Z;         (* how many of them are fraction digits *)
  n_eneg : bool;      (* a minus sign in the exponent *)
  n_exp : Z           (* the digits of the exponent *)
}.

Inductive lex_state : Type :=
| LIdle
| LString (acc : jsstring)
| LEscape (acc : jsstring)
| LUnicode (acc : jsstring) (got : nat) (code : N)
| LLiteral (todo : jsstring) (v : value)
| LNumber (ph : num_phase) (n : numeral).

(** JSON white space: space, tab, line feed, carriage return. *)
Definition is_json_space (c : N) : bool :=
  ((c =? 32) || (c =? 9) || (c =? 10) || (c =? 13))%N.

Definition numeral_value (n : numeral) : value :=
  VNum (of_decimal (n_neg n) (n_mant n)
          ((if n_eneg n then - n_exp n else n_exp n) - n_frac n)).

Definition digit_value (c : N) : Z := Z.of_N c - 48.

Definition numeral_start (neg : bool) (d : Z) : numeral :=
  mkNumeral neg d 0 false 0.

Definition push_digit (n : numeral) (c : N) (fraction : bool) : numeral :=
  mkNumeral (n_neg n) (10 * n_mant n + digit_value c)
    (if fraction then n_frac n + 1 else n_frac n) (n_eneg n) (n_exp n).

Definition push_exp_digit (n : numeral) (c : N) : numeral :=
  mkNumeral (n_neg n) (n_mant n) (n_frac n) (n_eneg n)
    (10 * n_exp n + digit_value c).

Definition set_exp_sign (n : numeral) (neg : bool) : numeral :=
  mkNumeral (n_neg n) (n_mant n) (n_frac n) neg (n_exp n).

Definition is_e (c : N) : bool := ((c =? 101) || (c =? 69))%N.

(** One more unit of a number: the next phase, or [None] when the unit
    cannot continue the number. *)
Definition number_step (ph : num_phase) (n : numeral) (c : N)
  : option (num_phase * numeral) :=
  match ph with
  | NMinus =>
      if (c =? 48)%N then Some (NZero, n)
      else if is_digit c then Some (NInt, push_digit n c false)
      else None
  | NZero =>
      if (c =? 46)%N then Some (NDot, n)
      else if is_e c then Some (NE, n)
      else None
  | NInt =>
      if is_digit c then Some (NInt, push_digit n c false)
      else if (c =? 46)%N then Some (NDot, n)
      else if is_e c then Some (NE, n)
      else None
  | NDot =>
      if is_digit c then Some (NFrac, push_digit n c true) else None
  | NFrac =>
      if is_digit c then Some (NFrac, push_digit n c true)
      else if is_e c then Some (NE, n)
      else None
  | NE =>
      if (c =? 43)%N then Some (NESign, n)
      else if (c =? 45)%N then Some (NESign, set_exp_sign n true)
      else if is_digit c then Some (NExp, push_exp_digit n c)
      else None
  | NESign =>
      if is_digit c then Some (NExp, push_exp_digit n c) else None
  | NExp =>
      if is_digit c then Some (NExp, push_exp_digit n c) else None
  end.

(** The phases in which the units read so far are a whole number. *)
Definition number_complete (ph : num_phase) : bool :=
  match ph with
  | NZero | NInt | NFrac | NExp => true
  | NMinus | NDot | NE | NESign => false
  end.

(** A unit met outside any token. *)
Definition lex_idle (c : N) : option (lex_state * list token) :=
  if is_json_space c then Some (LIdle, [])
  else if (c =? 34)%N then Some (LString [], [])
  else if (c =? 123)%N then Some (LIdle, [TLBrace])
  else if (c =? 125)%N then Some (LIdle, [TRBrace])
  else if (c =? 91)%N then Some (LIdle, [TLBracket])
  else if (c =? 93)%N then Some (LIdle, [TRBracket])
  else if (c =? 58)%N then Some (LIdle, [TColon])
  else if (c =? 44)%N then Some (LIdle, [TComma])
  else if (c =? 116)%N then Some (LLiteral (js "rue") (VBool true), [])
  else if (c =? 102)%N then Some (LLiteral (js "alse") (VBool false), [])
  else if (c =? 110)%N then Some (LLiteral (js "ull") VNull, [])
  else if (c =? 45)%N then Some (LNumber NMinus (numeral_start true 0), [])
  else if (c =? 48)%N then Some (LNumber NZero (numeral_start false 0), [])
  else if is_digit c then
    Some (LNumber NInt (numeral_start false (digit_value c)), [])
  else None.

(** The unit an escape letter stands for. *)
Definition escaped (c : N) : option N :=
  (if (c =? 34) || (c =? 92) || (c =? 47) then Some c
   else if c =? 98 then Some 8
   else if c =? 102 then Some 12
   else if c =? 110 then Some 10
   else if c =? 114 then Some 13
   else if c =? 116 then Some 9
   else None)%N.

Definition lex_step (st : lex_state) (c : N) : option (lex_state * list token) :=
  match st with
  | LIdle => lex_idle c
  | LString acc =>
      if (c =? 34)%N then Some (LIdle, [TString (rev acc)])
      else if (c =? 92)%N then Some (LEscape acc, [])
      else if (c <? 32)%N then None
      else Some (LString (c :: acc), [])
  | LEscape acc =>
      if (c =? 117)%N then Some (LUnicode acc 0 0%N, [])
      else u ← escaped c; Some (LString (u :: acc), [])
  | LUnicode acc got code =>
      d ← digit_in 16 c;
      let code' := (16 * code + Z.to_N d)%N in
      if (got =? 3)%nat then Some (LString (code' :: acc), [])
      else Some (LUnicode acc (S got) code', [])
  | LLiteral todo v =>
      match todo with
      | [] => None
      | t :: todo' =>
          if (c =? t)%N then
            match todo' with
            | [] => Some (LIdle, [TValue v])
            | _ :: _ => Some (LLiteral todo' v, [])
            end
          else None
      end
  | LNumber ph n =>
      match number_step ph n c with
      | Some (ph', n') => Some (LNumber ph' n', [])
      | None =>
          if number_complete ph then
            '(st', toks) ← lex_idle c; Some (st', TValue (numeral_value n) :: toks)
          else None
      end
  end.

(** At the end of the text only a complete number may be pending. *)
Definition lex_finish (st : lex_state) : option (list token) :=
  match st with
  | LIdle => Some []
  | LNumber ph n =>
      if number_complete ph then Some [TValue (numeral_value n)] else None
  | _ => None
  end.

Fixpoint lex_from (st : lex_state) (text : jsstring) : option (list token) :=
  match text with
  | [] => lex_finish st
  | c :: text' =>
      '(st', toks) ← lex_step st c;
      rest ← lex_from st' text';
      Some (toks ++ rest)
  end.

Definition lex (text : jsstring) : option (list token) := lex_from LIdle text.

(** *** Values

    The parser reads one token at a time and keeps the containers that are
    still open on a stack: an array with the elements read so far (last
    first), an object with the members read so far and the name that awaits
    its value. *)

Inductive frame : Type :=
| FArray (acc : list value)
| FObject (props : gmap jsstring value) (key : jsstring).

Inductive parse_state : Type :=
| PValue (stack : list frame)
| PArrayFirst (stack : list frame)
| PArrayNext (acc : list value) (stack : list frame)
| PObjectFirst (stack : list frame)
| PObjectKey (props : gmap jsstring value) (stack : list frame)
| PObjectColon (props : gmap jsstring value) (key : jsstring) (stack : list frame)
| PObjectNext (props : gmap jsstring value) (stack : list frame)
| PDone (v : value).

(** A value is complete: it is the whole text, or the next element of the
    innermost open array, or the value of the pending member of the
    innermost open object.  A member replaces an earlier one of the same
    name. *)
Definition deliver (v : value) (stack : list frame) : parse_state :=
  match stack with
  | [] => PDone v
  | FArray acc :: stack' => PArrayNext (v :: acc) stack'
  | FObject props key :: stack' => PObjectNext (<[key := v]> props) stack'
  end.

(** A token where a value must start. *)
Definition parse_value (stack : list frame) (t : token) : option parse_state :=
  match t with
  | TString s => Some (deliver (VStr s) stack)
  | TValue v => Some (deliver v stack)
  | TLBracket => Some (PArrayFirst stack)
  | TLBrace => Some (PObjectFirst stack)
  | _ => None
  end.

Definition parse_step (st : parse_state) (t : token) : option parse_state :=
  match st with
  | PValue stack => parse_value stack t
  | PArrayFirst stack =>
      match t with
      | TRBracket => Some (deliver (VArr []) stack)
      | _ => parse_value (FArray [] :: stack) t
      end
  | PArrayNext acc stack =>
      match t with
      | TComma => Some (PValue (FArray acc :: stack))
      | TRBracket => Some (deliver (VArr (rev acc)) stack)
      | _ => None
      end
  | PObjectFirst stack =>
      match t with
      | TRBrace => Some (deliver (VObj ∅) stack)
      | TString key => Some (PObjectColon ∅ key stack)
      | _ => None
      end
  | PObjectKey props stack =>
      match t with
      | TString key => Some (PObjectColon props key stack)
      | _ => None
      end
  | PObjectColon props key stack =>
      match t with
      | TColon => Some (PValue (FObject props key :: stack))
      | _ => None
      end
  | PObjectNext props stack =>
      match t with
      | TComma => Some (PObjectKey props stack)
      | TRBrace => Some (deliver (VObj props) stack)
      | _ => None
      end
  | PDone _ => None
  end.

Fixpoint parse_from (st : parse_state) (toks : list token) : option value :=
  match toks with
  | [] => match st with PDone v => Some v | _ => None end
  | t :: toks' => st' ← parse_step st t; parse_from st' toks'
  end.

(** The value of a JSON text, [None] when the text is not JSON. *)
Definition parse (text : jsstring) : option value :=
  toks ← lex text; parse_from (PValue []) toks.

End Json.

(** [JSON.parse(text)]: a SyntaxError when the text is not JSON. *)
Definition JSON_parse `{Engine} (text : jsstring) : outcome value :=
  match Json.parse text with
  | Some v => Returns v
  | None => Throws (raise (JsonSyntaxError text))
  end.

(** ** Interaction

    A handler is a program that performs events and continues with their
    answers.  An event that can fail answers with an [outcome]; the
    [try]/[catch] of the source is [try_catch]. *)

Inductive prog (E : Type -> Type) (R : Type) : Type :=
| Ret (r : R)
| Vis {X : Type} (e : E X) (k : X -> prog E R).
Arguments Ret {E R} r.
Arguments Vis {E R X} e k.

Fixpoint bind {E A B} (p : prog E A) (f : A -> prog E B) : prog E B :=
  match p with
  | Ret a => f a
  | Vis e k => Vis e (fun x => bind (k x) f)
  end.

(** Perform one event. *)
Definition perform {E X} (e : E X) : prog E X := Vis e Ret.

(** Sequencing inside a [try] block: a throw skips what follows. *)
Definition and_then {E A B} (p : prog E (outcome A)) (f : A -> prog E (outcome B))
  : prog E (outcome B) :=
  bind p (fun o =>
    match o with
    | Returns a => f a
    | Throws e => Ret (Throws e)
    end).

Definition try_catch {E A} (body : prog E (outcome A)) (handler : Error -> prog E A)
  : prog E A :=
  bind body (fun o =>
    match o with
    | Returns a => Ret a
    | Throws e => handler e
    end).

(** A [try] statement whose [catch] block can throw in its turn, at the end
    of an async function: what the block throws is the rejection of the
    function. *)
Definition try_catch_throwing {E A}
    (body : prog E (outcome A)) (handler : Error -> prog E (outcome A))
  : prog E (outcome A) :=
  bind body (fun o =>
    match o with
    | Returns a => Ret (Returns a)
    | Throws e => handler e
    end).

Notation "x <~ p ;; q" := (and_then p (fun x => q))
  (at level 20, p at level 99, q at level 200, only parsing).
Notation "p ;; q" := (and_then p (fun _ => q))
  (at level 100, q at level 200, right associativity, only parsing).

(** A statement that performs nothing. *)
Definition eval {E A} (o : outcome A) : prog E (outcome A) := Ret o.
Definition done_with {E A} (a : A) : prog E (outcome A) := Ret (Returns a).

(** The world answers the events and changes with them. *)
Definition handler (E : Type -> Type) (W : Type) : Type :=
  forall X, E X -> W -> X * W.

Fixpoint run {E W R} (h : handler E W) (p : prog E R) (w : W) : R * W :=
  match p with
  | Ret r => (r, w)
  | Vis e k => let '(x, w') := h _ e w in run h (k x) w'
  end.

(** The same world, keeping the list of the events performed. *)
Definition logged {E W} (h : handler E W) : handler E (W * list (sigT E)) :=
  fun X e '(w, log) =>
    let '(x, w') := h X e w in (x, (w', log ++ [existT X e])).

Definition events {E W R} (h : handler E W) (p : prog E R) (w : W) : list (sigT E) :=
  snd (snd (run (logged h) p (w, []))).

Definition result {E W R} (h : handler E W) (p : prog E R) (w : W) : R :=
  fst (run h p w).

(** ** backend/server.js *)

Module Server.

#[local] Open Scope string_scope.

(** What the SDK of the generative model hands back between two calls: a
    pending result, a chat session. *)
Definition handle : Type := nat.

(** The calls to the generative model.  The prompt of [generateContent] is
    the fixed instruction text followed by a template around
    [JSON.stringify(systemInfo)] and [JSON.stringify(inputs)]; the event
    carries the two values.  [ResponseText] is [(await result.response).text()]. *)
Inductive ProviderE : Type -> Type :=
| GenerateContent (systemInfo inputs : value) : ProviderE (outcome handle)
| StartChat (history : value) (maxOutputTokens : Z) : ProviderE (outcome handle)
| SendMessage (chat : handle) (message : value) : ProviderE (outcome handle)
| ResponseText (result : handle) : ProviderE (outcome jsstring).

(** What the handler sends: a status and the value given to [res.json]. *)
Record Response : Type := mkResponse { status : Z; body : value }.

Definition res_json (v : value) : Response := mkResponse 200 v.
Definition res_status_json (code : Z) (v : value) : Response := mkResponse code v.

Section Handlers.
Context `{Engine}.

(** [const { a, b } = source]: a TypeError when [source] is [undefined] or
    [null]. *)
Definition destructure (source : value) : outcome value :=
  match source with
  | VUndef | VNull => Throws (raise (DestructureNullish source))
  | _ => Returns source
  end.

(** Lines 80 to 96.  Each operand of [||] on the right is evaluated only
    when the property on the left is falsy. *)
Definition enhancedPrediction (prediction : value) : outcome value :=
  longTermProjection ←
    (given ← get_member prediction "longTermProjection";
     if ToBoolean given then mret given
     else
       h25 ← (healthIndex ← get_member prediction "healthIndex";
              js_add healthIndex (num 5));
       h50 ← get_member prediction "healthIndex";
       h75 ← (healthIndex ← get_member prediction "healthIndex";
              js_sub healthIndex (num 10));
       h100 ← (healthIndex ← get_member prediction "healthIndex";
               js_sub healthIndex (num 20));
       mret (VArr [
         object [("cycle", num 0); ("health", num 100)];
         object [("cycle", num 25); ("health", h25)];
         object [("cycle", num 50); ("health", h50)];
         object [("cycle", num 75); ("health", h75)];
         object [("cycle", num 100); ("health", h100)]
       ]));
  simulation ←
    (given ← get_member prediction "simulation";
     if ToBoolean given then mret given
     else
       mret (object [
         ("maintenanceNow", object [
            ("riskReduction", num 85); ("healthImprovement", num 15);
            ("cost", num 4500)]);
         ("maintenanceLater", object [
            ("riskReduction", num 10); ("healthImprovement", num 2);
            ("cost", num 28000)])
       ]));
  failureCluster ←
    (given ← get_member prediction "failureCluster";
     if ToBoolean given then mret given
     else
       failureMode ← get_member prediction "failureMode";
       mret (object [
         ("id", str "CL-GEN"); ("label", failureMode);
         ("description", str "AI Detected Pattern")]));
  dataDrift ←
    (given ← get_member prediction "dataDrift";
     if ToBoolean given then mret given
     else
       driftDetected ← get_member prediction "driftDetected";
       mret (object [
         ("detected", driftDetected); ("severity", str "Medium");
         ("explanation", str "AI analysis of input distribution.")]));
  mret (VObj (
    <[js "dataDrift" := dataDrift]> (
    <[js "failureCluster" := failureCluster]> (
    <[js "simulation" := simulation]> (
    <[js "longTermProjection" := longTermProjection]> (
    spread prediction)))))).

(** Line 72. *)
Definition cleanup (text : jsstring) : jsstring :=
  trim (remove_all (js "```") (remove_all (js "```json") text)).

(** Lines 106 to 110. *)
Definition fallback : value :=
  object [
    ("healthIndex", num 50); ("riskLevel", str "MEDIUM");
    ("action", str "System Error - Check Backend Logs")].

(** The [try] block of [app.post('/api/predict', ...)], lines 56 to 98.
    Of the console output only what evaluating its arguments can throw is
    kept: the read of [systemInfo.name] and its conversion to a string in
    the template of the first log line. *)
Definition predict_try (req_body : value) : prog ProviderE (outcome Response) :=
  source <~ eval (destructure req_body) ;;
  let systemInfo := own_property source (js "systemInfo") in
  let inputs := own_property source (js "inputs") in
  name <~ eval (get_member systemInfo "name") ;;
  eval (ToString name) ;;
  result <~ perform (GenerateContent systemInfo inputs) ;;
  text <~ perform (ResponseText result) ;;
  let text := cleanup text in
  prediction <~ eval (JSON_parse text) ;;
  enhanced <~ eval (enhancedPrediction prediction) ;;
  done_with (res_json enhanced).

(** The [catch] block, lines 100 to 112, without its log line. *)
Definition predict_catch (error : Error) : prog ProviderE Response :=
  Ret (res_status_json 500 (object [
    ("error", str "Failed to generate prediction");
    ("details", message_value error);
    ("fallback", fallback)])).

(** [app.post('/api/predict', ...)], lines 54 to 113. *)
Definition predict (req_body : value) : prog ProviderE Response :=
  try_catch (predict_try req_body) predict_catch.

(** [error.message?.includes(pattern)], as a condition. *)
Definition message_includes (error : Error) (pattern : string) : bool :=
  match message error with
  | Some s => includes s (js pattern)
  | None => false
  end.

(** Lines 169 to 176. *)
Definition errorMessage (error : Error) : string :=
  if message_includes error "API key" then "Invalid API Key"
  else if message_includes error "SAFETY" then "Response blocked by safety filters"
  else "Failed to process chat message".

(** The [try] block of [app.post('/api/chat', ...)], lines 147 to 163.  The
    templates of the two log lines convert [message] and [history?.length]
    to strings. *)
Definition chat_try (req_body : value) : prog ProviderE (outcome Response) :=
  source <~ eval (destructure req_body) ;;
  let message := own_property source (js "message") in
  let history := own_property source (js "history") in
  eval (ToString message) ;;
  eval (ToString (get_member_optional history "length")) ;;
  session <~ perform (StartChat (js_or history (VArr [])) 1000) ;;
  result <~ perform (SendMessage session message) ;;
  text <~ perform (ResponseText result) ;;
  done_with (res_json (object [("response", VStr text)])).

(** What stands in the way of [JSON.stringify]: the first BigInt or
    reference back that it meets, the properties taken in their order. *)
Fixpoint obstacle (d : detail) : option engine_error :=
  match d with
  | Plain _ => None
  | BigInt _ => Some BigIntInJson
  | Cycle => Some CircularStructure
  | Nested props =>
      (fix first (l : list (jsstring * detail)) : option engine_error :=
         match l with
         | [] => None
         | (_, d') :: l' =>
             match obstacle d' with
             | Some e => Some e
             | None => first l'
             end
         end) props
  end.

(** [JSON.stringify(error, null, 2)], line 166: a TypeError on a BigInt
    and on a circular structure.  The text it returns goes to the console
    only. *)
Definition JSON_stringify_thrown (error : Error) : outcome unit :=
  match obstacle (Nested (enumerable error)) with
  | Some e => Throws (raise e)
  | None => Returns tt
  end.

(** The [catch] block, lines 165 to 179.  Of its two log lines, the first
    evaluates [JSON.stringify(error, null, 2)], which can throw; the second
    reads [error.message], which cannot. *)
Definition chat_catch (error : Error) : prog ProviderE (outcome Response) :=
  eval (JSON_stringify_thrown error) ;;
  done_with (res_status_json 500 (object [
    ("error", str (errorMessage error));
    ("details", message_value error)])).

(** [app.post('/api/chat', ...)], lines 145 to 180: the response that the
    handler sends, or what its [catch] block throws, no response being sent
    then. *)
Definition chat (req_body : value) : prog ProviderE (outcome Response) :=
  try_catch_throwing (chat_try req_body) chat_catch.

End Handlers.

End Server.

(** ** src/context/DashboardContext.tsx *)

Module Dashboard.

#[local] Open Scope string_scope.

(** The icons of lucide-react the file imports. *)
Inductive LucideIcon : Type := Monitor | Cpu | Smartphone | Laptop | Activity.

Record Device : Type := mkDevice {
  id : jsstring;
  name : jsstring;
  icon : LucideIcon
}.

(** Lines 12 to 17. *)
Definition defaultDevices : list Device := [
  mkDevice (js "dev-01") (js "Turbine A-11") Monitor;
  mkDevice (js "dev-02") (js "Gen. Control") Cpu;
  mkDevice (js "dev-03") (js "Field Tablet") Smartphone;
  mkDevice (js "dev-04") (js "Engine Monitor") Laptop
].

(** An asset as the REST resource returns it; the fields the file reads.
    [asset_type] is [None] when the asset has no [type] (or a [null]
    one). *)
Record Asset : Type := mkAsset {
  asset_id : jsstring;
  asset_name : jsstring;
  asset_type : option jsstring
}.

(** The body of the POST of [addDevice]. *)
Record AssetCreate : Type := mkAssetCreate {
  create_name : jsstring;
  create_type : jsstring;
  create_description : jsstring;
  create_status : jsstring
}.

(** The argument of [addDevice]: a device whose icon is optional. *)
Record NewDevice : Type := mkNewDevice {
  new_id : jsstring;
  new_name : jsstring;
  new_icon : option LucideIcon
}.

(** What the provider does outside itself: it reads the local storage of
    the browser, calls the assets resource through the shared HTTP client
    (the answer is [response.data]), and sets its state. *)
Inductive DashE : Type -> Type :=
| LocalStorageGetItem (key : jsstring) : DashE (option jsstring)
| ApiGet (url : jsstring) : DashE (outcome (list Asset))
| ApiPost (url : jsstring) (data : AssetCreate) : DashE (outcome Asset)
| ApiDelete (url : jsstring) : DashE (outcome unit)
| SetDevices (update : list Device -> list Device) : DashE unit.

(** Lines 103 to 110. *)
Definition getIconForAssetType (type : option jsstring) : LucideIcon :=
  let lowerType :=
    match type with
    | Some t => toLowerCase t
    | None => []
    end in
  if includes lowerType (js "turbine") then Monitor
  else if includes lowerType (js "control") then Cpu
  else if includes lowerType (js "tablet") || includes lowerType (js "mobile")
  then Smartphone
  else if includes lowerType (js "monitor") || includes lowerType (js "computer")
  then Laptop
  else Activity.

(** [!token] for the string or [null] that [getItem] returns. *)
Definition no_token (token : option jsstring) : bool :=
  match token with
  | Some (_ :: _) => false
  | Some [] | None => true
  end.

(** [fetchAssets], lines 31 to 58. *)
Definition fetchAssets : prog DashE unit :=
  try_catch
    (token <~ bind (perform (LocalStorageGetItem (js "forsee_access_token"))) done_with ;;
     if no_token token then
       bind (perform (SetDevices (fun _ => defaultDevices))) done_with
     else
       assets <~ perform (ApiGet (js "/assets/")) ;;
       let mappedDevices :=
         map (fun asset =>
                mkDevice (asset_id asset) (asset_name asset)
                  (getIconForAssetType (asset_type asset)))
             assets in
       if (0 <? length mappedDevices)%nat then
         bind (perform (SetDevices (fun _ => mappedDevices))) done_with
       else
         bind (perform (SetDevices (fun _ => defaultDevices))) done_with)
    (fun error => perform (SetDevices (fun _ => defaultDevices))).

(** [addDevice], lines 63 to 84. *)
Definition addDevice (newDevice : NewDevice) : prog DashE unit :=
  try_catch
    (asset <~ perform (ApiPost (js "/assets/")
       (mkAssetCreate (new_name newDevice) (js "custom")
          (js "Added via Dashboard") (js "active"))) ;;
     let deviceWithIcon :=
       mkDevice (asset_id asset) (asset_name asset)
         (default Activity (new_icon newDevice)) in
     bind (perform (SetDevices (fun prev => (prev ++ [deviceWithIcon])%list))) done_with)
    (fun error => Ret tt).

(** [removeDevice], lines 86 to 93. *)
Definition removeDevice (id' : jsstring) : prog DashE unit :=
  try_catch
    (perform (ApiDelete (js "/assets/" ++ id')%list) ;;
     bind (perform
       (SetDevices (fun prev => filter (fun d => id d ≠ id') prev))) done_with)
    (fun error => Ret tt).

(** The browser and the backend: the local storage, the device list of the
    provider, and what the assets resource answers to each call. *)
Record World : Type := mkWorld {
  localStorage : gmap jsstring jsstring;
  devices : list Device;
  api_get : jsstring -> outcome (list Asset);
  api_post : jsstring -> AssetCreate -> outcome Asset;
  api_delete : jsstring -> outcome unit
}.

Definition set_devices (w : World) (ds : list Device) : World :=
  mkWorld (localStorage w) ds (api_get w) (api_post w) (api_delete w).

Definition browser : handler DashE World :=
  fun X e w =>
    match e in DashE X return X * World with
    | LocalStorageGetItem key => (localStorage w !! key, w)
    | ApiGet url => (api_get w url, w)
    | ApiPost url data => (api_post w url data, w)
    | ApiDelete url => (api_delete w url, w)
    | SetDevices update => (tt, set_devices w (update (devices w)))
    end.

(** The device list after a program has run. *)
Definition devices_after (p : prog DashE unit) (w : World) : list Device :=
  devices (snd (run browser p w)).

End Dashboard.

(** ** The authentication provider

    [AuthProvider], the second document of [backend/server.js] (lines 185
    to 337): the session state the dashboard keeps, driven by the listener
    of the identity provider, with the role of each user remembered in the
    local storage of the browser. *)

Module Auth.

#[local] Open Scope string_scope.

(** The user of the identity provider ([FirebaseUser]); the fields the
    file reads.  [displayName], [email] and [photoURL] are strings or
    [null]. *)
Record FirebaseUser : Type := mkFirebaseUser {
  uid : jsstring;
  displayName : option jsstring;
  fb_email : option jsstring;
  photoURL : option jsstring
}.

(** Lines 202 to 207. *)
Record User : Type := mkUser {
  id : jsstring;
  name : jsstring;
  email : jsstring;
  avatarUrl : option jsstring
}.

(** [UserRole], line 200: ['admin' | 'engineer' | 'viewer' | null] for the
    compiler; at run time a string or [null], since line 256 casts
    whatever the local storage holds. *)
Definition UserRole : Type := option jsstring.

(** ToBoolean of a string or [null]. *)
Definition truthy (s : option jsstring) : bool :=
  match s with
  | Some (_ :: _) => true
  | Some [] | None => false
  end.

(** [a || b] for a string or [null] (or [undefined]) [a] and a string
    [b]. *)
Definition or_else (a : option jsstring) (b : jsstring) : jsstring :=
  match a with
  | Some (c :: s) => c :: s
  | Some [] | None => b
  end.

(** [s.split(sep)[0]] for a separator of one unit: what stands before the
    first separator, the whole string if there is none. *)
Fixpoint before (sep : N) (s : jsstring) : jsstring :=
  match s with
  | [] => []
  | c :: s' => if (c =? sep)%N then [] else c :: before sep s'
  end.

(** [mapUser], lines 240 to 245.  [a || b || 'User'] picks the first
    truthy operand. *)
Definition mapUser (fbUser : FirebaseUser) : User :=
  mkUser
    (uid fbUser)
    (or_else (displayName fbUser)
       (or_else (before 64 <$> fb_email fbUser) (js "User")))
    (or_else (fb_email fbUser) [])
    (Some (or_else (photoURL fbUser) (js "/avatar.png"))).

(** What the provider does outside itself: the calls of the identity
    provider, which resolve or reject; the local storage; and the setters
    of its four pieces of state. *)
Inductive AuthE : Type -> Type :=
| SignInWithEmailAndPassword (email password : jsstring) : AuthE (outcome unit)
| CreateUserWithEmailAndPassword (email password : jsstring)
    : AuthE (outcome FirebaseUser)
| UpdateProfile (user : FirebaseUser) (displayName : jsstring) : AuthE (outcome unit)
| SignInWithPopup : AuthE (outcome unit)
| SignOut : AuthE (outcome unit)
| GetItem (key : jsstring) : AuthE (option jsstring)
| SetItem (key value : jsstring) : AuthE unit
| RemoveItem (key : jsstring) : AuthE unit
| SetUser (user : option User) : AuthE unit
| SetUserRole (role : UserRole) : AuthE unit
| SetPendingRequest (role : UserRole) : AuthE unit
| SetIsLoading (loading : bool) : AuthE unit.

(** One statement after the other, outside a [try] block. *)
Definition andThen {A B} (p : prog AuthE A) (q : prog AuthE B) : prog AuthE B :=
  bind p (fun _ => q).

(** The key [`forsee_role_${uid}`]. *)
Definition role_key (uid : jsstring) : jsstring := (js "forsee_role_" ++ uid)%list.

(** The listener given to [onAuthStateChanged], lines 249 to 263. *)
Definition authStateChanged (fbUser : option FirebaseUser) : prog AuthE unit :=
  andThen
    match fbUser with
    | Some fb =>
        let appUser := mapUser fb in
        andThen (perform (SetUser (Some appUser)))
          (bind (perform (GetItem (role_key (uid fb)))) (fun storedRole =>
             perform (SetUserRole (Some (or_else storedRole (js "viewer"))))))
    | None =>
        andThen (perform (SetUser None)) (perform (SetUserRole None))
    end
    (perform (SetIsLoading false)).

(** [login], lines 268 to 270. *)
Definition login (email password : jsstring) : prog AuthE (outcome unit) :=
  perform (SignInWithEmailAndPassword email password).

(** [signup], lines 272 to 278. *)
Definition signup (name email password : jsstring) : prog AuthE (outcome unit) :=
  userCredential <~ perform (CreateUserWithEmailAndPassword email password) ;;
  perform (UpdateProfile userCredential name).

(** [loginWithGoogle], lines 280 to 283. *)
Definition loginWithGoogle : prog AuthE (outcome unit) :=
  perform SignInWithPopup.

(** [logout], lines 285 to 289. *)
Definition logout : prog AuthE (outcome unit) :=
  perform SignOut ;;
  bind (perform (RemoveItem (js "forsee_role"))) done_with.

(** The functions below read [user] as it was at the render that made
    them: it is their first argument here. *)

(** [setRole], lines 291 to 296. *)
Definition setRole (user : option User) (role : UserRole) : prog AuthE unit :=
  andThen (perform (SetUserRole role))
    match user, role with
    | Some u, Some r =>
        if truthy role then perform (SetItem (role_key (id u)) r) else Ret tt
    | _, _ => Ret tt
    end.

(** [requestRole], lines 298 to 303, without its log line. *)
Definition requestRole (user : option User) (role : UserRole) : prog AuthE unit :=
  match user with
  | None => Ret tt
  | Some _ => perform (SetPendingRequest role)
  end.

(** [isAuthenticated: !!user], line 310. *)
Definition isAuthenticated (user : option User) : bool :=
  match user with
  | Some _ => true
  | None => false
  end.

(** What the identity provider answers to each call. *)
Record IdentityProvider : Type := mkIdentityProvider {
  sign_in : jsstring -> jsstring -> outcome unit;
  create_user : jsstring -> jsstring -> outcome FirebaseUser;
  update_profile : FirebaseUser -> jsstring -> outcome unit;
  sign_in_popup : outcome unit;
  sign_out : outcome unit
}.

(** The browser: the local storage, the four pieces of state of the
    provider (lines 234 to 237), and the identity provider behind it. *)
Record World : Type := mkWorld {
  localStorage : gmap jsstring jsstring;
  user : option User;
  userRole : UserRole;
  pendingRequest : UserRole;
  isLoading : bool;
  identity : IdentityProvider
}.

Definition browser : handler AuthE World :=
  fun X e w =>
    let '(mkWorld storage u role pending loading idp) := w in
    match e in AuthE X return X * World with
    | SignInWithEmailAndPassword email password => (sign_in idp email password, w)
    | CreateUserWithEmailAndPassword email password =>
        (create_user idp email password, w)
    | UpdateProfile fb shown => (update_profile idp fb shown, w)
    | SignInWithPopup => (sign_in_popup idp, w)
    | SignOut => (sign_out idp, w)
    | GetItem key => (storage !! key, w)
    | SetItem key value =>
        (tt, mkWorld (<[key := value]> storage) u role pending loading idp)
    | RemoveItem key => (tt, mkWorld (delete key storage) u role pending loading idp)
    | SetUser u' => (tt, mkWorld storage u' role pending loading idp)
    | SetUserRole role' => (tt, mkWorld storage u role' pending loading idp)
    | SetPendingRequest pending' => (tt, mkWorld storage u role pending' loading idp)
    | SetIsLoading loading' => (tt, mkWorld storage u role pending loading' idp)
    end.

(** The provider as it is mounted, lines 234 to 237: nobody signed in, no
    role, no request, loading. *)
Definition mounted (storage : gmap jsstring jsstring) (idp : IdentityProvider) : World :=
  mkWorld storage None None None true idp.

End Auth.

(** * Vocabulary of the properties *)

(** ** Values *)

Definition nullish (v : value) : bool :=
  match v with
  | VUndef | VNull => true
  | _ => false
  end.

(** A value that is no array and no object. *)
Definition primitive (v : value) : bool :=
  match v with
  | VArr _ | VObj _ => false
  | _ => true
  end.

(** [v] has a primitive value: ToPrimitive does not throw on it. *)
Definition convertible `{Engine} (v : value) : Prop :=
  ∃ p, ToPrimitive v = Returns p.

(** [v] has no own property [name]. *)
Definition lacks (v : value) (name : string) : Prop :=
  spread v !! js name = None.

(** [s] contains [pattern]. *)
Definition contains (s pattern : jsstring) : Prop :=
  ∃ before after, s = before ++ pattern ++ after.

(** A JSON text written with apostrophes in place of its double quotes. *)
Definition json_text (s : string) : jsstring :=
  map (fun c => if (c =? 39)%N then 34%N else c) (js s).

(** An engine that words its errors tersely. *)
Definition terse : Engine :=
  {| wording := fun e =>
       match e with
       | JsonSyntaxError _ => js "Unexpected token"
       | ReadOfNullish _ _ => js "Cannot read properties"
       | DestructureNullish _ => js "Cannot destructure"
       | NoPrimitiveValue _ => js "Cannot convert object to primitive value"
       | CircularStructure => js "Converting circular structure to JSON"
       | BigIntInJson => js "Do not know how to serialize a BigInt"
       end |}.

(** ** Invariants of the JSON lexer and parser *)

Module JsonInv.
Import Json.

Definition token_ok (t : token) : Prop :=
  match t with
  | TValue v => v ≠ VUndef
  | _ => True
  end.

Definition lex_state_ok (st : lex_state) : Prop :=
  match st with
  | LLiteral _ v => v ≠ VUndef
  | _ => True
  end.

Definition parse_state_ok (st : parse_state) : Prop :=
  match st with
  | PDone v => v ≠ VUndef
  | _ => True
  end.

End JsonInv.

(** ** The prediction gateway *)

Module PredictSpec.
Import Server.

#[local] Open Scope string_scope.

(** The four optional fields of a prediction. *)
Definition optional_fields : list string :=
  ["longTermProjection"; "simulation"; "failureCluster"; "dataDrift"].

(** The five points of the placeholder projection, given the health at
    cycles 25, 50, 75 and 100. *)
Definition projection (h25 h50 h75 h100 : value) : value :=
  VArr [
    object [("cycle", num 0); ("health", num 100)];
    object [("cycle", num 25); ("health", h25)];
    object [("cycle", num 50); ("health", h50)];
    object [("cycle", num 75); ("health", h75)];
    object [("cycle", num 100); ("health", h100)]].

Definition placeholder_simulation : value :=
  object [
    ("maintenanceNow", object [
       ("riskReduction", num 85); ("healthImprovement", num 15); ("cost", num 4500)]);
    ("maintenanceLater", object [
       ("riskReduction", num 10); ("healthImprovement", num 2); ("cost", num 28000)])].

Definition placeholder_cluster (failureMode : value) : value :=
  object [
    ("id", str "CL-GEN"); ("label", failureMode);
    ("description", str "AI Detected Pattern")].

Definition placeholder_drift (driftDetected : value) : value :=
  object [
    ("detected", driftDetected); ("severity", str "Medium");
    ("explanation", str "AI analysis of input distribution.")].

Section Policy.
Context `{Engine}.

(** The placeholder projection: health 100, healthIndex + 5, healthIndex,
    healthIndex - 10, healthIndex - 20, with the operators of
    JavaScript. *)
Definition placeholder_projection (healthIndex : value) : outcome value :=
  h25 ← js_add healthIndex (num 5);
  h75 ← js_sub healthIndex (num 10);
  h100 ← js_sub healthIndex (num 20);
  Returns (projection h25 healthIndex h75 h100).

(** The placeholder of an optional field for a parsed reply. *)
Definition placeholder (reply : value) (field : string) : outcome value :=
  if bool_decide (field = "longTermProjection")
  then placeholder_projection (own_property reply (js "healthIndex"))
  else if bool_decide (field = "simulation") then Returns placeholder_simulation
  else if bool_decide (field = "failureCluster")
  then Returns (placeholder_cluster (own_property reply (js "failureMode")))
  else Returns (placeholder_drift (own_property reply (js "driftDetected"))).

(** The value of an optional field in the response to a parsed reply: the
    reply's own if it is truthy, the placeholder otherwise. *)
Definition filled (reply : value) (field : string) : outcome value :=
  let given := own_property reply (js field) in
  if ToBoolean given then Returns given else placeholder reply field.

(** The response body for a parsed reply. *)
Definition completed (reply : value) : outcome value :=
  longTermProjection ← filled reply "longTermProjection";
  simulation ← filled reply "simulation";
  failureCluster ← filled reply "failureCluster";
  dataDrift ← filled reply "dataDrift";
  Returns (VObj (
    <[js "dataDrift" := dataDrift]> (
    <[js "failureCluster" := failureCluster]> (
    <[js "simulation" := simulation]> (
    <[js "longTermProjection" := longTermProjection]> (
    spread reply)))))).

End Policy.

(** The error envelope of the handler. *)
Definition failure (error : Error) : Response :=
  mkResponse 500 (object [
    ("error", str "Failed to generate prediction");
    ("details", message_value error);
    ("fallback", fallback)]).

Section Replies.
Context `{Engine} {W : Type} (h : handler ProviderE W).

(** In the world [w] the request [req_body] reaches the model, and the
    model replies with [text]: the request has a [systemInfo] whose [name]
    can be logged, and the two calls to the model return. *)
Definition replies (w : W) (req_body : value) (text : jsstring) : Prop :=
  nullish req_body = false ∧
  nullish (own_property req_body (js "systemInfo")) = false ∧
  (∃ name,
     ToString (own_property (own_property req_body (js "systemInfo")) (js "name"))
     = Returns name) ∧
  ∃ (r : handle) (w1 w2 : W),
    h _ (GenerateContent (own_property req_body (js "systemInfo"))
           (own_property req_body (js "inputs"))) w = (Returns r, w1) ∧
    h _ (ResponseText r) w1 = (Returns text, w2).

End Replies.

(** A model that answers every request with the text [reply]. *)
Definition answering (reply : jsstring) : handler ProviderE unit :=
  fun X e w =>
    match e in ProviderE X return X * unit with
    | GenerateContent _ _ => (Returns 0%nat, w)
    | StartChat _ _ => (Returns 1%nat, w)
    | SendMessage _ _ => (Returns 2%nat, w)
    | ResponseText _ => (Returns reply, w)
    end.

(** A request for the turbine of the default devices. *)
Definition turbine_request : value :=
  object [
    ("systemInfo", object [("name", str "Turbine A-11"); ("id", str "dev-01")]);
    ("inputs", object [("temperature", num 80)])].

(** Replies of the model: a prediction without the optional fields inside
    a code fence, one with all of them, one that has them with falsy
    values, one with a low health index, the JSON text [null], and
    prose. *)
Definition reply_plain : jsstring :=
  json_text "```json
{'healthIndex': 72, 'failureMode': 'Bearing wear', 'driftDetected': true}
```".

Definition parsed_plain : value :=
  object [
    ("healthIndex", num 72); ("failureMode", str "Bearing wear");
    ("driftDetected", VBool true)].

Definition reply_full : jsstring :=
  json_text "{'healthIndex': 120, 'riskLevel': 'UNHEARD', 'longTermProjection': [{'cycle': 0, 'health': 100}], 'simulation': {'maintenanceNow': {'cost': 1}}, 'failureCluster': {'id': 'CL-7'}, 'dataDrift': {'detected': false}}".

Definition parsed_full : value :=
  object [
    ("healthIndex", num 120); ("riskLevel", str "UNHEARD");
    ("longTermProjection", VArr [object [("cycle", num 0); ("health", num 100)]]);
    ("simulation", object [("maintenanceNow", object [("cost", num 1)])]);
    ("failureCluster", object [("id", str "CL-7")]);
    ("dataDrift", object [("detected", VBool false)])].

Definition reply_falsy : jsstring :=
  json_text "{'longTermProjection': [], 'simulation': null, 'failureCluster': 0, 'dataDrift': false, 'failureMode': 'Seal leak'}".

Definition parsed_falsy : value :=
  object [
    ("longTermProjection", VArr []); ("simulation", VNull);
    ("failureCluster", num 0); ("dataDrift", VBool false);
    ("failureMode", str "Seal leak")].

Definition reply_low : jsstring := json_text "{'healthIndex': 10}".

Definition reply_null : jsstring := js "null".

(** A reply whose projection and simulation are [null] and whose health
    index has no primitive value. *)
Definition reply_unfillable : jsstring :=
  json_text "{'longTermProjection': null, 'simulation': null, 'healthIndex': {'toString': 1}}".

Definition parsed_unfillable : value :=
  object [
    ("longTermProjection", VNull); ("simulation", VNull);
    ("healthIndex", object [("toString", num 1)])].

Definition reply_prose : jsstring := js "I cannot analyze this.".

End PredictSpec.

(** ** The chat gateway *)

Module ChatSpec.
Import Server.

#[local] Open Scope string_scope.

(** The message of the error contains [pattern]; an error without a
    message mentions nothing. *)
Definition mentions (error : Error) (pattern : string) : Prop :=
  ∃ s, message error = Some s ∧ contains s (js pattern).

(** The error response of the handler. *)
Definition failure (error : Error) : Response :=
  mkResponse 500 (object [
    ("error", str (errorMessage error)); ("details", message_value error)]).

(** A model whose every call throws [error]. *)
Definition refusing (error : Error) : handler ProviderE unit :=
  fun X e w =>
    match e in ProviderE X return X * unit with
    | GenerateContent _ _ => (Throws error, w)
    | StartChat _ _ => (Throws error, w)
    | SendMessage _ _ => (Throws error, w)
    | ResponseText _ => (Throws error, w)
    end.

(** An error as [new Error(text)] makes it. *)
Definition error_of (text : string) : Error := mkError (Some (js text)) [].

(** A model that answers every chat message with [reply]. *)
Definition chatting (reply : jsstring) : handler ProviderE unit :=
  fun X e w =>
    match e in ProviderE X return X * unit with
    | GenerateContent _ _ => (Returns 0%nat, w)
    | StartChat _ _ => (Returns 1%nat, w)
    | SendMessage _ _ => (Returns 2%nat, w)
    | ResponseText _ => (Returns reply, w)
    end.

Definition hello_with_empty_history : value :=
  object [("message", str "hello"); ("history", VArr [])].

Definition hello_without_history : value :=
  object [("message", str "hello")].

Definition invalid_key : Error :=
  error_of "API key not valid. Please pass a valid API key.".

Definition blocked : Error :=
  error_of "Candidate was blocked due to SAFETY".

Definition unreachable : Error := error_of "fetch failed".

(** The error of an HTTP client that keeps the request it comes from,
    which keeps the error in turn: a circular structure. *)
Definition circular_error : Error :=
  mkError (Some (js "API key not valid. Please pass a valid API key."))
    [(js "status", Plain (num 400));
     (js "request",
      Nested [(js "method", Plain (str "POST")); (js "error", Cycle)])].

(** A message without a primitive value: an object with an own property
    [toString], which is no function. *)
Definition unloggable : value := object [("toString", num 1)].

Definition unloggable_with_empty_history : value :=
  object [("message", unloggable); ("history", VArr [])].

End ChatSpec.

(** ** The asset directory *)

Module DashboardSpec.
Import Dashboard ChatSpec.

#[local] Open Scope string_scope.

(** The lower-cased type of an asset contains [word]; an asset without a
    type contains nothing. *)
Definition type_has (type : option jsstring) (word : string) : Prop :=
  contains (default [] (toLowerCase <$> type)) (js word).

(** The events that are calls of the assets resource. *)
Definition calls_backend (e : sigT DashE) : bool :=
  match projT2 e with
  | ApiGet _ | ApiPost _ _ | ApiDelete _ => true
  | LocalStorageGetItem _ | SetDevices _ => false
  end.

(** The body of the POST that [addDevice] sends for a device. *)
Definition creation (newDevice : NewDevice) : AssetCreate :=
  mkAssetCreate (new_name newDevice) (js "custom") (js "Added via Dashboard")
    (js "active").

(** A browser without a token, whose backend cannot be reached. *)
Definition signed_out : World :=
  mkWorld ∅ []
    (fun _ => Throws (error_of "Network Error"))
    (fun _ _ => Throws (error_of "Network Error"))
    (fun _ => Throws (error_of "Network Error")).

(** A signed-in browser showing the default devices; the backend answers
    or not. *)
Definition signed_in (reachable : bool) : World :=
  mkWorld {[ js "forsee_access_token" := js "token" ]} defaultDevices
    (fun _ => if reachable then Returns [] else Throws (error_of "Network Error"))
    (fun _ data =>
       if reachable then Returns (mkAsset (js "a-9") (create_name data) None)
       else Throws (error_of "Network Error"))
    (fun _ => if reachable then Returns tt else Throws (error_of "Network Error")).

Definition pump : NewDevice := mkNewDevice (js "new") (js "Pump P-3") None.

End DashboardSpec.

(** ** Code fences *)

Module CleanupSpec.

#[local] Open Scope string_scope.

(** The two markers that [cleanup] deletes. *)
Definition fence : jsstring := js "```".
Definition json_fence : jsstring := js "```json".

(** [s] neither starts nor ends with white space. *)
Definition trimmed (s : jsstring) : Prop :=
  (∀ c, head s = Some c -> is_js_space c = false) ∧
  (∀ c, last s = Some c -> is_js_space c = false).

(** What a model puts between the fences: a prediction on lines of its
    own. *)
Definition fenced_content : jsstring :=
  json_text "
{'healthIndex': 72}
".

End CleanupSpec.

(** ** Further requests and replies *)

Module GatewaySpec.
Import Server PredictSpec ChatSpec.

#[local] Open Scope string_scope.

(** A parsed reply that brings its own simulation and nothing else of the
    optional fields. *)
Definition parsed_partial : value :=
  object [
    ("healthIndex", num 72);
    ("simulation", object [("maintenanceNow", object [("cost", num 1)])])].

(** A request that names no system. *)
Definition bare_request : value :=
  object [("inputs", object [("temperature", num 80)])].

(** A chat request that comes with one earlier turn, one with the history
    [null]. *)
Definition earlier_turn : value :=
  object [("role", str "user"); ("parts", VArr [object [("text", str "hi")]])].

Definition hello_again : value :=
  object [("message", str "hello"); ("history", VArr [earlier_turn])].

Definition hello_with_null_history : value :=
  object [("message", str "hello"); ("history", VNull)].

End GatewaySpec.

(** ** The assets of a plant *)

Module FleetSpec.
Import Dashboard ChatSpec.

#[local] Open Scope string_scope.

(** The device that [fetchAssets] makes of an asset. *)
Definition device_of (asset : Asset) : Device :=
  mkDevice (asset_id asset) (asset_name asset)
    (getIconForAssetType (asset_type asset)).

(** The token of the session, as the local storage holds it. *)
Definition token (w : World) : option jsstring :=
  localStorage w !! js "forsee_access_token".

(** The world after a program has run. *)
Definition after (p : prog DashE unit) (w : World) : World :=
  snd (run browser p w).

(** Three assets of a plant: one without a type. *)
Definition fleet : list Asset := [
  mkAsset (js "a-1") (js "Compressor C-2") (Some (js "Control Cabinet"));
  mkAsset (js "a-2") (js "Line 4 HMI") (Some (js "Tablet"));
  mkAsset (js "a-3") (js "Spare") None
].

(** A signed-in browser whose backend serves the fleet, creates the asset
    "a-9" and deletes what it is asked to. *)
Definition plant : World :=
  mkWorld {[ js "forsee_access_token" := js "token" ]} []
    (fun _ => Returns fleet)
    (fun _ data => Returns (mkAsset (js "a-9") (create_name data) None))
    (fun _ => Returns tt).

(** A browser whose token is the empty string. *)
Definition blank_token : World :=
  mkWorld {[ js "forsee_access_token" := [] ]} []
    (fun _ => Returns fleet)
    (fun _ data => Returns (mkAsset (js "a-9") (create_name data) None))
    (fun _ => Returns tt).

(** A device that the caller numbers itself. *)
Definition pump_numbered : NewDevice :=
  mkNewDevice (js "my-own-id") (js "Pump P-3") (Some Cpu).

End FleetSpec.

(** ** The session *)

Module AuthSpec.
Import Auth ChatSpec.

#[local] Open Scope string_scope.

(** The world after a program has run. *)
Definition after {A} (p : prog AuthE A) (w : World) : World :=
  snd (run browser p w).

(** What can happen to the provider: the listener of the identity provider
    fires, or a consumer calls one of the functions of the context, as the
    last render made them. *)
Inductive action : Type :=
| AuthStateChanged (fbUser : option FirebaseUser)
| Login (email password : jsstring)
| Signup (name email password : jsstring)
| LoginWithGoogle
| Logout
| SetRole (role : UserRole)
| RequestRole (role : UserRole)
| SetUserTo (user : option User).

Definition act (w : World) (a : action) : World :=
  match a with
  | AuthStateChanged fbUser => after (authStateChanged fbUser) w
  | Login email password => after (login email password) w
  | Signup name email password => after (signup name email password) w
  | LoginWithGoogle => after loginWithGoogle w
  | Logout => after logout w
  | SetRole role => after (setRole (user w) role) w
  | RequestRole role => after (requestRole (user w) role) w
  | SetUserTo u => after (perform (SetUser u)) w
  end.

Definition acts (w : World) (steps : list action) : World :=
  fold_left act steps w.

(** The calls of [setRole] with a role to remember. *)
Definition names_a_role (a : action) : bool :=
  match a with
  | SetRole role => truthy role
  | _ => false
  end.

(** The steps that set the user or the role of the session: the listener
    and the two setters of the context. *)
Definition sets_session (a : action) : bool :=
  match a with
  | AuthStateChanged _ | SetRole _ | SetUserTo _ => true
  | _ => false
  end.

(** The role that the local storage holds for a user. *)
Definition stored_role (w : World) (uid : jsstring) : option jsstring :=
  localStorage w !! role_key uid.

(** An identity provider that accepts everything, one that is out of
    reach. *)
Definition ada : FirebaseUser :=
  mkFirebaseUser (js "u-1") None (Some (js "ada@example.com")) None.

Definition bob : FirebaseUser :=
  mkFirebaseUser (js "u-2") (Some (js "Bob")) (Some (js "bob@example.com"))
    (Some (js "/bob.png")).

Definition welcoming : IdentityProvider :=
  mkIdentityProvider
    (fun _ _ => Returns tt) (fun _ _ => Returns ada) (fun _ _ => Returns tt)
    (Returns tt) (Returns tt).

Definition unreachable_provider : IdentityProvider :=
  mkIdentityProvider
    (fun _ _ => Throws (error_of "auth/network-request-failed"))
    (fun _ _ => Throws (error_of "auth/network-request-failed"))
    (fun _ _ => Throws (error_of "auth/network-request-failed"))
    (Throws (error_of "auth/network-request-failed"))
    (Throws (error_of "auth/network-request-failed")).

(** Ada signed in on a browser that remembers nothing yet. *)
Definition ada_signed_in : World :=
  act (mounted ∅ welcoming) (AuthStateChanged (Some ada)).

End AuthSpec.
(** * Properties *)

(** ** Running programs *)

Section Run.
Context {E : Type -> Type} {W : Type} (h : handler E W).

Lemma run_bind {A B} (p : prog E A) (f : A -> prog E B) (w : W) :
  run h (bind p f) w = let '(a, w') := run h p w in run h (f a) w'.
Proof.
  revert w. induction p as [a | X e k IH]; intros w; simpl.
  - reflexivity.
  - destruct (h X e w) as [x w']. apply IH.
Qed.

Lemma run_perform {X} (e : E X) (w : W) : run h (perform e) w = h X e w.
Proof. simpl. destruct (h X e w); reflexivity. Qed.

Lemma run_and_then {A B} (p : prog E (outcome A)) (f : A -> prog E (outcome B)) w :
  run h (and_then p f) w =
  match run h p w with
  | (Returns a, w') => run h (f a) w'
  | (Throws e, w') => (Throws e, w')
  end.
Proof.
  unfold and_then. rewrite run_bind.
  destruct (run h p w) as [[a | e] w']; reflexivity.
Qed.

Lemma run_try_catch {A} (body : prog E (outcome A)) (handler : Error -> prog E A) w :
  run h (try_catch body handler) w =
  match run h body w with
  | (Returns a, w') => (a, w')
  | (Throws e, w') => run h (handler e) w'
  end.
Proof.
  unfold try_catch. rewrite run_bind.
  destruct (run h body w) as [[a | e] w']; reflexivity.
Qed.

Lemma run_eval {A} (o : outcome A) w : run h (eval o) w = (o, w).
Proof. reflexivity. Qed.

(** A run that keeps the events only adds to those it starts with. *)
Lemma logged_run {R} (p : prog E R) : forall (w : W) log,
  run (logged h) p (w, log) =
  (fst (run h p w), (snd (run h p w), log ++ events h p w)).
Proof.
  unfold events.
  induction p as [r | X e k IH]; intros w log; simpl.
  - by rewrite app_nil_r.
  - destruct (h X e w) as [x w'] eqn:Hstep.
    rewrite (IH x w' (log ++ [existT X e])), (IH x w' [existT X e]). simpl.
    by rewrite <- app_assoc.
Qed.

Lemma events_vis {R X} (e : E X) (k : X -> prog E R) (w : W) :
  events h (Vis e k) w =
  existT X e :: events h (k (fst (h X e w))) (snd (h X e w)).
Proof.
  unfold events at 1. simpl. destruct (h X e w) as [x w'] eqn:Hstep.
  rewrite logged_run. reflexivity.
Qed.

Lemma events_ret {R} (r : R) (w : W) : events h (Ret r) w = [].
Proof. reflexivity. Qed.

End Run.

(** ** The events of a run *)

Section Trace.
Context {E : Type -> Type} {W : Type} (h : handler E W).

Lemma events_bind {A B} (p : prog E A) (f : A -> prog E B) (w : W) :
  events h (bind p f) w =
  events h p w ++ events h (f (fst (run h p w))) (snd (run h p w)).
Proof.
  unfold events at 1. rewrite run_bind, logged_run. simpl.
  rewrite logged_run. reflexivity.
Qed.

Lemma events_perform {X} (e : E X) (w : W) :
  events h (perform e) w = [existT X e].
Proof. unfold perform. rewrite events_vis. reflexivity. Qed.

Lemma events_and_then {A B}
    (p : prog E (outcome A)) (f : A -> prog E (outcome B)) (w : W) :
  events h (and_then p f) w =
  events h p w ++
  match run h p w with
  | (Returns a, w') => events h (f a) w'
  | (Throws _, _) => []
  end.
Proof.
  unfold and_then. rewrite events_bind.
  destruct (run h p w) as [[a | e] w']; reflexivity.
Qed.

Lemma events_try_catch {A}
    (body : prog E (outcome A)) (handler : Error -> prog E A) (w : W) :
  events h (try_catch body handler) w =
  events h body w ++
  match run h body w with
  | (Returns _, _) => []
  | (Throws e, w') => events h (handler e) w'
  end.
Proof.
  unfold try_catch. rewrite events_bind.
  destruct (run h body w) as [[a | e] w']; reflexivity.
Qed.

Lemma events_eval {A} (o : outcome A) (w : W) : events h (eval o) w = [].
Proof. reflexivity. Qed.

Lemma run_try_catch_throwing {A}
    (body : prog E (outcome A)) (handler : Error -> prog E (outcome A)) w :
  run h (try_catch_throwing body handler) w =
  match run h body w with
  | (Returns a, w') => (Returns a, w')
  | (Throws e, w') => run h (handler e) w'
  end.
Proof.
  unfold try_catch_throwing. rewrite run_bind.
  destruct (run h body w) as [[a | e] w']; reflexivity.
Qed.

Lemma events_try_catch_throwing {A}
    (body : prog E (outcome A)) (handler : Error -> prog E (outcome A)) (w : W) :
  events h (try_catch_throwing body handler) w =
  events h body w ++
  match run h body w with
  | (Returns _, _) => []
  | (Throws e, w') => events h (handler e) w'
  end.
Proof.
  unfold try_catch_throwing. rewrite events_bind.
  destruct (run h body w) as [[a | e] w']; reflexivity.
Qed.

End Trace.

(** ** Reading members *)

Section Members.
Context `{Engine}.

Lemma get_member_defined (base : value) (name : string) :
  nullish base = false ->
  get_member base name = Returns (own_property base (js name)).
Proof. destruct base; simpl; intros; congruence. Qed.

Lemma get_member_nullish (base : value) (name : string) :
  nullish base = true ->
  get_member base name = Throws (raise (ReadOfNullish base (js name))).
Proof. destruct base; simpl; intros; congruence. Qed.

Lemma destructure_defined (source : value) :
  nullish source = false -> Server.destructure source = Returns source.
Proof. destruct source; simpl; intros; congruence. Qed.

End Members.

(** ** Numbers and their numerals *)

Module NumberFacts.

#[local] Open Scope string_scope.

(** Number::toString on some numbers: the shortest numeral that reads
    back, in positional notation up to 21 digits and down to six leading
    zeros, in exponent notation beyond. *)
Lemma Number_toString_samples :
  Number_toString (of_decimal false 1 (-1)) = js "0.1" ∧
  Number_toString (of_decimal false 1 (-1) + of_decimal false 2 (-1))%float
    = js "0.30000000000000004" ∧
  Number_toString (of_Z 72 + of_Z 5)%float = js "77" ∧
  Number_toString (of_Z 10 - of_Z 20)%float = js "-10" ∧
  Number_toString (of_decimal false 1 21) = js "1e+21" ∧
  Number_toString (of_decimal false 1 20) = js "100000000000000000000" ∧
  Number_toString (of_decimal false 1 (-6)) = js "0.000001" ∧
  Number_toString (of_decimal false 1 (-7)) = js "1e-7" ∧
  Number_toString (of_decimal false 12345678 (-4)) = js "1234.5678" ∧
  Number_toString (of_Z 9007199254740993) = js "9007199254740992" ∧
  Number_toString (of_decimal false 5 (-324)) = js "5e-324" ∧
  Number_toString (of_decimal false 17976931348623157 292)
    = js "1.7976931348623157e+308" ∧
  Number_toString (of_decimal false 1 400) = js "Infinity" ∧
  Number_toString neg_zero = js "0" ∧
  Number_toString nan = js "NaN".
Proof. split_and!; vm_compute; reflexivity. Qed.

(** StringToNumber on some strings. *)
Lemma StringToNumber_samples :
  StringToNumber (js "50") = of_Z 50 ∧
  StringToNumber (js " 12.5 ") = of_decimal false 125 (-1) ∧
  StringToNumber (js "") = zero ∧
  StringToNumber (js "-0") = neg_zero ∧
  StringToNumber (js "0x1F") = of_Z 31 ∧
  StringToNumber (js ".5e1") = of_Z 5 ∧
  StringToNumber (js "-Infinity") = neg_infinity ∧
  is_nan (StringToNumber (js "50%")) = true ∧
  is_nan (StringToNumber (js "1,5")) = true ∧
  is_nan (StringToNumber (js "[object Object]")) = true.
Proof. split_and!; vm_compute; reflexivity. Qed.

End NumberFacts.

(** ** [JSON.parse] never builds [undefined] *)

Module JsonFacts.
Import Json JsonInv.

Lemma lex_idle_ok c st toks :
  lex_idle c = Some (st, toks) -> lex_state_ok st ∧ Forall token_ok toks.
Proof.
  unfold lex_idle. intros Hstep.
  repeat case_match; simplify_eq; simpl; split;
    repeat constructor; simpl; congruence.
Qed.

Lemma lex_step_ok st c st' toks :
  lex_state_ok st -> lex_step st c = Some (st', toks) ->
  lex_state_ok st' ∧ Forall token_ok toks.
Proof.
  intros Hst Hstep. destruct st; simpl in Hstep.
  - eapply lex_idle_ok; eauto.
  - repeat case_match; simplify_eq; simpl; split; repeat constructor; done.
  - repeat case_match; simplify_option_eq; simpl; split; repeat constructor; done.
  - repeat case_match; simplify_option_eq; simpl; split; repeat constructor; done.
  - repeat case_match; simplify_eq; simpl in *; split; repeat constructor; done.
  - destruct (number_step ph n c) as [[ph' n']|].
    + simplify_eq. simpl. split; [done | constructor].
    + destruct (number_complete ph); [|done].
      destruct (lex_idle c) as [[st0 toks0]|] eqn:Hidle; simplify_option_eq.
      apply lex_idle_ok in Hidle as [? ?].
      split; [done|]. constructor; [simpl; unfold numeral_value; congruence | done].
Qed.

Lemma lex_from_ok text : forall st toks,
  lex_state_ok st -> lex_from st text = Some toks -> Forall token_ok toks.
Proof.
  induction text as [|c text IH]; intros st toks Hst Hlex; simpl in Hlex.
  - destruct st; simpl in Hlex; simplify_eq; try constructor.
    destruct (number_complete ph); simplify_eq.
    repeat constructor. simpl. unfold numeral_value. congruence.
  - destruct (lex_step st c) as [[st' toks']|] eqn:Hstep; simplify_option_eq.
    destruct (lex_from st' text) as [rest|] eqn:Hrest; simplify_option_eq.
    apply lex_step_ok in Hstep as [? ?]; [|done].
    apply Forall_app. split; [done|]. eapply IH; eauto.
Qed.

Lemma deliver_ok v stack : v ≠ VUndef -> parse_state_ok (deliver v stack).
Proof. intros Hv. destruct stack as [|[]]; simpl; done. Qed.

Lemma parse_value_ok stack t st :
  token_ok t -> parse_value stack t = Some st -> parse_state_ok st.
Proof.
  intros Ht Hstep. destruct t; simpl in *; simplify_eq;
    try apply deliver_ok; done.
Qed.

Lemma parse_step_ok st t st' :
  token_ok t -> parse_step st t = Some st' -> parse_state_ok st'.
Proof.
  intros Ht Hstep.
  destruct st; destruct t; simpl in *; simplify_eq; simpl;
    try done; apply deliver_ok; done.
Qed.

Lemma parse_from_ok toks : forall st v,
  parse_state_ok st -> Forall token_ok toks ->
  parse_from st toks = Some v -> v ≠ VUndef.
Proof.
  induction toks as [|t toks IH]; intros st v Hst Htoks Hparse; simpl in Hparse.
  - destruct st; simplify_eq. exact Hst.
  - destruct (parse_step st t) as [st'|] eqn:Hstep; simplify_option_eq.
    inversion Htoks; subst.
    eapply IH; [eapply parse_step_ok; eauto | done | done].
Qed.

(** A parsed text is never [undefined]. *)
Lemma parse_defined text v : parse text = Some v -> v ≠ VUndef.
Proof.
  unfold parse, lex. intros Hparse.
  destruct (lex_from LIdle text) as [toks|] eqn:Hlex; simplify_option_eq.
  eapply parse_from_ok; [| eapply lex_from_ok; [|eassumption] | eassumption];
    done.
Qed.

#[local] Open Scope string_scope.

(** What [JSON.parse] makes of some texts. *)
Lemma parse_samples :
  parse (json_text "{'a': [1, 2.5e1, -0], 'b': {'c': null}}") =
    Some (object [
      ("a", VArr [num 1; num 25; VNum (-0)]);
      ("b", object [("c", VNull)])]) ∧
  parse (json_text " [true, false, 'x\u0041\n'] ") =
    Some (VArr [VBool true; VBool false; VStr (js "xA" ++ [10%N])%list]) ∧
  parse (json_text "{'a': 1, 'a': 2}") = Some (object [("a", num 2)]) ∧
  parse (js "I cannot analyze this.") = None ∧
  parse (js "") = None ∧
  parse (js "[1,]") = None ∧
  parse (js "01") = None ∧
  parse (json_text "{'a': 1} x") = None ∧
  parse (json_text "{a: 1}") = None ∧
  parse (js "undefined") = None ∧
  parse (js "NaN") = None.
Proof. split_and!; vm_compute; reflexivity. Qed.

End JsonFacts.

(** ** The prediction gateway *)

Module PredictFacts.
Import Server PredictSpec.

#[local] Open Scope string_scope.

#[local] Arguments js : simpl never.
#[local] Arguments object : simpl never.
#[local] Arguments num : simpl never.
#[local] Arguments str : simpl never.
#[local] Arguments own_property : simpl never.
#[local] Arguments spread : simpl never.
#[local] Arguments js_add : simpl never.
#[local] Arguments js_sub : simpl never.
#[local] Arguments ToString : simpl never.

Ltac distinct_keys :=
  let Heq := fresh in intros Heq; vm_compute in Heq; discriminate Heq.

Ltac each_optional_field Hin :=
  unfold optional_fields in Hin;
  repeat (apply elem_of_cons in Hin as [-> | Hin]);
  [ .. | apply elem_of_nil in Hin; destruct Hin ].

(** ** Arithmetic on the health index *)

Section Arithmetic.
Context `{Engine}.

Lemma primitive_convertible (v : value) : primitive v = true -> convertible v.
Proof. intros Hprim. exists v. destruct v; done. Qed.

Lemma js_add_number (x : float) (n : Z) :
  js_add (VNum x) (num n) = Returns (VNum (x + of_Z n)%float).
Proof. reflexivity. Qed.

Lemma js_sub_number (x : float) (n : Z) :
  js_sub (VNum x) (num n) = Returns (VNum (x - of_Z n)%float).
Proof. reflexivity. Qed.

(** A health index with a primitive value can be added to and subtracted
    from. *)
Lemma js_add_convertible (v : value) (n : Z) :
  convertible v -> ∃ r, js_add v (num n) = Returns r.
Proof.
  intros [p Hp]. unfold js_add. rewrite Hp. simpl.
  destruct p; simpl; eauto.
Qed.

Lemma js_sub_convertible (v : value) (n : Z) :
  convertible v -> ∃ r, js_sub v (num n) = Returns r.
Proof.
  intros [p Hp]. unfold js_sub, ToNumber. rewrite Hp. simpl. eauto.
Qed.

Lemma placeholder_projection_convertible (healthIndex : value) :
  convertible healthIndex ->
  ∃ h25 h75 h100,
    js_add healthIndex (num 5) = Returns h25 ∧
    js_sub healthIndex (num 10) = Returns h75 ∧
    js_sub healthIndex (num 20) = Returns h100 ∧
    placeholder_projection healthIndex =
      Returns (projection h25 healthIndex h75 h100).
Proof.
  intros Hconv.
  destruct (js_add_convertible _ 5 Hconv) as [h25 H25].
  destruct (js_sub_convertible _ 10 Hconv) as [h75 H75].
  destruct (js_sub_convertible _ 20 Hconv) as [h100 H100].
  exists h25, h75, h100. unfold placeholder_projection.
  by rewrite H25, H75, H100.
Qed.

End Arithmetic.

(** ** The completed reply, field by field *)

Section Completion.
Context `{Engine}.

(** [enhancedPrediction] throws on [null], and otherwise fills each
    optional field on its own. *)
Lemma enhancedPrediction_completed (prediction : value) :
  nullish prediction = false ->
  enhancedPrediction prediction = completed prediction.
Proof.
  intros Hdef.
  unfold enhancedPrediction, completed, filled, placeholder,
    placeholder_projection, projection.
  rewrite !get_member_defined by done. simpl.
  repeat (match goal with |- context [ToBoolean ?v] => destruct (ToBoolean v) end;
          simpl).
  all: try reflexivity.
  all: destruct (js_add _ (num 5)); simpl; try reflexivity.
  all: destruct (js_sub _ (num 10)); simpl; try reflexivity.
  all: destruct (js_sub _ (num 20)); simpl; reflexivity.
Qed.

Lemma enhancedPrediction_null :
  enhancedPrediction VNull =
  Throws (raise (ReadOfNullish VNull (js "longTermProjection"))).
Proof. reflexivity. Qed.

Lemma completed_field (v body : value) (field : string) :
  completed v = Returns body ->
  field ∈ optional_fields ->
  ∃ x, filled v field = Returns x ∧ spread body !! js field = Some x.
Proof.
  unfold completed. intros Hbody Hin.
  destruct (filled v "longTermProjection") as [x1|] eqn:H1; [|discriminate Hbody].
  destruct (filled v "simulation") as [x2|] eqn:H2; [|discriminate Hbody].
  destruct (filled v "failureCluster") as [x3|] eqn:H3; [|discriminate Hbody].
  destruct (filled v "dataDrift") as [x4|] eqn:H4; [|discriminate Hbody].
  simpl in Hbody. injection Hbody as <-. unfold spread at 1.
  each_optional_field Hin.
  - exists x1. split; [done|].
    do 3 (rewrite lookup_insert_ne by distinct_keys). apply lookup_insert_eq.
  - exists x2. split; [done|].
    do 2 (rewrite lookup_insert_ne by distinct_keys). apply lookup_insert_eq.
  - exists x3. split; [done|].
    rewrite lookup_insert_ne by distinct_keys. apply lookup_insert_eq.
  - exists x4. split; [done|]. apply lookup_insert_eq.
Qed.

Lemma completed_other (v body : value) (key : jsstring) :
  completed v = Returns body ->
  key ∉ js <$> optional_fields ->
  spread body !! key = spread v !! key.
Proof.
  unfold completed. intros Hbody Hout.
  destruct (filled v "longTermProjection") as [x1|] eqn:H1; [|discriminate Hbody].
  destruct (filled v "simulation") as [x2|] eqn:H2; [|discriminate Hbody].
  destruct (filled v "failureCluster") as [x3|] eqn:H3; [|discriminate Hbody].
  destruct (filled v "dataDrift") as [x4|] eqn:H4; [|discriminate Hbody].
  simpl in Hbody. injection Hbody as <-. unfold spread at 1.
  rewrite !lookup_insert_ne; [reflexivity | ..];
    intros <-; apply Hout; unfold optional_fields; simpl;
    repeat constructor.
Qed.

(** An optional field that is no own property reads as [undefined]. *)
Lemma lacks_undefined (v : value) (field : string) :
  field ∈ optional_fields -> lacks v field ->
  own_property v (js field) = VUndef.
Proof.
  intros Hin Hlacks. unfold lacks in Hlacks.
  destruct v; try reflexivity.
  - each_optional_field Hin; reflexivity.
  - each_optional_field Hin; reflexivity.
  - unfold own_property. unfold spread in Hlacks. by rewrite Hlacks.
Qed.

Lemma lacks_filled (v : value) (field : string) :
  field ∈ optional_fields -> lacks v field ->
  filled v field = placeholder v field.
Proof.
  intros Hin Hlacks. unfold filled.
  by rewrite (lacks_undefined _ _ Hin Hlacks).
Qed.

(** The completed reply has a value as soon as its projection has one. *)
Lemma completed_returns (v projected : value) :
  filled v "longTermProjection" = Returns projected ->
  ∃ body, completed v = Returns body.
Proof.
  intros Hprojected. unfold completed. rewrite Hprojected. simpl.
  unfold filled, placeholder. simpl.
  repeat (match goal with |- context [ToBoolean ?v] => destruct (ToBoolean v) end;
          simpl).
  all: eauto.
Qed.

End Completion.

Section Reply.
Context `{Engine} {W : Type} (h : handler ProviderE W).

(** Once the model has replied, the response is decided by the reply
    alone: it is parsed and completed, and whatever is thrown on the way
    becomes the error envelope. *)
Lemma predict_reply (w : W) (req_body : value) (text : jsstring) :
  replies h w req_body text ->
  result h (predict req_body) w =
  match JSON_parse (cleanup text) ≫= enhancedPrediction with
  | Returns enhanced => res_json enhanced
  | Throws error => failure error
  end.
Proof.
  intros (Hreq & Hinfo & (name & Hname) & r & w1 & w2 & Hgen & Htext).
  unfold result, predict, predict_try.
  rewrite run_try_catch, run_and_then, run_eval, destructure_defined by done.
  rewrite run_and_then, run_eval, get_member_defined by done.
  rewrite run_and_then, run_eval, Hname.
  rewrite run_and_then, run_perform, Hgen.
  rewrite run_and_then, run_perform, Htext.
  rewrite run_and_then, run_eval.
  destruct (JSON_parse (cleanup text)) as [prediction | e]; [|reflexivity].
  rewrite run_and_then, run_eval. simpl.
  destruct (enhancedPrediction prediction); reflexivity.
Qed.

Lemma predict_parsed (w : W) (req_body : value) (text : jsstring) (v : value) :
  replies h w req_body text ->
  Json.parse (cleanup text) = Some v ->
  v ≠ VNull ->
  result h (predict req_body) w =
  match completed v with
  | Returns body => res_json body
  | Throws error => failure error
  end.
Proof.
  intros Hreply Hparse Hnull.
  rewrite (predict_reply _ _ _ Hreply). unfold JSON_parse. rewrite Hparse.
  simpl. rewrite enhancedPrediction_completed; [reflexivity|].
  apply JsonFacts.parse_defined in Hparse. destruct v; done.
Qed.

Lemma predict_unparsed (w : W) (req_body : value) (text : jsstring) :
  replies h w req_body text ->
  Json.parse (cleanup text) = None ->
  result h (predict req_body) w =
  failure (raise (JsonSyntaxError (cleanup text))).
Proof.
  intros Hreply Hparse.
  rewrite (predict_reply _ _ _ Hreply). unfold JSON_parse. rewrite Hparse.
  reflexivity.
Qed.

(** The handler answers with the error envelope, or with the completed
    reply of the model. *)
Lemma predict_cases (w : W) (req_body : value) :
  (∃ error, result h (predict req_body) w = failure error) ∨
  (∃ text v body,
     replies h w req_body text ∧ Json.parse (cleanup text) = Some v ∧
     completed v = Returns body ∧
     result h (predict req_body) w = res_json body).
Proof.
  destruct (nullish req_body) eqn:Hreq.
  { left. destruct req_body; try discriminate; eexists; reflexivity. }
  destruct (nullish (own_property req_body (js "systemInfo"))) eqn:Hinfo.
  { left. unfold result, predict, predict_try.
    rewrite run_try_catch, run_and_then, run_eval, destructure_defined by done.
    rewrite run_and_then, run_eval, get_member_nullish by done.
    eexists; reflexivity. }
  destruct (ToString (own_property (own_property req_body (js "systemInfo"))
                        (js "name"))) as [name | e] eqn:Hname.
  2: { left. unfold result, predict, predict_try.
       rewrite run_try_catch, run_and_then, run_eval, destructure_defined by done.
       rewrite run_and_then, run_eval, get_member_defined by done.
       rewrite run_and_then, run_eval, Hname.
       eexists; reflexivity. }
  destruct (h _ (GenerateContent (own_property req_body (js "systemInfo"))
                   (own_property req_body (js "inputs"))) w)
    as [[r | e] w1] eqn:Hgen.
  2: { left. unfold result, predict, predict_try.
       rewrite run_try_catch, run_and_then, run_eval, destructure_defined by done.
       rewrite run_and_then, run_eval, get_member_defined by done.
       rewrite run_and_then, run_eval, Hname.
       rewrite run_and_then, run_perform, Hgen.
       eexists; reflexivity. }
  destruct (h _ (ResponseText r) w1) as [[text | e] w2] eqn:Htext.
  2: { left. unfold result, predict, predict_try.
       rewrite run_try_catch, run_and_then, run_eval, destructure_defined by done.
       rewrite run_and_then, run_eval, get_member_defined by done.
       rewrite run_and_then, run_eval, Hname.
       rewrite run_and_then, run_perform, Hgen.
       rewrite run_and_then, run_perform, Htext.
       eexists; reflexivity. }
  assert (replies h w req_body text) as Hreply.
  { split; [done|]. split; [done|]. split; eauto. }
  destruct (Json.parse (cleanup text)) as [v|] eqn:Hparse.
  - assert (v = VNull ∨ v ≠ VNull) as [-> | Hnull]
      by (destruct v; (by left) || (by right)).
    + left. rewrite (predict_reply _ _ _ Hreply). unfold JSON_parse.
      rewrite Hparse. eexists; reflexivity.
    + rewrite (predict_parsed _ _ text v) by done.
      destruct (completed v) as [body | e] eqn:Hbody.
      * right. exists text, v, body. done.
      * left. eexists; reflexivity.
  - left. rewrite (predict_unparsed _ _ _ Hreply Hparse). eexists; reflexivity.
Qed.

End Reply.

Section Claims.
Context `{Engine} {W : Type} (h : handler ProviderE W).

(** C1 (as amended).  For every model reply that parses, after the
    code-fence cleanup, to a JSON value other than [null], has none of the
    four optional fields, and whose healthIndex has a primitive value,
    predict answers 200 with the reply's own properties and exactly the
    four placeholders: the five-point projection at cycles 0, 25, 50, 75,
    100 with health 100, healthIndex + 5, healthIndex, healthIndex - 10,
    healthIndex - 20 (the values of these JavaScript expressions: binary64
    arithmetic when healthIndex is a number), the two fixed simulation
    blocks, the cluster labelled with the reply's failureMode and the drift
    object carrying the reply's driftDetected. *)
Theorem missing_fields_get_placeholders
    (w : W) (req_body : value) (text : jsstring) (v : value) :
  replies h w req_body text ->
  Json.parse (cleanup text) = Some v ->
  v ≠ VNull ->
  (∀ field, field ∈ optional_fields -> lacks v field) ->
  convertible (own_property v (js "healthIndex")) ->
  let healthIndex := own_property v (js "healthIndex") in
  ∃ h25 h75 h100,
    js_add healthIndex (num 5) = Returns h25 ∧
    js_sub healthIndex (num 10) = Returns h75 ∧
    js_sub healthIndex (num 20) = Returns h100 ∧
    (∀ x, healthIndex = VNum x ->
       h25 = VNum (x + 5)%float ∧ h75 = VNum (x - 10)%float ∧
       h100 = VNum (x - 20)%float) ∧
    result h (predict req_body) w =
      mkResponse 200 (VObj (
        <[js "dataDrift" := object [
            ("detected", own_property v (js "driftDetected"));
            ("severity", str "Medium");
            ("explanation", str "AI analysis of input distribution.")]]> (
        <[js "failureCluster" := object [
            ("id", str "CL-GEN");
            ("label", own_property v (js "failureMode"));
            ("description", str "AI Detected Pattern")]]> (
        <[js "simulation" := object [
            ("maintenanceNow", object [
               ("riskReduction", num 85); ("healthImprovement", num 15);
               ("cost", num 4500)]);
            ("maintenanceLater", object [
               ("riskReduction", num 10); ("healthImprovement", num 2);
               ("cost", num 28000)])]]> (
        <[js "longTermProjection" := VArr [
            object [("cycle", num 0); ("health", num 100)];
            object [("cycle", num 25); ("health", h25)];
            object [("cycle", num 50); ("health", healthIndex)];
            object [("cycle", num 75); ("health", h75)];
            object [("cycle", num 100); ("health", h100)]]]> (
        spread v)))))).
Proof.
  intros Hreply Hparse Hnull Hlacks Hconv healthIndex.
  destruct (placeholder_projection_convertible _ Hconv)
    as (h25 & h75 & h100 & H25 & H75 & H100 & Hprojection).
  exists h25, h75, h100. split; [done|]. split; [done|]. split; [done|].
  split.
  - intros x Hx. subst healthIndex. rewrite Hx in H25, H75, H100.
    rewrite js_add_number in H25. rewrite js_sub_number in H75, H100.
    injection H25 as <-. injection H75 as <-. injection H100 as <-. done.
  - rewrite (predict_parsed _ _ _ _ _ Hreply Hparse Hnull).
    unfold completed.
    rewrite !lacks_filled by (try apply Hlacks; repeat constructor).
    unfold placeholder. simpl. fold healthIndex in Hprojection.
    subst healthIndex. rewrite Hprojection. reflexivity.
Qed.

(** C2 (as amended).  For every model reply that parses to a JSON object
    whose four optional fields are all present with truthy values, predict
    answers 200 with the parsed reply itself: the four fields and every
    other field are the reply's, nothing is merged, overridden, clamped or
    checked. *)
Theorem truthy_fields_pass_through
    (w : W) (req_body : value) (text : jsstring) (m : gmap jsstring value) :
  replies h w req_body text ->
  Json.parse (cleanup text) = Some (VObj m) ->
  (∀ field, field ∈ optional_fields ->
     ∃ given, m !! js field = Some given ∧ ToBoolean given = true) ->
  result h (predict req_body) w = mkResponse 200 (VObj m).
Proof.
  intros Hreply Hparse Hgiven.
  rewrite (predict_parsed _ _ _ _ _ Hreply Hparse) by done.
  assert (∀ field, field ∈ optional_fields ->
            ∃ given, m !! js field = Some given ∧
                     filled (VObj m) field = Returns given) as Hsame.
  { intros field Hin. destruct (Hgiven field Hin) as (given & Hlook & Htruthy).
    exists given. split; [done|].
    unfold filled, own_property. rewrite Hlook. simpl. by rewrite Htruthy. }
  unfold completed.
  destruct (Hsame "longTermProjection") as (x1 & Hm1 & ->); [repeat constructor|].
  destruct (Hsame "simulation") as (x2 & Hm2 & ->); [repeat constructor|].
  destruct (Hsame "failureCluster") as (x3 & Hm3 & ->); [repeat constructor|].
  destruct (Hsame "dataDrift") as (x4 & Hm4 & ->); [repeat constructor|].
  simpl. unfold res_json, spread. do 2 f_equal.
  rewrite (insert_id m (js "longTermProjection")) by done.
  rewrite (insert_id m (js "simulation")) by done.
  rewrite (insert_id m (js "failureCluster")) by done.
  by apply insert_id.
Qed.

(** C3.  For every model reply whose text, after the code-fence cleanup, is
    not JSON, predict answers 500 with the envelope of error, details (the
    message of the SyntaxError) and the fixed fallback object; and a
    response with status 200 is never the fallback object: its body is the
    completed reply of the model. *)
Theorem unparsable_reply_gives_error_envelope (w : W) (req_body : value) :
  (∀ text,
     replies h w req_body text ->
     Json.parse (cleanup text) = None ->
     result h (predict req_body) w =
       mkResponse 500 (object [
         ("error", str "Failed to generate prediction");
         ("details", VStr (wording (JsonSyntaxError (cleanup text))));
         ("fallback", object [
            ("healthIndex", num 50); ("riskLevel", str "MEDIUM");
            ("action", str "System Error - Check Backend Logs")])])) ∧
  (status (result h (predict req_body) w) = 200 ->
     body (result h (predict req_body) w) ≠ fallback ∧
     ∃ text v,
       replies h w req_body text ∧ Json.parse (cleanup text) = Some v ∧
       completed v = Returns (body (result h (predict req_body) w))).
Proof.
  split.
  - intros text Hreply Hparse.
    rewrite (predict_unparsed _ _ _ _ Hreply Hparse). reflexivity.
  - intros Hstatus.
    destruct (predict_cases h w req_body)
      as [[error Hfail] | (text & v & enhanced & Hreply & Hparse & Hbody & Hok)].
    + rewrite Hfail in Hstatus. discriminate Hstatus.
    + rewrite Hok. simpl. split; [|eauto].
      intros Heq.
      destruct (completed_field _ _ "dataDrift" Hbody) as (x & _ & Hx);
        [repeat constructor|].
      rewrite Heq in Hx. vm_compute in Hx. discriminate Hx.
Qed.

(** C4.  A reply without the optional fields whose healthIndex is a
    number gets the projection with health 100, healthIndex + 5,
    healthIndex, healthIndex - 10, healthIndex - 20 in binary64
    arithmetic, none of them clamped to the range from 0 to 100; when
    healthIndex is an integer from 0 to 19 (10, say), the health at cycle
    100 is negative. *)
Theorem projection_leaves_health_range
    (w : W) (req_body : value) (text : jsstring) (m : gmap jsstring value)
    (x : float) :
  replies h w req_body text ->
  Json.parse (cleanup text) = Some (VObj m) ->
  (∀ field, field ∈ optional_fields -> lacks (VObj m) field) ->
  m !! js "healthIndex" = Some (VNum x) ->
  status (result h (predict req_body) w) = 200 ∧
  spread (body (result h (predict req_body) w)) !! js "longTermProjection" =
    Some (VArr [
      object [("cycle", num 0); ("health", num 100)];
      object [("cycle", num 25); ("health", VNum (x + 5)%float)];
      object [("cycle", num 50); ("health", VNum x)];
      object [("cycle", num 75); ("health", VNum (x - 10)%float)];
      object [("cycle", num 100); ("health", VNum (x - 20)%float)]]) ∧
  (∀ n, 0 <= n < 20 -> x = of_Z n -> (x - 20 <? 0)%float = true).
Proof.
  intros Hreply Hparse Hlacks Hhealth.
  assert (filled (VObj m) "longTermProjection" =
          Returns (projection (VNum (x + 5)%float) (VNum x)
                     (VNum (x - 10)%float) (VNum (x - 20)%float)))
    as Hprojected.
  { rewrite lacks_filled by (try apply Hlacks; repeat constructor).
    unfold placeholder. simpl. unfold own_property. rewrite Hhealth. simpl.
    unfold placeholder_projection.
    by rewrite js_add_number, !js_sub_number. }
  destruct (completed_returns _ _ Hprojected) as [enhanced Hbody].
  rewrite (predict_parsed _ _ _ _ _ Hreply Hparse) by done.
  rewrite Hbody. simpl. split; [done|]. split.
  - destruct (completed_field _ _ "longTermProjection" Hbody) as (y & Hy & ->);
      [repeat constructor|].
    rewrite Hprojected in Hy. by injection Hy as <-.
  - intros n Hn ->. replace n with (Z.of_nat (Z.to_nat n)) by lia.
    assert (Z.to_nat n < 20)%nat as Hk by lia.
    revert Hk. generalize (Z.to_nat n). intros k Hk.
    do 20 (destruct k as [|k]; [vm_compute; reflexivity|]).
    lia.
Qed.

(** C9 (as amended).  The default-filling tests each optional field by
    truthiness, not by presence: for every model reply that parses to an
    object in which an optional field is present with a falsy value
    ([null], [false], [0], the empty string), and that has a truthy
    longTermProjection or a health index with a primitive value (every
    number, string, boolean and [null] has one, and an absent health index
    too), the response is 200 and carries the placeholder of that field in
    its place.  A reply with neither is answered with status 500, the
    placeholder projection having no value. *)
Theorem falsy_field_is_replaced
    (w : W) (req_body : value) (text : jsstring) (m : gmap jsstring value)
    (field : string) (given : value) :
  replies h w req_body text ->
  Json.parse (cleanup text) = Some (VObj m) ->
  field ∈ optional_fields ->
  m !! js field = Some given ->
  ToBoolean given = false ->
  (ToBoolean (own_property (VObj m) (js "longTermProjection")) = true ∨
   convertible (own_property (VObj m) (js "healthIndex")) ->
   status (result h (predict req_body) w) = 200 ∧
   ∃ p,
     placeholder (VObj m) field = Returns p ∧
     spread (body (result h (predict req_body) w)) !! js field = Some p) ∧
  (ToBoolean (own_property (VObj m) (js "longTermProjection")) = false ->
   ¬ convertible (own_property (VObj m) (js "healthIndex")) ->
   status (result h (predict req_body) w) = 500 ∧
   spread (body (result h (predict req_body) w)) !! js field = None).
Proof.
  intros Hreply Hparse Hin Hlook Hfalsy.
  rewrite (predict_parsed _ _ _ _ _ Hreply Hparse) by done.
  split.
  - intros Hfills.
    assert (∃ projected,
              filled (VObj m) "longTermProjection" = Returns projected)
      as [projected Hprojected].
    { unfold filled.
      destruct (ToBoolean (own_property (VObj m) (js "longTermProjection")));
        [eauto|].
      destruct Hfills as [Hgiven | Hconv]; [discriminate Hgiven|].
      unfold placeholder. simpl.
      destruct (placeholder_projection_convertible _ Hconv)
        as (h25 & h75 & h100 & _ & _ & _ & ->). eauto. }
    destruct (completed_returns _ _ Hprojected) as [enhanced Hbody].
    rewrite Hbody. simpl. split; [done|].
    destruct (completed_field _ _ field Hbody Hin) as (x & Hx & Hfield).
    exists x. split; [|done].
    unfold filled, own_property in Hx. rewrite Hlook in Hx. simpl in Hx.
    by rewrite Hfalsy in Hx.
  - intros Hnone Hconv.
    assert (∃ error, filled (VObj m) "longTermProjection" = Throws error)
      as [error Hthrows].
    { unfold filled. cbv zeta. rewrite Hnone.
      unfold placeholder, placeholder_projection. simpl.
      destruct (ToPrimitive (own_property (VObj m) (js "healthIndex")))
        as [p | error] eqn:Hprim; [destruct Hconv; by exists p|].
      exists error. unfold js_add. by rewrite Hprim. }
    unfold completed. rewrite Hthrows. simpl.
    split; [reflexivity|].
    each_optional_field Hin; vm_compute; reflexivity.
Qed.

End Claims.

(** ** The properties at sample replies *)

Ltac sample_reply :=
  split; [reflexivity|]; split; [vm_compute; reflexivity|];
  split; [eexists; vm_compute; reflexivity|];
  exists 0%nat, tt, tt; split; reflexivity.

Ltac sample_lacks :=
  let field := fresh "field" in
  let Hin := fresh "Hin" in
  intros field Hin; each_optional_field Hin; vm_compute; reflexivity.

Lemma missing_fields_get_placeholders_witness :
  replies (H := terse) (answering reply_plain) tt turbine_request reply_plain ∧
  Json.parse (cleanup reply_plain) = Some parsed_plain ∧
  parsed_plain ≠ VNull ∧
  (∀ field, field ∈ optional_fields -> lacks parsed_plain field) ∧
  convertible (H := terse) (own_property parsed_plain (js "healthIndex")) ∧
  status (result (answering reply_plain) (predict (H := terse) turbine_request) tt)
    = 200 ∧
  spread (body (result (answering reply_plain)
                  (predict (H := terse) turbine_request) tt))
    !! js "longTermProjection" =
    Some (projection (num 77) (num 72) (num 62) (num 52)).
Proof.
  assert (replies (H := terse) (answering reply_plain) tt turbine_request
            reply_plain) as Hreply by sample_reply.
  assert (Json.parse (cleanup reply_plain) = Some parsed_plain)
    as Hparse by (vm_compute; reflexivity).
  assert (parsed_plain ≠ VNull) as Hnull by discriminate.
  assert (∀ field, field ∈ optional_fields -> lacks parsed_plain field)
    as Hlacks by sample_lacks.
  assert (convertible (H := terse) (own_property parsed_plain (js "healthIndex")))
    as Hconv by (eexists; vm_compute; reflexivity).
  destruct (missing_fields_get_placeholders (H := terse)
              (answering reply_plain) tt turbine_request reply_plain
              parsed_plain Hreply Hparse Hnull Hlacks Hconv)
    as (h25 & h75 & h100 & H25 & H75 & H100 & _ & Hresult).
  vm_compute in H25. injection H25 as <-.
  vm_compute in H75. injection H75 as <-.
  vm_compute in H100. injection H100 as <-.
  refine (conj Hreply (conj Hparse (conj Hnull (conj Hlacks (conj Hconv
            (conj _ _))))));
    rewrite Hresult; vm_compute; reflexivity.
Defined.

(** The claim C1 as stated fails at the reply [null]: it is JSON, it has
    none of the optional fields, and predict answers 500 with the error
    envelope, the read of [longTermProjection] having thrown. *)
Lemma null_reply_gets_no_placeholders :
  replies (H := terse) (answering reply_null) tt turbine_request reply_null ∧
  Json.parse (cleanup reply_null) = Some VNull ∧
  (∀ field, field ∈ optional_fields -> lacks VNull field) ∧
  result (answering reply_null) (predict (H := terse) turbine_request) tt =
    mkResponse 500 (object [
      ("error", str "Failed to generate prediction");
      ("details", str "Cannot read properties");
      ("fallback", fallback)]).
Proof.
  split; [sample_reply|]. split; [vm_compute; reflexivity|].
  split; [sample_lacks|]. vm_compute; reflexivity.
Qed.

(** A health index without a primitive value: an object with an own
    property [toString], which is no function.  Adding 5 to it throws, and
    predict answers 500. *)
Lemma health_without_primitive_value_fails :
  let reply := json_text "{'healthIndex': {'toString': 1}}" in
  Json.parse (cleanup reply) =
    Some (object [("healthIndex", object [("toString", num 1)])]) ∧
  result (answering reply) (predict (H := terse) turbine_request) tt =
    mkResponse 500 (object [
      ("error", str "Failed to generate prediction");
      ("details", str "Cannot convert object to primitive value");
      ("fallback", fallback)]).
Proof. split; vm_compute; reflexivity. Qed.

Lemma truthy_fields_pass_through_witness :
  replies (H := terse) (answering reply_full) tt turbine_request reply_full ∧
  Json.parse (cleanup reply_full) = Some parsed_full ∧
  (∀ field, field ∈ optional_fields ->
     ∃ given, spread parsed_full !! js field = Some given ∧
              ToBoolean given = true) ∧
  result (answering reply_full) (predict (H := terse) turbine_request) tt =
    mkResponse 200 parsed_full.
Proof.
  assert (replies (H := terse) (answering reply_full) tt turbine_request
            reply_full) as Hreply by sample_reply.
  assert (Json.parse (cleanup reply_full) = Some (VObj (spread parsed_full)))
    as Hparse by (vm_compute; reflexivity).
  assert (∀ field, field ∈ optional_fields ->
            ∃ given, spread parsed_full !! js field = Some given ∧
                     ToBoolean given = true) as Hgiven.
  { intros field Hin. each_optional_field Hin;
      eexists; (split; [vm_compute; reflexivity | reflexivity]). }
  exact (conj Hreply (conj Hparse (conj Hgiven
    (truthy_fields_pass_through (H := terse) (answering reply_full) tt
       turbine_request reply_full (spread parsed_full) Hreply Hparse Hgiven)))).
Defined.

(** The claim C2 as stated fails at a reply that includes the four fields
    with falsy values: its [simulation] is [null], and the response carries
    the placeholder instead. *)
Lemma present_falsy_field_is_not_passed_through :
  replies (H := terse) (answering reply_falsy) tt turbine_request reply_falsy ∧
  Json.parse (cleanup reply_falsy) = Some parsed_falsy ∧
  (∀ field, field ∈ optional_fields ->
     is_Some (spread parsed_falsy !! js field)) ∧
  spread parsed_falsy !! js "simulation" = Some VNull ∧
  status (result (answering reply_falsy) (predict (H := terse) turbine_request) tt)
    = 200 ∧
  spread (body (result (answering reply_falsy)
                  (predict (H := terse) turbine_request) tt))
    !! js "simulation" = Some placeholder_simulation ∧
  placeholder_simulation ≠ VNull.
Proof.
  split; [sample_reply|]. split; [vm_compute; reflexivity|].
  split.
  { intros field Hin. each_optional_field Hin; eexists; vm_compute; reflexivity. }
  split; [vm_compute; reflexivity|]. split; [vm_compute; reflexivity|].
  split; [vm_compute; reflexivity|]. discriminate.
Qed.

Lemma unparsable_reply_gives_error_envelope_witness :
  (replies (H := terse) (answering reply_prose) tt turbine_request reply_prose ∧
   Json.parse (cleanup reply_prose) = None ∧
   result (answering reply_prose) (predict (H := terse) turbine_request) tt =
     mkResponse 500 (object [
       ("error", str "Failed to generate prediction");
       ("details", str "Unexpected token");
       ("fallback", object [
          ("healthIndex", num 50); ("riskLevel", str "MEDIUM");
          ("action", str "System Error - Check Backend Logs")])])) ∧
  (status (result (answering reply_plain) (predict (H := terse) turbine_request) tt)
     = 200 ∧
   body (result (answering reply_plain) (predict (H := terse) turbine_request) tt)
     ≠ fallback).
Proof.
  assert (replies (H := terse) (answering reply_prose) tt turbine_request
            reply_prose) as Hreply by sample_reply.
  assert (Json.parse (cleanup reply_prose) = None)
    as Hparse by (vm_compute; reflexivity).
  assert (status (result (answering reply_plain)
                    (predict (H := terse) turbine_request) tt) = 200)
    as Hstatus by (vm_compute; reflexivity).
  exact (conj
    (conj Hreply (conj Hparse
       (proj1 (unparsable_reply_gives_error_envelope (H := terse)
                 (answering reply_prose) tt turbine_request)
          reply_prose Hreply Hparse)))
    (conj Hstatus
       (proj1 (proj2 (unparsable_reply_gives_error_envelope (H := terse)
                        (answering reply_plain) tt turbine_request)
                 Hstatus)))).
Defined.

Lemma projection_leaves_health_range_witness :
  replies (H := terse) (answering reply_low) tt turbine_request reply_low ∧
  Json.parse (cleanup reply_low) = Some (object [("healthIndex", num 10)]) ∧
  (∀ field, field ∈ optional_fields ->
     lacks (object [("healthIndex", num 10)]) field) ∧
  status (result (answering reply_low) (predict (H := terse) turbine_request) tt)
    = 200 ∧
  spread (body (result (answering reply_low)
                  (predict (H := terse) turbine_request) tt))
    !! js "longTermProjection" =
    Some (VArr [
      object [("cycle", num 0); ("health", num 100)];
      object [("cycle", num 25); ("health", num 15)];
      object [("cycle", num 50); ("health", num 10)];
      object [("cycle", num 75); ("health", num 0)];
      object [("cycle", num 100); ("health", num (-10))]]) ∧
  (of_Z 10 - 20 <? 0)%float = true.
Proof.
  pose (m := spread (object [("healthIndex", num 10)])).
  assert (replies (H := terse) (answering reply_low) tt turbine_request
            reply_low) as Hreply by sample_reply.
  assert (Json.parse (cleanup reply_low) = Some (VObj m))
    as Hparse by (vm_compute; reflexivity).
  assert (∀ field, field ∈ optional_fields -> lacks (VObj m) field)
    as Hlacks by sample_lacks.
  assert (m !! js "healthIndex" = Some (VNum (of_Z 10)))
    as Hhealth by (vm_compute; reflexivity).
  destruct (projection_leaves_health_range (H := terse) (answering reply_low) tt
              turbine_request reply_low m (of_Z 10) Hreply Hparse Hlacks Hhealth)
    as (Hstatus & Hprojection & Hnegative).
  refine (conj Hreply (conj Hparse (conj Hlacks (conj Hstatus (conj _
            (Hnegative 10 ltac:(split; [discriminate | reflexivity]) eq_refl)))))).
  rewrite Hprojection. vm_compute. reflexivity.
Defined.

Lemma falsy_field_is_replaced_witness :
  replies (H := terse) (answering reply_falsy) tt turbine_request reply_falsy ∧
  Json.parse (cleanup reply_falsy) = Some parsed_falsy ∧
  spread parsed_falsy !! js "simulation" = Some VNull ∧
  spread parsed_falsy !! js "dataDrift" = Some (VBool false) ∧
  spread parsed_falsy !! js "failureCluster" = Some (num 0) ∧
  convertible (H := terse) (own_property parsed_falsy (js "healthIndex")) ∧
  let response :=
    result (answering reply_falsy) (predict (H := terse) turbine_request) tt in
  status response = 200 ∧
  spread (body response) !! js "simulation" = Some placeholder_simulation ∧
  spread (body response) !! js "dataDrift" = Some (placeholder_drift VUndef) ∧
  spread (body response) !! js "failureCluster" =
    Some (placeholder_cluster (str "Seal leak")).
Proof.
  pose (m := spread parsed_falsy).
  assert (replies (H := terse) (answering reply_falsy) tt turbine_request
            reply_falsy) as Hreply by sample_reply.
  assert (Json.parse (cleanup reply_falsy) = Some (VObj m))
    as Hparse by (vm_compute; reflexivity).
  assert (convertible (H := terse) (own_property (VObj m) (js "healthIndex")))
    as Hconv by (eexists; vm_compute; reflexivity).
  destruct (proj1 (falsy_field_is_replaced (H := terse) (answering reply_falsy)
              tt turbine_request reply_falsy m "simulation" VNull Hreply Hparse
              ltac:(repeat constructor)
              ltac:(vm_compute; reflexivity) eq_refl) (or_intror Hconv))
    as (Hstatus & p1 & Hp1 & Hb1).
  destruct (proj1 (falsy_field_is_replaced (H := terse) (answering reply_falsy)
              tt turbine_request reply_falsy m "dataDrift" (VBool false) Hreply
              Hparse ltac:(repeat constructor)
              ltac:(vm_compute; reflexivity) eq_refl) (or_intror Hconv))
    as (_ & p2 & Hp2 & Hb2).
  destruct (proj1 (falsy_field_is_replaced (H := terse) (answering reply_falsy)
              tt turbine_request reply_falsy m "failureCluster" (num 0) Hreply
              Hparse ltac:(repeat constructor)
              ltac:(vm_compute; reflexivity) eq_refl) (or_intror Hconv))
    as (_ & p3 & Hp3 & Hb3).
  vm_compute in Hp1. injection Hp1 as <-.
  vm_compute in Hp2. injection Hp2 as <-.
  vm_compute in Hp3. injection Hp3 as <-.
  refine (conj Hreply (conj Hparse _)).
  split; [vm_compute; reflexivity|]. split; [vm_compute; reflexivity|].
  split; [vm_compute; reflexivity|]. split; [exact Hconv|].
  refine (conj Hstatus (conj _ (conj _ _)));
    [rewrite Hb1 | rewrite Hb2 | rewrite Hb3]; vm_compute; reflexivity.
Defined.

(** The claim C9 as stated fails at a reply whose [simulation] is present
    and [null], whose projection is [null] too and whose health index has
    no primitive value: the placeholder projection cannot be computed, and
    the answer is the error envelope with nothing replaced. *)
Lemma falsy_field_of_unfillable_reply_is_not_replaced :
  replies (H := terse) (answering reply_unfillable) tt turbine_request
    reply_unfillable ∧
  Json.parse (cleanup reply_unfillable) = Some parsed_unfillable ∧
  spread parsed_unfillable !! js "simulation" = Some VNull ∧
  ToBoolean VNull = false ∧
  result (answering reply_unfillable) (predict (H := terse) turbine_request) tt =
    mkResponse 500 (object [
      ("error", str "Failed to generate prediction");
      ("details", str "Cannot convert object to primitive value");
      ("fallback", fallback)]) ∧
  spread (body (result (answering reply_unfillable)
                  (predict (H := terse) turbine_request) tt))
    !! js "simulation" = None.
Proof.
  split; [sample_reply|]. split_and!; vm_compute; reflexivity.
Qed.

End PredictFacts.

(** ** Substrings *)

Module StringFacts.

Lemma startsWith_prefix (pat s : jsstring) :
  startsWith pat s = true <-> ∃ after, s = pat ++ after.
Proof.
  revert s. induction pat as [|p pat IH]; intros s; simpl.
  - split; [intros _; by exists s | done].
  - destruct s as [|c s]; simpl.
    + split; [done | intros [after Heq]; discriminate Heq].
    + unfold unit_eqb. rewrite andb_true_iff, N.eqb_eq, IH. split.
      * intros [-> [after ->]]. by exists after.
      * intros [after Heq]. injection Heq as -> ->. eauto.
Qed.

(** [includes] decides [contains]. *)
Lemma includes_contains (s pat : jsstring) :
  includes s pat = true <-> contains s pat.
Proof.
  unfold contains. induction s as [|c s IH].
  - simpl. rewrite orb_false_r, startsWith_prefix. split.
    + intros [after Heq]. by exists [], after.
    + intros (before & after & Heq). destruct before; [|discriminate Heq].
      by exists after.
  - cbn [includes]. rewrite orb_true_iff, startsWith_prefix, IH. split.
    + intros [[after Heq] | (before & after & Heq)].
      * by exists [], after.
      * exists (c :: before), after. by rewrite Heq.
    + intros (before & after & Heq). destruct before as [|b before].
      * left. by exists after.
      * right. injection Heq as -> ->. eauto.
Qed.

Lemma not_includes_contains (s pat : jsstring) :
  includes s pat = false <-> ¬ contains s pat.
Proof.
  rewrite <- includes_contains. destruct (includes s pat); split; done.
Qed.

End StringFacts.

(** ** The chat gateway *)

Module ChatFacts.
Import Server ChatSpec.

#[local] Open Scope string_scope.

#[local] Arguments js : simpl never.
#[local] Arguments object : simpl never.
#[local] Arguments str : simpl never.
#[local] Arguments own_property : simpl never.
#[local] Arguments js_or : simpl never.
#[local] Arguments ToString : simpl never.

Lemma message_includes_mentions (error : Error) (pattern : string) :
  message_includes error pattern = true <-> mentions error pattern.
Proof.
  unfold message_includes, mentions. destruct (message error) as [s|].
  - rewrite StringFacts.includes_contains. split; [eauto|].
    by intros (s' & [= <-] & Hs).
  - split; [done | by intros (s' & [=] & _)].
Qed.

Lemma message_excludes_mentions (error : Error) (pattern : string) :
  message_includes error pattern = false <-> ¬ mentions error pattern.
Proof.
  rewrite <- message_includes_mentions.
  destruct (message_includes error pattern); split; done.
Qed.

Section Calls.
Context `{Engine} {W : Type} (h : handler ProviderE W).

(** The run of the [try] block, call by call. *)
Lemma chat_try_run (w : W) (req_body : value) :
  run h (chat_try req_body) w =
  match destructure req_body with
  | Throws e => (Throws e, w)
  | Returns source =>
      let message := own_property source (js "message") in
      let history := own_property source (js "history") in
      match ToString message ≫= λ _,
            ToString (get_member_optional history "length") with
      | Throws e => (Throws e, w)
      | Returns _ =>
          match h _ (StartChat (js_or history (VArr [])) 1000) w with
          | (Throws e, w1) => (Throws e, w1)
          | (Returns session, w1) =>
              match h _ (SendMessage session message) w1 with
              | (Throws e, w2) => (Throws e, w2)
              | (Returns r, w2) =>
                  match h _ (ResponseText r) w2 with
                  | (Throws e, w3) => (Throws e, w3)
                  | (Returns text, w3) =>
                      (Returns (res_json (object [("response", VStr text)])), w3)
                  end
              end
          end
      end
  end.
Proof.
  unfold chat_try. rewrite run_and_then, run_eval.
  destruct (destructure req_body) as [source | e]; [|reflexivity]. cbv zeta.
  rewrite run_and_then, run_eval.
  destruct (ToString (own_property source (js "message")))
    as [shown | e]; [|reflexivity]. simpl.
  rewrite run_and_then, run_eval.
  destruct (ToString (get_member_optional _ "length"))
    as [length_shown | e]; [|reflexivity].
  rewrite run_and_then, run_perform.
  destruct (h _ (StartChat _ 1000) w) as [[session | e] w1]; [|reflexivity].
  rewrite run_and_then, run_perform.
  destruct (h _ (SendMessage session _) w1) as [[r | e] w2]; [|reflexivity].
  rewrite run_and_then, run_perform.
  destruct (h _ (ResponseText r) w2) as [[text | e] w3]; reflexivity.
Qed.

(** The [catch] block calls nothing. *)
Lemma chat_catch_run (w : W) (error : Error) :
  run h (chat_catch error) w =
  (match JSON_stringify_thrown error with
   | Returns _ => Returns (failure error)
   | Throws thrown => Throws thrown
   end, w).
Proof.
  unfold chat_catch. rewrite run_and_then, run_eval.
  destruct (JSON_stringify_thrown error); reflexivity.
Qed.

Lemma chat_catch_events (w : W) (error : Error) :
  events h (chat_catch error) w = [].
Proof.
  unfold chat_catch. rewrite events_and_then, events_eval, run_eval.
  destruct (JSON_stringify_thrown error); reflexivity.
Qed.

(** The events of the handler: those of its [try] block. *)
Lemma chat_events (w : W) (req_body : value) :
  events h (chat req_body) w =
  match destructure req_body with
  | Throws e => []
  | Returns source =>
      let message := own_property source (js "message") in
      let history := own_property source (js "history") in
      match ToString message ≫= λ _,
            ToString (get_member_optional history "length") with
      | Throws e => []
      | Returns _ =>
          existT _ (StartChat (js_or history (VArr [])) 1000) ::
          match h _ (StartChat (js_or history (VArr [])) 1000) w with
          | (Throws e, w1) => []
          | (Returns session, w1) =>
              existT _ (SendMessage session message) ::
              match h _ (SendMessage session message) w1 with
              | (Throws e, w2) => []
              | (Returns r, w2) => [existT _ (ResponseText r)]
              end
          end
      end
  end.
Proof.
  unfold chat. rewrite events_try_catch_throwing.
  match goal with
  | |- (_ ++ ?caught)%list = _ =>
      assert (caught = []) as ->
        by (destruct (run h (chat_try req_body) w) as [[? | ?] ?];
            [reflexivity | apply chat_catch_events])
  end.
  rewrite app_nil_r.
  unfold chat_try. rewrite events_and_then, events_eval, run_eval.
  destruct (destructure req_body) as [source | e]; [|reflexivity]. cbv zeta.
  rewrite events_and_then, events_eval, run_eval.
  destruct (ToString (own_property source (js "message")))
    as [shown | e]; [|reflexivity]. simpl.
  rewrite events_and_then, events_eval, run_eval.
  destruct (ToString (get_member_optional _ "length"))
    as [length_shown | e]; [|reflexivity]. simpl.
  rewrite events_and_then, events_perform, run_perform. simpl. f_equal.
  destruct (h _ (StartChat _ 1000) w) as [[session | e] w1]; [|reflexivity].
  rewrite events_and_then, events_perform, run_perform. simpl. f_equal.
  destruct (h _ (SendMessage session _) w1) as [[r | e] w2]; [|reflexivity].
  rewrite events_and_then, events_perform, run_perform. simpl. f_equal.
  destruct (h _ (ResponseText r) w2) as [[text | e] w3]; reflexivity.
Qed.

(** The handler sends what its [try] block sends, or what its [catch]
    block makes of the error, unless that block throws. *)
Lemma result_chat (w : W) (req_body : value) :
  result h (chat req_body) w =
  match result h (chat_try req_body) w with
  | Returns response => Returns response
  | Throws error =>
      match JSON_stringify_thrown error with
      | Returns _ => Returns (failure error)
      | Throws thrown => Throws thrown
      end
  end.
Proof.
  unfold result, chat. rewrite run_try_catch_throwing.
  destruct (run h (chat_try req_body) w) as [[response | error] w'];
    [reflexivity|].
  rewrite chat_catch_run. reflexivity.
Qed.

(** Every failing chat call (the [try] block throws [error]) whose error
    [JSON.stringify] can write is answered with status 500, the raw message
    of the error in [details], and an [error] that is "Invalid API Key"
    when the message contains 'API key', otherwise "Response blocked by
    safety filters" when it contains 'SAFETY', and the generic "Failed to
    process chat message" otherwise. *)
Lemma chat_failures_are_classified (w : W) (req_body : value) (error : Error) :
  result h (chat_try req_body) w = Throws error ->
  JSON_stringify_thrown error = Returns tt ->
  ∃ label : string,
    result h (chat req_body) w =
      Returns (mkResponse 500 (object [
        ("error", str label); ("details", message_value error)])) ∧
    (mentions error "API key" -> label = "Invalid API Key") ∧
    (¬ mentions error "API key" -> mentions error "SAFETY" ->
       label = "Response blocked by safety filters") ∧
    (¬ mentions error "API key" -> ¬ mentions error "SAFETY" ->
       label = "Failed to process chat message").
Proof.
  intros Hfails Hwritten. exists (errorMessage error). split.
  - by rewrite result_chat, Hfails, Hwritten.
  - unfold errorMessage.
    destruct (message_includes error "API key") eqn:Hkey;
      [apply message_includes_mentions in Hkey
      | apply message_excludes_mentions in Hkey];
    (destruct (message_includes error "SAFETY") eqn:Hsafety;
      [apply message_includes_mentions in Hsafety
      | apply message_excludes_mentions in Hsafety]);
    repeat split; intros; done.
Qed.

(** A failing chat call whose error [JSON.stringify] cannot write is not
    answered: the [catch] block throws at its first log line. *)
Lemma unwritable_failure_is_not_answered
    (w : W) (req_body : value) (error thrown : Error) :
  result h (chat_try req_body) w = Throws error ->
  JSON_stringify_thrown error = Throws thrown ->
  result h (chat req_body) w = Throws thrown.
Proof. intros Hfails Hthrown. by rewrite result_chat, Hfails, Hthrown. Qed.

(** C6 (as amended).  A chat call whose body has the history [[]] or no
    history, and a message that the log line can write (one that ToString
    converts: a string, a number, a boolean, [null], [undefined], a plain
    object without a [toString] of its own, say), does not fail for want of
    a history: the session is opened with the empty history, the message is
    sent to it as soon as it is open, and when the model answers the
    response is 200 with the text of the answer. *)
Theorem empty_history_is_dispatched
    (w : W) (req_body : value) (shown : jsstring) :
  let message := own_property req_body (js "message") in
  let history := own_property req_body (js "history") in
  nullish req_body = false ->
  history = VArr [] ∨ history = VUndef ->
  ToString message = Returns shown ->
  (∃ rest,
     events h (chat req_body) w = existT _ (StartChat (VArr []) 1000) :: rest) ∧
  (∀ session w1,
     h _ (StartChat (VArr []) 1000) w = (Returns session, w1) ->
     (∃ rest,
        events h (chat req_body) w =
        existT _ (StartChat (VArr []) 1000) ::
        existT _ (SendMessage session message) :: rest) ∧
     (∀ r w2 text w3,
        h _ (SendMessage session message) w1 = (Returns r, w2) ->
        h _ (ResponseText r) w2 = (Returns text, w3) ->
        result h (chat req_body) w =
        Returns (mkResponse 200 (object [("response", VStr text)])))).
Proof.
  cbv zeta. intros Hreq Hhistory Hshown.
  assert (js_or (own_property req_body (js "history")) (VArr []) = VArr [])
    as Hfresh by (destruct Hhistory as [-> | ->]; reflexivity).
  assert (∃ length_shown,
            ToString (get_member_optional (own_property req_body (js "history"))
                        "length") = Returns length_shown)
    as [length_shown Hlength]
    by (destruct Hhistory as [-> | ->]; eexists; vm_compute; reflexivity).
  rewrite chat_events, result_chat. unfold result. rewrite chat_try_run.
  rewrite destructure_defined by done. cbv zeta.
  rewrite Hshown. simpl. rewrite Hlength, Hfresh. split; [eauto|].
  intros session w1 Hstart. rewrite Hstart. split; [eauto|].
  intros r w2 text w3 Hsend Htext. by rewrite Hsend, Htext.
Qed.

End Calls.

(** ** The properties at sample calls *)

Lemma chat_failures_are_classified_sample :
  result (refusing invalid_key) (chat_try (H := terse) hello_with_empty_history) tt
    = Throws invalid_key ∧
  mentions invalid_key "API key" ∧
  result (refusing invalid_key) (chat (H := terse) hello_with_empty_history) tt =
    Returns (mkResponse 500 (object [
      ("error", str "Invalid API Key");
      ("details", str "API key not valid. Please pass a valid API key.")])).
Proof.
  assert (result (refusing invalid_key)
            (chat_try (H := terse) hello_with_empty_history) tt
          = Throws invalid_key) as Hfails by (vm_compute; reflexivity).
  assert (mentions invalid_key "API key") as Hkey
    by (apply message_includes_mentions; vm_compute; reflexivity).
  destruct (chat_failures_are_classified (H := terse) (refusing invalid_key) tt
              hello_with_empty_history invalid_key Hfails eq_refl)
    as (label & Hresult & Hlabel & _).
  rewrite (Hlabel Hkey) in Hresult.
  exact (conj Hfails (conj Hkey Hresult)).
Qed.

Lemma blocked_and_unreachable_are_classified :
  result (refusing blocked) (chat (H := terse) hello_with_empty_history) tt =
    Returns (mkResponse 500 (object [
      ("error", str "Response blocked by safety filters");
      ("details", str "Candidate was blocked due to SAFETY")])) ∧
  result (refusing unreachable) (chat (H := terse) hello_with_empty_history) tt =
    Returns (mkResponse 500 (object [
      ("error", str "Failed to process chat message");
      ("details", str "fetch failed")])).
Proof. split; vm_compute; reflexivity. Qed.

(** C5.  The claim has every failing chat call answered with status 500,
    the classified [error] and the raw [details].  The [catch] block does
    so for every error that [JSON.stringify] can write, and means to for
    all; but its first log line (line 166) evaluates
    [JSON.stringify(error, null, 2)] before the response is sent.  At an
    error that is a circular structure (here the error of an HTTP client
    whose request refers back to it, with a message about the API key) that
    line throws, and the handler ends without any response where the claim
    has a 500 with "Invalid API Key".  The same error with no enumerable
    property is answered as the claim says, and so is the circular one by
    the handler of [/api/predict], whose log line does not serialise. *)
Theorem circular_error_gets_no_response :
  result (refusing circular_error)
    (chat_try (H := terse) hello_with_empty_history) tt
    = Throws circular_error ∧
  mentions circular_error "API key" ∧
  result (refusing circular_error) (chat (H := terse) hello_with_empty_history) tt
    = Throws (raise (H := terse) CircularStructure) ∧
  result (refusing invalid_key) (chat (H := terse) hello_with_empty_history) tt
    = Returns (mkResponse 500 (object [
        ("error", str "Invalid API Key");
        ("details", str "API key not valid. Please pass a valid API key.")])) ∧
  result (refusing circular_error)
    (predict (H := terse) PredictSpec.turbine_request) tt
    = mkResponse 500 (object [
        ("error", str "Failed to generate prediction");
        ("details", str "API key not valid. Please pass a valid API key.");
        ("fallback", fallback)]).
Proof.
  split_and!; try (vm_compute; reflexivity).
  apply message_includes_mentions. vm_compute. reflexivity.
Qed.

Lemma empty_history_is_dispatched_witness :
  (∃ rest,
     events (chatting (js "Hi")) (chat (H := terse) hello_with_empty_history) tt
     = existT _ (StartChat (VArr []) 1000) ::
       existT _ (SendMessage 1%nat (str "hello")) :: rest) ∧
  result (chatting (js "Hi")) (chat (H := terse) hello_with_empty_history) tt =
    Returns (mkResponse 200 (object [("response", str "Hi")])) ∧
  (∃ rest,
     events (chatting (js "Hi")) (chat (H := terse) hello_without_history) tt
     = existT _ (StartChat (VArr []) 1000) ::
       existT _ (SendMessage 1%nat (str "hello")) :: rest) ∧
  result (chatting (js "Hi")) (chat (H := terse) hello_without_history) tt =
    Returns (mkResponse 200 (object [("response", str "Hi")])).
Proof.
  destruct (empty_history_is_dispatched (H := terse) (chatting (js "Hi")) tt
              hello_with_empty_history (js "hello") eq_refl
              (or_introl eq_refl) ltac:(vm_compute; reflexivity))
    as [_ Hwith].
  destruct (empty_history_is_dispatched (H := terse) (chatting (js "Hi")) tt
              hello_without_history (js "hello") eq_refl
              (or_intror eq_refl) ltac:(vm_compute; reflexivity))
    as [_ Hwithout].
  destruct (Hwith 1%nat tt eq_refl) as [Hevents1 Hresult1].
  destruct (Hwithout 1%nat tt eq_refl) as [Hevents2 Hresult2].
  exact (conj Hevents1 (conj (Hresult1 2%nat tt (js "Hi") tt eq_refl eq_refl)
    (conj Hevents2 (Hresult2 2%nat tt (js "Hi") tt eq_refl eq_refl)))).
Defined.

(** The claim C6 as stated, for any message, fails at a message that the
    log line cannot write: with the history [[]] the handler throws at line
    148, before the session is opened; nothing is dispatched, and the
    answer is 500. *)
Lemma unloggable_message_is_not_dispatched :
  own_property unloggable_with_empty_history (js "history") = VArr [] ∧
  own_property unloggable_with_empty_history (js "message") = unloggable ∧
  events (chatting (js "Hi"))
    (chat (H := terse) unloggable_with_empty_history) tt = [] ∧
  result (chatting (js "Hi"))
    (chat (H := terse) unloggable_with_empty_history) tt =
    Returns (mkResponse 500 (object [
      ("error", str "Failed to process chat message");
      ("details", str "Cannot convert object to primitive value")])).
Proof. split_and!; vm_compute; reflexivity. Qed.

End ChatFacts.

(** ** The asset directory *)

Module DashboardFacts.
Import Dashboard ChatSpec DashboardSpec.

#[local] Open Scope string_scope.
#[local] Arguments js : simpl never.

Lemma includes_type_has (type : option jsstring) (word : string) :
  includes (default [] (toLowerCase <$> type)) (js word) = true <->
  type_has type word.
Proof. apply StringFacts.includes_contains. Qed.

Lemma excludes_type_has (type : option jsstring) (word : string) :
  includes (default [] (toLowerCase <$> type)) (js word) = false <->
  ¬ type_has type word.
Proof. apply StringFacts.not_includes_contains. Qed.

(** A word in any casing inside the type is found. *)
Lemma type_has_any_case (before u after : jsstring) (word : string) :
  toLowerCase u = js word ->
  type_has (Some (before ++ u ++ after)%list) word.
Proof.
  intros Hlower. unfold type_has, contains. simpl.
  exists (toLowerCase before), (toLowerCase after).
  rewrite <- Hlower. unfold toLowerCase. by rewrite !flat_map_app.
Qed.

(** C7.  When the local storage holds no auth token, [fetchAssets] sets
    the devices to the four defaults, named "Turbine A-11", "Gen. Control",
    "Field Tablet", "Engine Monitor" in this order, without calling the
    assets resource. *)
Theorem no_token_gives_default_devices (w : World) :
  localStorage w !! js "forsee_access_token" = None ->
  devices_after fetchAssets w = defaultDevices ∧
  map name (devices_after fetchAssets w) =
    [js "Turbine A-11"; js "Gen. Control"; js "Field Tablet"; js "Engine Monitor"] ∧
  forallb (λ e, negb (calls_backend e)) (events browser fetchAssets w) = true.
Proof.
  intros Htoken. split_and!.
  2: assert (devices_after fetchAssets w = defaultDevices) as ->; [|done].
  1, 2: unfold devices_after, fetchAssets;
    rewrite run_try_catch, run_and_then, run_bind, run_perform; simpl;
    rewrite Htoken; reflexivity.
  unfold events, fetchAssets.
  rewrite run_try_catch, run_and_then, run_bind, run_perform. simpl.
  rewrite Htoken. reflexivity.
Qed.

(** C8.  The icon of an asset follows from its type by case-insensitive
    substring matching, the first match deciding: 'turbine' gives Monitor,
    'control' Cpu, 'tablet' or 'mobile' Smartphone, 'monitor' or 'computer'
    Laptop, and any other type, a missing one included, Activity. *)
Theorem icon_follows_the_type (type : option jsstring) :
  (type_has type "turbine" -> getIconForAssetType type = Monitor) ∧
  (¬ type_has type "turbine" -> type_has type "control" ->
     getIconForAssetType type = Cpu) ∧
  (¬ type_has type "turbine" -> ¬ type_has type "control" ->
     type_has type "tablet" ∨ type_has type "mobile" ->
     getIconForAssetType type = Smartphone) ∧
  (¬ type_has type "turbine" -> ¬ type_has type "control" ->
     ¬ type_has type "tablet" -> ¬ type_has type "mobile" ->
     type_has type "monitor" ∨ type_has type "computer" ->
     getIconForAssetType type = Laptop) ∧
  (¬ type_has type "turbine" -> ¬ type_has type "control" ->
     ¬ type_has type "tablet" -> ¬ type_has type "mobile" ->
     ¬ type_has type "monitor" -> ¬ type_has type "computer" ->
     getIconForAssetType type = Activity) ∧
  (type = None -> getIconForAssetType type = Activity).
Proof.
  assert (getIconForAssetType type =
    let lowerType := default [] (toLowerCase <$> type) in
    if includes lowerType (js "turbine") then Monitor
    else if includes lowerType (js "control") then Cpu
    else if includes lowerType (js "tablet") || includes lowerType (js "mobile")
    then Smartphone
    else if includes lowerType (js "monitor") || includes lowerType (js "computer")
    then Laptop
    else Activity) as Hicon by (destruct type; reflexivity).
  split_and!; [.. | intros ->; reflexivity];
    rewrite Hicon; cbv zeta;
    destruct (includes (default [] (toLowerCase <$> type)) (js "turbine")) eqn:Hturbine;
    destruct (includes (default [] (toLowerCase <$> type)) (js "control")) eqn:Hcontrol;
    destruct (includes (default [] (toLowerCase <$> type)) (js "tablet")) eqn:Htablet;
    destruct (includes (default [] (toLowerCase <$> type)) (js "mobile")) eqn:Hmobile;
    destruct (includes (default [] (toLowerCase <$> type)) (js "monitor")) eqn:Hmonitor;
    destruct (includes (default [] (toLowerCase <$> type)) (js "computer")) eqn:Hcomputer;
    rewrite ?includes_type_has, ?excludes_type_has in *;
    simpl; tauto.
Qed.

(** C10.  [removeDevice] changes the device list only when the DELETE
    succeeds, and then it drops the devices of that id; when the DELETE
    fails the list is as before.  Likewise [addDevice] leaves the list as
    it is when the POST fails. *)
Theorem device_list_changes_only_on_success
    (w : World) (id' : jsstring) (newDevice : NewDevice) :
  (∀ error,
     api_delete w (js "/assets/" ++ id')%list = Throws error ->
     devices_after (removeDevice id') w = devices w) ∧
  (api_delete w (js "/assets/" ++ id')%list = Returns tt ->
     devices_after (removeDevice id') w = filter (λ d, id d ≠ id') (devices w) ∧
     Forall (λ d, id d ≠ id') (devices_after (removeDevice id') w)) ∧
  (devices_after (removeDevice id') w ≠ devices w ->
     api_delete w (js "/assets/" ++ id')%list = Returns tt) ∧
  (∀ error,
     api_post w (js "/assets/") (creation newDevice) = Throws error ->
     devices_after (addDevice newDevice) w = devices w).
Proof.
  assert (devices_after (removeDevice id') w =
          match api_delete w (js "/assets/" ++ id')%list with
          | Returns _ => filter (λ d, id d ≠ id') (devices w)
          | Throws _ => devices w
          end) as Hremove.
  { unfold devices_after, removeDevice.
    rewrite run_try_catch, run_and_then, run_perform. simpl.
    destruct (api_delete w _); reflexivity. }
  split_and!.
  - intros error Hfail. by rewrite Hremove, Hfail.
  - intros Hok. rewrite Hremove, Hok. split; [done|].
    apply Forall_forall. intros d Hd. by apply list_elem_of_filter in Hd as [? _].
  - intros Hchanged. rewrite Hremove in Hchanged.
    destruct (api_delete w _) as [[] | error]; done.
  - intros error Hfail. unfold devices_after, addDevice.
    rewrite run_try_catch, run_and_then, run_perform. simpl.
    unfold creation in Hfail. by rewrite Hfail.
Qed.

(** ** The properties at sample worlds *)

Lemma no_token_gives_default_devices_witness :
  localStorage signed_out !! js "forsee_access_token" = None ∧
  devices signed_out = [] ∧
  devices_after fetchAssets signed_out = defaultDevices ∧
  map name (devices_after fetchAssets signed_out) =
    [js "Turbine A-11"; js "Gen. Control"; js "Field Tablet"; js "Engine Monitor"] ∧
  forallb (λ e, negb (calls_backend e)) (events browser fetchAssets signed_out)
    = true.
Proof.
  exact (conj eq_refl (conj eq_refl
           (no_token_gives_default_devices signed_out eq_refl))).
Defined.

Lemma icon_follows_the_type_witness :
  (type_has (Some (js "Gas TURBINE #3")) "turbine" ∧
   getIconForAssetType (Some (js "Gas TURBINE #3")) = Monitor) ∧
  (¬ type_has (Some (js "Mobile Control Unit")) "turbine" ∧
   type_has (Some (js "Mobile Control Unit")) "control" ∧
   getIconForAssetType (Some (js "Mobile Control Unit")) = Cpu) ∧
  getIconForAssetType None = Activity.
Proof.
  assert (type_has (Some (js "Gas TURBINE #3")) "turbine") as Hturbine
    by (apply includes_type_has; vm_compute; reflexivity).
  assert (¬ type_has (Some (js "Mobile Control Unit")) "turbine") as Hnot
    by (apply excludes_type_has; vm_compute; reflexivity).
  assert (type_has (Some (js "Mobile Control Unit")) "control") as Hcontrol
    by (apply includes_type_has; vm_compute; reflexivity).
  exact (conj
    (conj Hturbine
       (proj1 (icon_follows_the_type (Some (js "Gas TURBINE #3"))) Hturbine))
    (conj
       (conj Hnot (conj Hcontrol
          (proj1 (proj2 (icon_follows_the_type (Some (js "Mobile Control Unit"))))
             Hnot Hcontrol)))
       (proj2 (proj2 (proj2 (proj2 (proj2
          (icon_follows_the_type None))))) eq_refl))).
Defined.

Lemma device_list_changes_only_on_success_witness :
  (api_delete (signed_in false) (js "/assets/" ++ js "dev-02")%list =
     Throws (error_of "Network Error") ∧
   devices_after (removeDevice (js "dev-02")) (signed_in false) = defaultDevices) ∧
  (api_delete (signed_in true) (js "/assets/" ++ js "dev-02")%list = Returns tt ∧
   map name (devices_after (removeDevice (js "dev-02")) (signed_in true)) =
     [js "Turbine A-11"; js "Field Tablet"; js "Engine Monitor"]) ∧
  (api_post (signed_in false) (js "/assets/") (creation pump) =
     Throws (error_of "Network Error") ∧
   devices_after (addDevice pump) (signed_in false) = defaultDevices).
Proof.
  destruct (device_list_changes_only_on_success (signed_in false)
              (js "dev-02") pump) as (Hfail & _ & _ & Hpost).
  destruct (device_list_changes_only_on_success (signed_in true)
              (js "dev-02") pump) as (_ & Hok & _ & _).
  refine (conj (conj eq_refl (Hfail _ eq_refl))
            (conj (conj eq_refl _) (conj eq_refl (Hpost _ eq_refl)))).
  rewrite (proj1 (Hok eq_refl)). vm_compute. reflexivity.
Defined.

End DashboardFacts.
(** * Further properties *)

(** ** The cleanup of the reply of the model *)

Module CleanupFacts.
Import Server StringFacts CleanupSpec.

#[local] Open Scope string_scope.
#[local] Open Scope list_scope.

(** *** Deleting a pattern *)

Lemma remove_all_from_skip (pat x s : jsstring) :
  remove_all_from pat (x ++ s) (length x) = remove_all_from pat s 0.
Proof.
  induction x as [|c x IH]; simpl; [reflexivity | exact IH].
Qed.

(** A text that opens with the pattern loses it. *)
Lemma remove_all_leading (p : N) (pat s : jsstring) :
  remove_all (p :: pat) ((p :: pat) ++ s) = remove_all (p :: pat) s.
Proof.
  unfold remove_all. cbn [app remove_all_from].
  replace (startsWith (p :: pat) (p :: pat ++ s)) with true.
  - apply remove_all_from_skip.
  - symmetry. apply (startsWith_prefix (p :: pat) (p :: pat ++ s)). by exists s.
Qed.

(** A text without the pattern is left as it is. *)
Lemma remove_all_absent (pat s : jsstring) :
  pat ≠ [] -> includes s pat = false -> remove_all pat s = s.
Proof.
  intros Hpat. unfold remove_all. destruct pat as [|p pat]; [done|].
  induction s as [|c s IH]; [reflexivity|].
  cbn [includes remove_all_from]. intros Hnone.
  apply orb_false_iff in Hnone as [-> Hrest]. by rewrite IH.
Qed.

Lemma contains_longer (s pat more : jsstring) :
  contains s (pat ++ more) -> contains s pat.
Proof.
  intros (before & after & ->). exists before, (more ++ after).
  by rewrite <- !app_assoc.
Qed.

Lemma contains_inside (a s b pat : jsstring) :
  contains s pat -> contains (a ++ s ++ b) pat.
Proof.
  intros (before & after & ->). exists (a ++ before), (after ++ b).
  by rewrite <- !app_assoc.
Qed.

(** *** The fence

    Matches are found from the left and do not overlap, so deleting the
    fence from a run of backquotes leaves fewer than three of them. *)

Lemma startsWith_fence (c : N) (s : jsstring) :
  startsWith fence (c :: s) = unit_eqb 96 c && startsWith [96; 96]%N s.
Proof. reflexivity. Qed.

Lemma remove_fence_cons (c : N) (s : jsstring) :
  remove_all_from fence (c :: s) 0 =
  if startsWith fence (c :: s) then remove_all_from fence s 2
  else c :: remove_all_from fence s 0.
Proof. reflexivity. Qed.

Lemma remove_fence_one (s : jsstring) :
  startsWith [96]%N (remove_all fence s) = true -> startsWith [96]%N s = true.
Proof.
  unfold remove_all. destruct s as [|c s]; [done|].
  rewrite remove_fence_cons.
  destruct (startsWith fence (c :: s)) eqn:Hstart.
  - intros _. rewrite startsWith_fence in Hstart.
    apply andb_true_iff in Hstart as [Hc _]. cbn [startsWith]. by rewrite Hc.
  - done.
Qed.

Lemma remove_fence_two (s : jsstring) :
  startsWith [96; 96]%N (remove_all fence s) = true ->
  startsWith [96; 96]%N s = true.
Proof.
  unfold remove_all. destruct s as [|c s]; [done|].
  rewrite remove_fence_cons.
  destruct (startsWith fence (c :: s)) eqn:Hstart.
  - intros _. rewrite startsWith_fence in Hstart.
    apply andb_true_iff in Hstart as [Hc Hs]. cbn [startsWith]. rewrite Hc.
    destruct s as [|c' s]; [done|]. cbn [startsWith] in Hs |- *.
    apply andb_true_iff in Hs as [-> _]. done.
  - cbn [startsWith]. intros Hout.
    apply andb_true_iff in Hout as [-> Hout]. simpl.
    apply (remove_fence_one s) in Hout. destruct s as [|c' s]; [done|].
    exact Hout.
Qed.

Lemma remove_fence_from (s : jsstring) : forall skip,
  includes (remove_all_from fence s skip) fence = false.
Proof.
  induction s as [|c s IH]; intros skip; [by destruct skip|].
  destruct skip as [|skip]; [|apply IH].
  rewrite remove_fence_cons.
  destruct (startsWith fence (c :: s)) eqn:Hstart; [apply IH|].
  cbn [includes]. rewrite IH, orb_false_r.
  rewrite startsWith_fence in Hstart |- *.
  destruct (unit_eqb 96 c); [|done]. cbn [andb] in *.
  destruct (startsWith [96; 96]%N (remove_all_from fence s 0)) eqn:Hout; [|done].
  apply (remove_fence_two s) in Hout. congruence.
Qed.

(** *** White space at the two ends *)

Lemma trimStart_spec (s : jsstring) :
  ∃ spaces, s = spaces ++ trimStart s ∧ forallb is_js_space spaces = true.
Proof.
  induction s as [|c s (spaces & Heq & Hspaces)]; [by exists []|].
  simpl. destruct (is_js_space c) eqn:Hc.
  - exists (c :: spaces). simpl. rewrite Hc, Hspaces. by rewrite <- Heq.
  - by exists [].
Qed.

Lemma trimStart_head (s : jsstring) (c : N) :
  head (trimStart s) = Some c -> is_js_space c = false.
Proof.
  induction s as [|x s IH]; [done|]. simpl.
  destruct (is_js_space x) eqn:Hx; [done|]. simpl. by intros [= <-].
Qed.

Lemma trimStart_fixed (s : jsstring) :
  (∀ c, head s = Some c -> is_js_space c = false) -> trimStart s = s.
Proof.
  destruct s as [|c s]; [done|]. simpl. intros Hhead.
  by rewrite (Hhead c).
Qed.

Lemma trimEnd_spec (s : jsstring) :
  ∃ spaces, s = trimEnd s ++ spaces ∧ forallb is_js_space spaces = true.
Proof.
  unfold trimEnd. destruct (trimStart_spec (rev s)) as (spaces & Heq & Hspaces).
  exists (rev spaces). split.
  - rewrite <- rev_app_distr, <- Heq. by rewrite rev_involutive.
  - rewrite forallb_forall in Hspaces |- *. intros c Hc.
    apply Hspaces. by apply in_rev.
Qed.

Lemma last_rev (s : jsstring) : last (rev s) = head s.
Proof.
  destruct s as [|c s]; [done|]. simpl. by rewrite last_snoc.
Qed.

Lemma head_rev (s : jsstring) : head (rev s) = last s.
Proof. by rewrite <- last_rev, rev_involutive. Qed.

Lemma trimEnd_last (s : jsstring) (c : N) :
  last (trimEnd s) = Some c -> is_js_space c = false.
Proof. unfold trimEnd. rewrite last_rev. apply trimStart_head. Qed.

Lemma trimEnd_fixed (s : jsstring) :
  (∀ c, last s = Some c -> is_js_space c = false) -> trimEnd s = s.
Proof.
  intros Hlast. unfold trimEnd. rewrite trimStart_fixed.
  - apply rev_involutive.
  - intros c. rewrite head_rev. apply Hlast.
Qed.

Lemma trimEnd_head (s : jsstring) (c : N) :
  (∀ c, head s = Some c -> is_js_space c = false) ->
  head (trimEnd s) = Some c -> is_js_space c = false.
Proof.
  intros Hhead. destruct (trimEnd_spec s) as (spaces & Heq & _).
  destruct (trimEnd s) as [|x t]; [done|]. simpl. intros [= ->].
  apply Hhead. by rewrite Heq.
Qed.

Lemma trim_trimmed (s : jsstring) : trimmed (trim s).
Proof.
  unfold trim. split; intros c.
  - apply trimEnd_head. apply trimStart_head.
  - apply trimEnd_last.
Qed.

Lemma trimmed_trim (s : jsstring) : trimmed s -> trim s = s.
Proof.
  intros [Hhead Hlast]. unfold trim.
  by rewrite (trimStart_fixed s Hhead), trimEnd_fixed.
Qed.

(** What [trim] keeps is a part of the text. *)
Lemma trim_inside (s : jsstring) :
  ∃ a b, s = a ++ trim s ++ b.
Proof.
  unfold trim. destruct (trimStart_spec s) as (a & Ha & _).
  destruct (trimEnd_spec (trimStart s)) as (b & Hb & _).
  exists a, b. by rewrite <- Hb.
Qed.

Lemma trim_contains (s pat : jsstring) :
  contains (trim s) pat -> contains s pat.
Proof.
  intros Hin. destruct (trim_inside s) as (a & b & Heq). rewrite Heq.
  by apply contains_inside.
Qed.

(** *** A reply inside a fence *)

(** The closing fence is found where the text ends, also when the text
    itself ends with one or two backquotes. *)
Lemma remove_fence_closing (s : jsstring) :
  includes s fence = false -> remove_all fence (s ++ fence) = s.
Proof.
  unfold remove_all. induction s as [|c s IH]; [reflexivity|].
  cbn [includes]. intros Hnone.
  apply orb_false_iff in Hnone as [Hhere Hrest].
  cbn [app]. rewrite remove_fence_cons.
  destruct (startsWith fence (c :: s ++ fence)) eqn:Hstart;
    [|by rewrite IH].
  rewrite startsWith_fence in Hstart, Hhere.
  apply andb_true_iff in Hstart as [Hc Hstart]. rewrite Hc in Hhere.
  unfold unit_eqb in Hc. apply N.eqb_eq in Hc as <-.
  destruct s as [|x [|y s]].
  - reflexivity.
  - cbn [app startsWith] in Hstart. apply andb_true_iff in Hstart as [Hx _].
    apply N.eqb_eq in Hx as <-. reflexivity.
  - cbn [app startsWith andb] in Hstart, Hhere.
    apply andb_true_iff in Hstart as [Hx Hy].
    apply andb_true_iff in Hy as [Hy _].
    rewrite Hx, Hy in Hhere. discriminate Hhere.
Qed.

(** No opening fence begins inside a text without fences, nor across its
    closing fence. *)
Lemma json_fence_absent (s : jsstring) :
  ¬ contains s fence -> ¬ contains (s ++ fence) json_fence.
Proof.
  intros Hnone (before & after & Heq).
  change json_fence with (fence ++ js "json") in Heq.
  rewrite <- app_assoc, app_assoc in Heq.
  apply app_eq_app in Heq as [l [[Hs Hrest] | [Hbefore Hfence]]].
  - apply Hnone. exists before, l. by rewrite Hs, <- app_assoc.
  - apply (f_equal length) in Hfence. rewrite !length_app in Hfence.
    cbn in Hfence. lia.
Qed.

Lemma cleanup_fence_free (text : jsstring) :
  ¬ contains text fence -> cleanup text = trim text.
Proof.
  intros Hnone. unfold cleanup. fold fence json_fence.
  rewrite (remove_all_absent json_fence), (remove_all_absent fence); try done.
  - by apply not_includes_contains.
  - apply not_includes_contains. intros Hin. apply Hnone.
    by apply (contains_longer _ fence (js "json")).
Qed.

(** *** The properties *)

(** X1.  What [cleanup] returns holds no code fence (three backquotes in
    a row), and neither starts nor ends with white space. *)
Theorem cleanup_leaves_no_fence (text : jsstring) :
  ¬ contains (cleanup text) fence ∧ trimmed (cleanup text).
Proof.
  split; [|apply trim_trimmed].
  unfold cleanup. fold fence. intros Hin. apply trim_contains in Hin.
  apply includes_contains in Hin.
  unfold remove_all in Hin at 1. by rewrite remove_fence_from in Hin.
Qed.

(** X2.  On a text without code fences, [cleanup] only trims the white
    space at its two ends; a text that has none there is returned as it
    is. *)
Theorem cleanup_only_trims_fence_free_text (text : jsstring) :
  ¬ contains text fence ->
  cleanup text = trim text ∧ (trimmed text -> cleanup text = text).
Proof.
  intros Hnone. rewrite (cleanup_fence_free text Hnone).
  split; [reflexivity | apply trimmed_trim].
Qed.

(** X3.  A reply wrapped in a json code fence is cleaned to what stands
    between the opening and the closing fence, trimmed, whenever that text
    holds no fence of its own. *)
Theorem cleanup_unwraps_json_fence (text : jsstring) :
  ¬ contains text fence ->
  cleanup (json_fence ++ text ++ fence) = trim text.
Proof.
  intros Hnone. unfold cleanup. fold fence json_fence.
  replace (remove_all json_fence (json_fence ++ text ++ fence))
    with (remove_all json_fence (text ++ fence))
    by (symmetry; apply (remove_all_leading 96%N (js "``json"))).
  rewrite (remove_all_absent json_fence); [|done|].
  - rewrite remove_fence_closing; [done|]. by apply not_includes_contains.
  - apply not_includes_contains. by apply json_fence_absent.
Qed.

(** X4.  [cleanup] is idempotent: cleaning a cleaned text changes
    nothing. *)
Theorem cleanup_is_idempotent (text : jsstring) :
  cleanup (cleanup text) = cleanup text.
Proof.
  assert (¬ contains (cleanup text) fence ∧ trimmed (cleanup text))
    as [Hnone Htrimmed].
  { split.
    - unfold cleanup. fold fence. intros Hin. apply trim_contains in Hin.
      apply includes_contains in Hin.
      unfold remove_all in Hin at 1. by rewrite remove_fence_from in Hin.
    - apply trim_trimmed. }
  rewrite (cleanup_fence_free _ Hnone). by apply trimmed_trim.
Qed.

(** *** The properties at sample replies *)

Lemma cleanup_only_trims_fence_free_text_witness :
  ¬ contains PredictSpec.reply_low fence ∧
  trimmed PredictSpec.reply_low ∧
  cleanup PredictSpec.reply_low = PredictSpec.reply_low.
Proof.
  assert (¬ contains PredictSpec.reply_low fence) as Hnone
    by (apply not_includes_contains; vm_compute; reflexivity).
  assert (trimmed PredictSpec.reply_low) as Htrimmed
    by (split; intros c Hc; vm_compute in Hc; injection Hc as <-; reflexivity).
  exact (conj Hnone (conj Htrimmed
    (proj2 (cleanup_only_trims_fence_free_text _ Hnone) Htrimmed))).
Defined.

Lemma cleanup_unwraps_json_fence_witness :
  ¬ contains fenced_content fence ∧
  cleanup (json_fence ++ fenced_content ++ fence) =
    json_text "{'healthIndex': 72}".
Proof.
  assert (¬ contains fenced_content fence) as Hnone
    by (apply not_includes_contains; vm_compute; reflexivity).
  refine (conj Hnone _).
  rewrite (cleanup_unwraps_json_fence fenced_content Hnone).
  vm_compute. reflexivity.
Defined.

End CleanupFacts.

(** ** The default-filling of a parsed reply *)

Module FillingFacts.
Import Server PredictSpec PredictFacts.

#[local] Open Scope string_scope.

#[local] Arguments js : simpl never.
#[local] Arguments object : simpl never.
#[local] Arguments num : simpl never.
#[local] Arguments str : simpl never.
#[local] Arguments own_property : simpl never.
#[local] Arguments spread : simpl never.
#[local] Arguments js_add : simpl never.
#[local] Arguments js_sub : simpl never.
#[local] Arguments ToString : simpl never.

Section Filling.
Context `{Engine}.

Lemma enhancedPrediction_defined (prediction enhanced : value) :
  enhancedPrediction prediction = Returns enhanced ->
  nullish prediction = false ∧ completed prediction = Returns enhanced.
Proof.
  intros Henhanced.
  assert (nullish prediction = false) as Hdef
    by (destruct prediction; try reflexivity; discriminate Henhanced).
  by rewrite <- enhancedPrediction_completed.
Qed.

Lemma completed_object (v body : value) :
  completed v = Returns body -> ∃ m, body = VObj m.
Proof.
  unfold completed. intros Hbody.
  destruct (filled v "longTermProjection"); [|discriminate Hbody].
  destruct (filled v "simulation"); [|discriminate Hbody].
  destruct (filled v "failureCluster"); [|discriminate Hbody].
  destruct (filled v "dataDrift"); [|discriminate Hbody].
  simpl in Hbody. injection Hbody as <-. eauto.
Qed.

(** Whatever fills an optional field is truthy: the reply's own truthy
    value, or a placeholder, which is an array or an object. *)
Lemma filled_truthy (v x : value) (field : string) :
  field ∈ optional_fields -> filled v field = Returns x -> ToBoolean x = true.
Proof.
  intros Hin. unfold filled.
  destruct (ToBoolean (own_property v (js field))) eqn:Hgiven.
  - by intros [= <-].
  - unfold placeholder, placeholder_projection.
    each_optional_field Hin; simpl.
    + destruct (js_add _ (num 5)); simpl; [|discriminate].
      destruct (js_sub _ (num 10)); simpl; [|discriminate].
      destruct (js_sub _ (num 20)); simpl; [|discriminate].
      by intros [= <-].
    + by intros [= <-].
    + by intros [= <-].
    + by intros [= <-].
Qed.

Lemma filled_given (v : value) (field : string) :
  ToBoolean (own_property v (js field)) = true ->
  filled v field = Returns (own_property v (js field)).
Proof. intros Hgiven. unfold filled. by rewrite Hgiven. Qed.

(** A reply with its four optional fields truthy is its own completion. *)
Lemma completed_fixed (m : gmap jsstring value) :
  (∀ field, field ∈ optional_fields ->
     ToBoolean (own_property (VObj m) (js field)) = true) ->
  completed (VObj m) = Returns (VObj m).
Proof.
  intros Hgiven.
  assert (∀ field, field ∈ optional_fields ->
            filled (VObj m) field = Returns (own_property (VObj m) (js field)) ∧
            m !! js field = Some (own_property (VObj m) (js field))) as Hsame.
  { intros field Hin. specialize (Hgiven field Hin).
    split; [by apply filled_given|].
    unfold own_property in *. by destruct (m !! js field). }
  unfold completed.
  destruct (Hsame "longTermProjection") as (-> & Hm1); [repeat constructor|].
  destruct (Hsame "simulation") as (-> & Hm2); [repeat constructor|].
  destruct (Hsame "failureCluster") as (-> & Hm3); [repeat constructor|].
  destruct (Hsame "dataDrift") as (-> & Hm4); [repeat constructor|].
  simpl. unfold spread. do 2 f_equal.
  rewrite (insert_id m (js "longTermProjection")) by done.
  rewrite (insert_id m (js "simulation")) by done.
  rewrite (insert_id m (js "failureCluster")) by done.
  by apply insert_id.
Qed.

Lemma enhanced_field_truthy (prediction enhanced : value) (field : string) :
  enhancedPrediction prediction = Returns enhanced ->
  field ∈ optional_fields ->
  ToBoolean (own_property enhanced (js field)) = true.
Proof.
  intros Henhanced Hin.
  apply enhancedPrediction_defined in Henhanced as [_ Hbody].
  destruct (completed_object _ _ Hbody) as [m ->].
  destruct (completed_field _ _ field Hbody Hin) as (x & Hx & Hfield).
  unfold spread in Hfield. unfold own_property. rewrite Hfield. simpl.
  by apply (filled_truthy prediction x field).
Qed.

(** X5.  Default-filling is idempotent: a completed reply is completed to
    itself. *)
Theorem default_filling_is_idempotent (prediction enhanced : value) :
  enhancedPrediction prediction = Returns enhanced ->
  enhancedPrediction enhanced = Returns enhanced.
Proof.
  intros Henhanced.
  assert (∀ field, field ∈ optional_fields ->
            ToBoolean (own_property enhanced (js field)) = true) as Htruthy
    by (intros field Hin; by apply (enhanced_field_truthy prediction)).
  apply enhancedPrediction_defined in Henhanced as [_ Hbody].
  destruct (completed_object _ _ Hbody) as [m ->].
  rewrite enhancedPrediction_completed by done.
  by apply completed_fixed.
Qed.

(** X6.  Every property of the reply other than the four optional fields
    is in the completed reply with the same value, and the completed reply
    has no property but the reply's and those four. *)
Theorem other_fields_pass_through_untouched
    (prediction enhanced : value) (key : jsstring) :
  enhancedPrediction prediction = Returns enhanced ->
  key ∉ js <$> optional_fields ->
  spread enhanced !! key = spread prediction !! key.
Proof.
  intros Henhanced Hkey.
  apply enhancedPrediction_defined in Henhanced as [_ Hbody].
  by apply completed_other.
Qed.

(** X7.  Each optional field is filled on its own: a field of the reply
    that is truthy is in the completed reply unchanged, whatever the other
    three are. *)
Theorem truthy_field_passes_through_alone
    (prediction enhanced : value) (field : string) :
  enhancedPrediction prediction = Returns enhanced ->
  field ∈ optional_fields ->
  ToBoolean (own_property prediction (js field)) = true ->
  own_property enhanced (js field) = own_property prediction (js field).
Proof.
  intros Henhanced Hin Hgiven.
  apply enhancedPrediction_defined in Henhanced as [_ Hbody].
  destruct (completed_object _ _ Hbody) as [m ->].
  destruct (completed_field _ _ field Hbody Hin) as (x & Hx & Hfield).
  rewrite filled_given in Hx by done. injection Hx as <-.
  unfold spread in Hfield. unfold own_property at 1. by rewrite Hfield.
Qed.

(** X8.  The default-filling has a result exactly when the reply is
    neither [null] nor [undefined] and either brings a truthy
    longTermProjection or has a healthIndex with a primitive value; in
    every other case it throws. *)
Theorem default_filling_succeeds_exactly_when (prediction : value) :
  (∃ enhanced, enhancedPrediction prediction = Returns enhanced) <->
  nullish prediction = false ∧
  (ToBoolean (own_property prediction (js "longTermProjection")) = true ∨
   convertible (own_property prediction (js "healthIndex"))).
Proof.
  split.
  - intros [enhanced Henhanced].
    apply enhancedPrediction_defined in Henhanced as [Hdef Hbody].
    split; [done|].
    destruct (completed_field _ _ "longTermProjection" Hbody)
      as (x & Hx & _); [repeat constructor|].
    unfold filled in Hx.
    destruct (ToBoolean (own_property prediction (js "longTermProjection")));
      [by left | right].
    unfold placeholder, placeholder_projection in Hx. simpl in Hx.
    unfold convertible.
    destruct (ToPrimitive (own_property prediction (js "healthIndex")))
      as [p | e] eqn:Hprim; [eauto|].
    unfold js_add in Hx. rewrite Hprim in Hx. discriminate Hx.
  - intros [Hdef Hfills]. rewrite enhancedPrediction_completed by done.
    assert (∃ projected,
              filled prediction "longTermProjection" = Returns projected)
      as [projected Hprojected].
    { destruct Hfills as [Hgiven | Hconv].
      - rewrite filled_given by done. eauto.
      - unfold filled.
        destruct (ToBoolean (own_property prediction (js "longTermProjection")));
          [eauto|].
        unfold placeholder. simpl.
        destruct (placeholder_projection_convertible _ Hconv)
          as (h25 & h75 & h100 & _ & _ & _ & ->). eauto. }
    by apply (completed_returns _ projected).
Qed.

End Filling.

(** *** The properties at sample replies *)

Ltac not_optional :=
  let Hin := fresh "Hin" in
  intros Hin; unfold optional_fields in Hin; simpl in Hin;
  repeat (apply elem_of_cons in Hin as [Hin | Hin];
          [vm_compute in Hin; discriminate Hin|]);
  apply elem_of_nil in Hin; destruct Hin.

Lemma default_filling_is_idempotent_witness :
  ∃ enhanced,
    enhancedPrediction (H := terse) parsed_plain = Returns enhanced ∧
    enhancedPrediction (H := terse) enhanced = Returns enhanced.
Proof.
  destruct (enhancedPrediction (H := terse) parsed_plain)
    as [enhanced | error] eqn:Henhanced;
    [|vm_compute in Henhanced; discriminate Henhanced].
  exact (ex_intro _ enhanced (conj eq_refl
    (default_filling_is_idempotent (H := terse) parsed_plain enhanced
       Henhanced))).
Defined.

Lemma other_fields_pass_through_untouched_witness :
  ∃ enhanced,
    enhancedPrediction (H := terse) parsed_plain = Returns enhanced ∧
    (js "failureMode" ∉ js <$> optional_fields) ∧
    spread enhanced !! js "failureMode" = Some (str "Bearing wear").
Proof.
  destruct (enhancedPrediction (H := terse) parsed_plain)
    as [enhanced | error] eqn:Henhanced;
    [|vm_compute in Henhanced; discriminate Henhanced].
  assert (js "failureMode" ∉ js <$> optional_fields) as Hkey by not_optional.
  refine (ex_intro _ enhanced (conj eq_refl (conj Hkey _))).
  rewrite (other_fields_pass_through_untouched (H := terse) parsed_plain
             enhanced (js "failureMode") Henhanced Hkey).
  vm_compute. reflexivity.
Defined.

Lemma truthy_field_passes_through_alone_witness :
  ∃ enhanced,
    enhancedPrediction (H := terse) GatewaySpec.parsed_partial
      = Returns enhanced ∧
    ToBoolean (own_property GatewaySpec.parsed_partial (js "simulation")) = true ∧
    own_property GatewaySpec.parsed_partial (js "dataDrift") = VUndef ∧
    own_property enhanced (js "simulation") =
      object [("maintenanceNow", object [("cost", num 1)])].
Proof.
  destruct (enhancedPrediction (H := terse) GatewaySpec.parsed_partial)
    as [enhanced | error] eqn:Henhanced;
    [|vm_compute in Henhanced; discriminate Henhanced].
  assert (ToBoolean (own_property GatewaySpec.parsed_partial (js "simulation"))
          = true) as Hgiven by reflexivity.
  refine (ex_intro _ enhanced (conj eq_refl (conj Hgiven (conj eq_refl _)))).
  rewrite (truthy_field_passes_through_alone (H := terse)
             GatewaySpec.parsed_partial enhanced "simulation" Henhanced
             ltac:(repeat constructor) Hgiven).
  vm_compute. reflexivity.
Defined.

End FillingFacts.

(** ** The calls of the prediction gateway *)

Module PredictCalls.
Import Server PredictSpec PredictFacts.

#[local] Open Scope string_scope.

#[local] Arguments js : simpl never.
#[local] Arguments object : simpl never.
#[local] Arguments own_property : simpl never.
#[local] Arguments ToString : simpl never.
#[local] Arguments cleanup : simpl never.
#[local] Arguments JSON_parse : simpl never.
#[local] Arguments enhancedPrediction : simpl never.

Section Calls.
Context `{Engine} {W : Type} (h : handler ProviderE W).

(** The run of the [try] block up to the reply of the model. *)
Lemma predict_try_run (w : W) (req_body : value) :
  run h (predict_try req_body) w =
  match destructure req_body with
  | Throws e => (Throws e, w)
  | Returns source =>
      let systemInfo := own_property source (js "systemInfo") in
      let inputs := own_property source (js "inputs") in
      match get_member systemInfo "name" ≫= ToString with
      | Throws e => (Throws e, w)
      | Returns _ =>
          match h _ (GenerateContent systemInfo inputs) w with
          | (Throws e, w1) => (Throws e, w1)
          | (Returns r, w1) =>
              match h _ (ResponseText r) w1 with
              | (Throws e, w2) => (Throws e, w2)
              | (Returns text, w2) =>
                  match JSON_parse (cleanup text) ≫= enhancedPrediction with
                  | Throws e => (Throws e, w2)
                  | Returns enhanced => (Returns (res_json enhanced), w2)
                  end
              end
          end
      end
  end.
Proof.
  unfold predict_try. rewrite run_and_then, run_eval.
  destruct (destructure req_body) as [source | e]; [|reflexivity]. cbv zeta.
  rewrite run_and_then, run_eval.
  destruct (get_member (own_property source (js "systemInfo")) "name")
    as [name | e]; [|reflexivity]. simpl.
  rewrite run_and_then, run_eval.
  destruct (ToString name) as [shown | e]; [|reflexivity].
  rewrite run_and_then, run_perform.
  destruct (h _ (GenerateContent _ _) w) as [[r | e] w1]; [|reflexivity].
  rewrite run_and_then, run_perform.
  destruct (h _ (ResponseText r) w1) as [[text | e] w2]; [|reflexivity].
  rewrite run_and_then, run_eval.
  destruct (JSON_parse (cleanup text)) as [prediction | e]; [|reflexivity]. simpl.
  rewrite run_and_then, run_eval.
  destruct (enhancedPrediction prediction); reflexivity.
Qed.

(** The events of the handler: those of its [try] block. *)
Lemma predict_events (w : W) (req_body : value) :
  events h (predict req_body) w =
  match destructure req_body with
  | Throws e => []
  | Returns source =>
      let systemInfo := own_property source (js "systemInfo") in
      let inputs := own_property source (js "inputs") in
      match get_member systemInfo "name" ≫= ToString with
      | Throws e => []
      | Returns _ =>
          existT _ (GenerateContent systemInfo inputs) ::
          match h _ (GenerateContent systemInfo inputs) w with
          | (Throws e, w1) => []
          | (Returns r, w1) => [existT _ (ResponseText r)]
          end
      end
  end.
Proof.
  unfold predict. rewrite events_try_catch.
  match goal with
  | |- (_ ++ ?caught)%list = _ =>
      assert (caught = []) as ->
        by (destruct (run h (predict_try req_body) w) as [[? | ?] ?];
            reflexivity)
  end.
  rewrite app_nil_r.
  unfold predict_try. rewrite events_and_then, events_eval, run_eval.
  destruct (destructure req_body) as [source | e]; [|reflexivity]. cbv zeta.
  rewrite events_and_then, events_eval, run_eval.
  destruct (get_member (own_property source (js "systemInfo")) "name")
    as [name | e]; [|reflexivity]. simpl.
  rewrite events_and_then, events_eval, run_eval.
  destruct (ToString name) as [shown | e]; [|reflexivity]. simpl.
  rewrite events_and_then, events_perform, run_perform. simpl. f_equal.
  destruct (h _ (GenerateContent _ _) w) as [[r | e] w1]; [|reflexivity].
  rewrite events_and_then, events_perform, run_perform. simpl. f_equal.
  destruct (h _ (ResponseText r) w1) as [[text | e] w2]; [|reflexivity].
  rewrite events_and_then, events_eval, run_eval.
  destruct (JSON_parse (cleanup text)) as [prediction | e]; [|reflexivity]. simpl.
  rewrite events_and_then, events_eval, run_eval.
  destruct (enhancedPrediction prediction); reflexivity.
Qed.

Lemma result_predict (w : W) (req_body : value) :
  result h (predict req_body) w =
  match fst (run h (predict_try req_body) w) with
  | Returns response => response
  | Throws error => failure error
  end.
Proof.
  unfold result, predict. rewrite run_try_catch.
  destruct (run h (predict_try req_body) w) as [[response | error] w'];
    reflexivity.
Qed.

(** X9.  Whatever the request and whatever the model does, the handler
    calls the model at most once, with the systemInfo and the inputs of the
    request as they came, and reads the text of an answer at most once,
    after that call has returned: nothing is tried again. *)
Theorem predict_asks_the_model_at_most_once (w : W) (req_body : value) :
  let systemInfo := own_property req_body (js "systemInfo") in
  let inputs := own_property req_body (js "inputs") in
  events h (predict req_body) w = [] ∨
  events h (predict req_body) w =
    [existT _ (GenerateContent systemInfo inputs)] ∨
  ∃ r w1,
    h _ (GenerateContent systemInfo inputs) w = (Returns r, w1) ∧
    events h (predict req_body) w =
      [existT _ (GenerateContent systemInfo inputs);
       existT _ (ResponseText r)].
Proof.
  cbv zeta. rewrite predict_events.
  destruct req_body; simpl; try (by left);
    match goal with
    | |- context [get_member ?info "name"] =>
        destruct (get_member info "name") as [name | e]; simpl; [|by left]
    end;
    (destruct (ToString name); [|by left]);
    right;
    match goal with
    | |- context [h _ ?e w] =>
        destruct (h _ e w) as [[r | e'] w1] eqn:Hgen; [right | by left]
    end;
    by exists r, w1.
Qed.

(** X10.  A request without a systemInfo (or without a body at all) is
    answered with status 500 and the error envelope, the TypeError of the
    engine in [details], and the model is not called. *)
Theorem request_without_systemInfo_is_not_sent (w : W) (req_body : value) :
  nullish (own_property req_body (js "systemInfo")) = true ->
  events h (predict req_body) w = [] ∧
  ∃ error,
    result h (predict req_body) w =
      mkResponse 500 (object [
        ("error", str "Failed to generate prediction");
        ("details", VStr (wording error));
        ("fallback", fallback)]) ∧
    (error = DestructureNullish req_body ∨
     error = ReadOfNullish (own_property req_body (js "systemInfo")) (js "name")).
Proof.
  intros Hinfo. rewrite predict_events, result_predict, predict_try_run.
  destruct (nullish req_body) eqn:Hreq.
  - assert (destructure req_body = Throws (raise (DestructureNullish req_body)))
      as -> by (by destruct req_body).
    split; [reflexivity|]. eexists. split; [reflexivity | by left].
  - rewrite destructure_defined by done. cbv zeta.
    rewrite get_member_nullish by done. simpl.
    split; [reflexivity|]. eexists. split; [reflexivity | by right].
Qed.

(** X11.  When the model fails, at the call or when the text of its
    answer is read, the response is 500 with the error envelope, the
    message of the error of the model in [details] as it is, and the
    handler makes no further call. *)
Theorem provider_error_gives_the_envelope
    (w : W) (req_body : value) (shown : jsstring) :
  let systemInfo := own_property req_body (js "systemInfo") in
  let inputs := own_property req_body (js "inputs") in
  let envelope error :=
    mkResponse 500 (object [
      ("error", str "Failed to generate prediction");
      ("details", message_value error);
      ("fallback", fallback)]) in
  nullish systemInfo = false ->
  ToString (own_property systemInfo (js "name")) = Returns shown ->
  (∀ error w1,
     h _ (GenerateContent systemInfo inputs) w = (Throws error, w1) ->
     result h (predict req_body) w = envelope error ∧
     events h (predict req_body) w =
       [existT _ (GenerateContent systemInfo inputs)]) ∧
  (∀ r w1 error w2,
     h _ (GenerateContent systemInfo inputs) w = (Returns r, w1) ->
     h _ (ResponseText r) w1 = (Throws error, w2) ->
     result h (predict req_body) w = envelope error ∧
     events h (predict req_body) w =
       [existT _ (GenerateContent systemInfo inputs);
        existT _ (ResponseText r)]).
Proof.
  cbv zeta. intros Hinfo Hshown.
  assert (nullish req_body = false) as Hreq
    by (destruct req_body; try reflexivity; discriminate Hinfo).
  rewrite predict_events, result_predict, predict_try_run.
  rewrite destructure_defined by done. cbv zeta.
  rewrite get_member_defined by done. simpl. rewrite Hshown.
  split.
  - intros error w1 ->. by split.
  - intros r w1 error w2 -> ->. by split.
Qed.

(** X12.  Every response with status 200 carries the four optional fields,
    each with a truthy value. *)
Theorem success_carries_all_optional_fields
    (w : W) (req_body : value) (field : string) :
  status (result h (predict req_body) w) = 200 ->
  field ∈ optional_fields ->
  ToBoolean (own_property (body (result h (predict req_body) w)) (js field))
  = true.
Proof.
  intros Hstatus Hin.
  destruct (predict_cases h w req_body)
    as [[error Hfail] | (text & v & enhanced & _ & _ & Hbody & Hok)].
  - rewrite Hfail in Hstatus. discriminate Hstatus.
  - rewrite Hok. simpl.
    destruct (FillingFacts.completed_object _ _ Hbody) as [m ->].
    destruct (completed_field _ _ field Hbody Hin) as (x & Hx & Hfield).
    unfold spread in Hfield. unfold own_property. rewrite Hfield. simpl.
    by apply (FillingFacts.filled_truthy v x field).
Qed.

End Calls.

(** *** The properties at sample requests *)

Lemma request_without_systemInfo_is_not_sent_witness :
  nullish (own_property GatewaySpec.bare_request (js "systemInfo")) = true ∧
  events (answering reply_plain) (predict (H := terse) GatewaySpec.bare_request) tt
    = [] ∧
  result (answering reply_plain) (predict (H := terse) GatewaySpec.bare_request) tt
    = mkResponse 500 (object [
        ("error", str "Failed to generate prediction");
        ("details", str "Cannot read properties");
        ("fallback", fallback)]).
Proof.
  destruct (request_without_systemInfo_is_not_sent (H := terse)
              (answering reply_plain) tt GatewaySpec.bare_request eq_refl)
    as (Hevents & error & Hresult & Herror).
  refine (conj eq_refl (conj Hevents _)).
  vm_compute. reflexivity.
Defined.

Lemma provider_error_gives_the_envelope_witness :
  nullish (own_property turbine_request (js "systemInfo")) = false ∧
  ToString (H := terse)
    (own_property (own_property turbine_request (js "systemInfo")) (js "name"))
    = Returns (js "Turbine A-11") ∧
  result (ChatSpec.refusing ChatSpec.unreachable)
    (predict (H := terse) turbine_request) tt
    = mkResponse 500 (object [
        ("error", str "Failed to generate prediction");
        ("details", str "fetch failed");
        ("fallback", fallback)]) ∧
  events (ChatSpec.refusing ChatSpec.unreachable)
    (predict (H := terse) turbine_request) tt
    = [existT _ (GenerateContent
                   (own_property turbine_request (js "systemInfo"))
                   (own_property turbine_request (js "inputs")))].
Proof.
  assert (ToString (H := terse)
            (own_property (own_property turbine_request (js "systemInfo"))
               (js "name")) = Returns (js "Turbine A-11")) as Hshown
    by (vm_compute; reflexivity).
  destruct (proj1 (provider_error_gives_the_envelope (H := terse)
                     (ChatSpec.refusing ChatSpec.unreachable) tt
                     turbine_request (js "Turbine A-11") eq_refl Hshown)
              ChatSpec.unreachable tt eq_refl) as [Hresult Hevents].
  exact (conj eq_refl (conj Hshown (conj Hresult Hevents))).
Defined.

Lemma success_carries_all_optional_fields_witness :
  status (result (answering reply_plain) (predict (H := terse) turbine_request) tt)
    = 200 ∧
  ToBoolean
    (own_property
       (body (result (answering reply_plain)
                (predict (H := terse) turbine_request) tt))
       (js "dataDrift")) = true.
Proof.
  assert (status (result (answering reply_plain)
                    (predict (H := terse) turbine_request) tt) = 200)
    as Hstatus by (vm_compute; reflexivity).
  exact (conj Hstatus
    (success_carries_all_optional_fields (H := terse) (answering reply_plain)
       tt turbine_request "dataDrift" Hstatus ltac:(repeat constructor))).
Defined.

End PredictCalls.

(** ** The calls of the chat gateway *)

Module ChatCalls.
Import Server ChatSpec ChatFacts.

#[local] Open Scope string_scope.

#[local] Arguments js : simpl never.
#[local] Arguments object : simpl never.
#[local] Arguments str : simpl never.
#[local] Arguments own_property : simpl never.
#[local] Arguments js_or : simpl never.
#[local] Arguments ToString : simpl never.

Section Calls.
Context `{Engine} {W : Type} (h : handler ProviderE W).

(** X13.  A history that is truthy (every array, the empty one too) is
    given to the session as it came, the message is sent to that session
    as it came, and when the model answers the response is 200 with the
    text of the answer as it is; the three calls are made once each, in
    this order. *)
Theorem chat_replays_the_history_as_given
    (w w1 w2 w3 : W) (req_body : value) (shown length_shown text : jsstring)
    (session r : handle) :
  let message := own_property req_body (js "message") in
  let history := own_property req_body (js "history") in
  ToBoolean history = true ->
  ToString message = Returns shown ->
  ToString (get_member_optional history "length") = Returns length_shown ->
  h _ (StartChat history 1000) w = (Returns session, w1) ->
  h _ (SendMessage session message) w1 = (Returns r, w2) ->
  h _ (ResponseText r) w2 = (Returns text, w3) ->
  result h (chat req_body) w =
    Returns (mkResponse 200 (object [("response", VStr text)])) ∧
  events h (chat req_body) w =
    [existT _ (StartChat history 1000);
     existT _ (SendMessage session message);
     existT _ (ResponseText r)].
Proof.
  cbv zeta. intros Htruthy Hshown Hlength Hstart Hsend Htext.
  assert (nullish req_body = false) as Hreq
    by (destruct req_body; try reflexivity; discriminate Htruthy).
  rewrite chat_events, result_chat. unfold result. rewrite chat_try_run.
  rewrite destructure_defined by done. cbv zeta.
  rewrite Hshown. simpl. rewrite Hlength.
  unfold js_or. rewrite Htruthy, Hstart, Hsend, Htext. by split.
Qed.

(** X14.  A history that is falsy ([undefined], [null], [false], [0], the
    empty string) is replaced by the empty history: the session is opened
    afresh. *)
Theorem falsy_history_opens_a_fresh_chat
    (w : W) (req_body : value) (shown : jsstring) :
  nullish req_body = false ->
  ToString (own_property req_body (js "message")) = Returns shown ->
  ToBoolean (own_property req_body (js "history")) = false ->
  ∃ rest,
    events h (chat req_body) w = existT _ (StartChat (VArr []) 1000) :: rest.
Proof.
  intros Hreq Hshown Hfalsy.
  rewrite chat_events, destructure_defined by done. cbv zeta.
  rewrite Hshown. simpl. unfold js_or. rewrite Hfalsy.
  assert (∃ length_shown,
            ToString (get_member_optional (own_property req_body (js "history"))
                        "length") = Returns length_shown) as [length_shown ->].
  { destruct (own_property req_body (js "history")) as [| |b|x|s| |];
      try discriminate Hfalsy; eexists; reflexivity. }
  eauto.
Qed.

(** X15.  Each of the three calls to the model is made at most once and
    in order, the session being opened with the history of the request or
    the empty one; after a call that fails no other is made. *)
Theorem chat_calls_in_order_without_retry (w : W) (req_body : value) :
  let message := own_property req_body (js "message") in
  events h (chat req_body) w = [] ∨
  ∃ history,
    (history = own_property req_body (js "history") ∨ history = VArr []) ∧
    (events h (chat req_body) w = [existT _ (StartChat history 1000)] ∨
     ∃ session w1,
       h _ (StartChat history 1000) w = (Returns session, w1) ∧
       (events h (chat req_body) w =
          [existT _ (StartChat history 1000);
           existT _ (SendMessage session message)] ∨
        ∃ r w2,
          h _ (SendMessage session message) w1 = (Returns r, w2) ∧
          events h (chat req_body) w =
            [existT _ (StartChat history 1000);
             existT _ (SendMessage session message);
             existT _ (ResponseText r)])).
Proof.
  cbv zeta. rewrite chat_events.
  destruct (nullish req_body) eqn:Hreq.
  { left. by destruct req_body. }
  rewrite destructure_defined by done. cbv zeta.
  destruct (ToString (own_property req_body (js "message")) ≫= _); [|by left].
  right. exists (js_or (own_property req_body (js "history")) (VArr [])).
  split.
  { unfold js_or. destruct (ToBoolean _); [by left | by right]. }
  destruct (h _ (StartChat _ 1000) w) as [[session | e] w1] eqn:Hstart;
    [right | by left].
  exists session, w1. split; [done|].
  destruct (h _ (SendMessage session _) w1) as [[r | e] w2] eqn:Hsend;
    [right | by left].
  by exists r, w2.
Qed.

(** X16.  A request without a body is answered with status 500, the
    message of the TypeError of the engine in [details] and the label that
    this message gets, and the model is not called. *)
Theorem chat_without_body_is_not_sent (w : W) (req_body : value) :
  nullish req_body = true ->
  events h (chat req_body) w = [] ∧
  result h (chat req_body) w =
    Returns (mkResponse 500 (object [
      ("error", str (errorMessage (raise (DestructureNullish req_body))));
      ("details", VStr (wording (DestructureNullish req_body)))])).
Proof.
  intros Hreq. rewrite chat_events, result_chat. unfold result.
  rewrite chat_try_run.
  assert (destructure req_body = Throws (raise (DestructureNullish req_body)))
    as -> by (by destruct req_body).
  by split.
Qed.

End Calls.

(** *** The properties at sample requests *)

Lemma chat_replays_the_history_as_given_witness :
  ToBoolean (own_property GatewaySpec.hello_again (js "history")) = true ∧
  result (chatting (js "Hi")) (chat (H := terse) GatewaySpec.hello_again) tt =
    Returns (mkResponse 200 (object [("response", str "Hi")])) ∧
  events (chatting (js "Hi")) (chat (H := terse) GatewaySpec.hello_again) tt =
    [existT _ (StartChat (VArr [GatewaySpec.earlier_turn]) 1000);
     existT _ (SendMessage 1%nat (str "hello"));
     existT _ (ResponseText 2%nat)].
Proof.
  destruct (chat_replays_the_history_as_given (H := terse) (chatting (js "Hi"))
              tt tt tt tt GatewaySpec.hello_again (js "hello") (js "1")
              (js "Hi") 1%nat 2%nat eq_refl
              ltac:(vm_compute; reflexivity) ltac:(vm_compute; reflexivity)
              eq_refl eq_refl eq_refl) as [Hresult Hevents].
  refine (conj eq_refl (conj Hresult _)).
  rewrite Hevents. vm_compute. reflexivity.
Defined.

Lemma falsy_history_opens_a_fresh_chat_witness :
  own_property GatewaySpec.hello_with_null_history (js "history") = VNull ∧
  ∃ rest,
    events (chatting (js "Hi"))
      (chat (H := terse) GatewaySpec.hello_with_null_history) tt =
    existT _ (StartChat (VArr []) 1000) :: rest.
Proof.
  exact (conj eq_refl
    (falsy_history_opens_a_fresh_chat (H := terse) (chatting (js "Hi")) tt
       GatewaySpec.hello_with_null_history (js "hello") eq_refl
       ltac:(vm_compute; reflexivity) eq_refl)).
Defined.

Lemma chat_without_body_is_not_sent_witness :
  events (chatting (js "Hi")) (chat (H := terse) VUndef) tt = [] ∧
  result (chatting (js "Hi")) (chat (H := terse) VUndef) tt =
    Returns (mkResponse 500 (object [
      ("error", str "Failed to process chat message");
      ("details", str "Cannot destructure")])).
Proof.
  destruct (chat_without_body_is_not_sent (H := terse) (chatting (js "Hi")) tt
              VUndef eq_refl) as [Hevents Hresult].
  refine (conj Hevents _). rewrite Hresult. vm_compute. reflexivity.
Defined.

End ChatCalls.

(** ** The device list *)

Module FleetFacts.
Import Dashboard ChatSpec DashboardSpec FleetSpec.

#[local] Open Scope string_scope.
#[local] Arguments js : simpl never.

Lemma fetchAssets_run (w : World) :
  run browser fetchAssets w =
  (tt, set_devices w
     (if no_token (token w) then defaultDevices
      else match api_get w (js "/assets/") with
           | Throws _ => defaultDevices
           | Returns assets =>
               if (0 <? length (map device_of assets))%nat
               then map device_of assets else defaultDevices
           end)).
Proof.
  unfold fetchAssets, token.
  rewrite run_try_catch, run_and_then, run_bind, run_perform. simpl.
  destruct (no_token (localStorage w !! js "forsee_access_token"));
    [reflexivity|].
  rewrite run_and_then, run_perform. simpl.
  destruct (api_get w (js "/assets/")) as [assets | e]; [|reflexivity].
  fold device_of.
  destruct (0 <? length (map device_of assets))%nat; reflexivity.
Qed.

Lemma fetchAssets_devices (w : World) :
  devices_after fetchAssets w =
  if no_token (token w) then defaultDevices
  else match api_get w (js "/assets/") with
       | Throws _ => defaultDevices
       | Returns assets =>
           if (0 <? length (map device_of assets))%nat
           then map device_of assets else defaultDevices
       end.
Proof. unfold devices_after. by rewrite fetchAssets_run. Qed.

Lemma removeDevice_run (w : World) (id' : jsstring) :
  run browser (removeDevice id') w =
  (tt, match api_delete w (js "/assets/" ++ id')%list with
       | Returns _ => set_devices w (filter (λ d, id d ≠ id') (devices w))
       | Throws _ => w
       end).
Proof.
  unfold removeDevice.
  rewrite run_try_catch, run_and_then, run_perform. simpl.
  destruct (api_delete w _); reflexivity.
Qed.

Lemma addDevice_run (w : World) (newDevice : NewDevice) :
  run browser (addDevice newDevice) w =
  (tt, match api_post w (js "/assets/") (creation newDevice) with
       | Returns asset =>
           set_devices w
             (devices w ++
              [mkDevice (asset_id asset) (asset_name asset)
                 (default Activity (new_icon newDevice))])%list
       | Throws _ => w
       end).
Proof.
  unfold addDevice, creation.
  rewrite run_try_catch, run_and_then, run_perform. simpl.
  destruct (api_post w _ _); reflexivity.
Qed.

(** X17.  After [fetchAssets] the device list is never empty. *)
Theorem fetch_never_leaves_the_list_empty (w : World) :
  devices_after fetchAssets w ≠ [].
Proof.
  rewrite fetchAssets_devices.
  destruct (no_token (token w)); [done|].
  destruct (api_get w (js "/assets/")) as [[|asset assets] | e]; done.
Qed.

(** X18.  With a token, the assets that the backend returns become the
    devices, one for one and in the same order, each with the id and the
    name of its asset and the icon of its type; what the list held before
    is dropped. *)
Theorem fetched_assets_become_the_devices
    (w : World) (session : jsstring) (assets : list Asset) :
  token w = Some session -> session ≠ [] ->
  api_get w (js "/assets/") = Returns assets ->
  assets ≠ [] ->
  devices_after fetchAssets w = map device_of assets ∧
  map id (devices_after fetchAssets w) = map asset_id assets ∧
  map name (devices_after fetchAssets w) = map asset_name assets ∧
  map icon (devices_after fetchAssets w) =
    map (λ asset, getIconForAssetType (asset_type asset)) assets.
Proof.
  intros Htoken Hsession Hget Hassets.
  rewrite fetchAssets_devices, Htoken, Hget.
  destruct session as [|c session]; [done|]. simpl.
  destruct assets as [|asset assets]; [done|]. simpl.
  split_and!; [done | ..]; f_equal; by rewrite map_map.
Qed.

(** X19.  [fetchAssets] falls back on the four defaults when the token is
    the empty string (the backend is then not called), when the call of
    the backend fails, and when the backend returns no asset. *)
Theorem fetch_falls_back_on_the_defaults (w : World) :
  (token w = Some [] ->
     devices_after fetchAssets w = defaultDevices ∧
     forallb (λ e, negb (calls_backend e)) (events browser fetchAssets w) = true) ∧
  (∀ error,
     api_get w (js "/assets/") = Throws error ->
     devices_after fetchAssets w = defaultDevices) ∧
  (api_get w (js "/assets/") = Returns [] ->
     devices_after fetchAssets w = defaultDevices).
Proof.
  split_and!.
  - intros Htoken. split; [by rewrite fetchAssets_devices, Htoken|].
    unfold token in Htoken. unfold events, fetchAssets.
    rewrite run_try_catch, run_and_then, run_bind, run_perform. simpl.
    rewrite Htoken. reflexivity.
  - intros error Hget. rewrite fetchAssets_devices, Hget.
    by destruct (no_token (token w)).
  - intros Hget. rewrite fetchAssets_devices, Hget.
    by destruct (no_token (token w)).
Qed.

(** X20.  Removing a device that the list does not hold leaves the list
    as it is, whatever the backend answers. *)
Theorem removing_an_absent_device_changes_nothing
    (w : World) (id' : jsstring) :
  Forall (λ d, id d ≠ id') (devices w) ->
  devices_after (removeDevice id') w = devices w.
Proof.
  intros Habsent. unfold devices_after. rewrite removeDevice_run. simpl.
  destruct (api_delete w _); [|reflexivity]. simpl.
  induction Habsent as [|d ds Hd _ IH]; [reflexivity|].
  rewrite filter_cons_True by done. by rewrite IH.
Qed.

(** X21.  When the POST succeeds, [addDevice] appends one device to the
    list: its id and name are those of the asset that the backend
    returned, its icon is the one given or [Activity]; the id that the
    caller gave plays no part. *)
Theorem added_device_takes_the_identity_of_the_asset
    (w : World) (newDevice : NewDevice) (asset : Asset) :
  api_post w (js "/assets/")
    (mkAssetCreate (new_name newDevice) (js "custom")
       (js "Added via Dashboard") (js "active")) = Returns asset ->
  devices_after (addDevice newDevice) w =
    (devices w ++
     [mkDevice (asset_id asset) (asset_name asset)
        (default Activity (new_icon newDevice))])%list ∧
  ∀ other,
    devices_after
      (addDevice (mkNewDevice other (new_name newDevice) (new_icon newDevice))) w =
    devices_after (addDevice newDevice) w.
Proof.
  intros Hpost. unfold devices_after. rewrite !addDevice_run.
  unfold creation. rewrite Hpost. split; [reflexivity|].
  intros other. rewrite addDevice_run. unfold creation. simpl.
  by rewrite Hpost.
Qed.

(** X22.  Adding a device and then removing the id that the backend gave
    it restores the list, when no device had that id before and both calls
    succeed. *)
Theorem adding_then_removing_restores_the_list
    (w : World) (newDevice : NewDevice) (asset : Asset) :
  api_post w (js "/assets/") (creation newDevice) = Returns asset ->
  api_delete w (js "/assets/" ++ asset_id asset)%list = Returns tt ->
  Forall (λ d, id d ≠ asset_id asset) (devices w) ->
  devices_after (removeDevice (asset_id asset)) (after (addDevice newDevice) w)
  = devices w.
Proof.
  intros Hpost Hdelete Hfresh.
  unfold devices_after, after. rewrite removeDevice_run, addDevice_run.
  rewrite Hpost. unfold set_devices. cbn [snd api_delete devices].
  rewrite Hdelete. cbn [snd devices].
  rewrite filter_app, filter_cons_False, filter_nil, app_nil_r
    by (simpl; intros Hne; by apply Hne).
  induction Hfresh as [|d ds Hd _ IH]; [reflexivity|].
  rewrite filter_cons_True by done. by rewrite IH.
Qed.

(** *** The properties at sample worlds *)

Ltac other_ids :=
  repeat constructor;
  let Heq := fresh in intros Heq; vm_compute in Heq; discriminate Heq.

Lemma fetched_assets_become_the_devices_witness :
  token plant = Some (js "token") ∧
  api_get plant (js "/assets/") = Returns fleet ∧
  map name (devices_after fetchAssets plant) =
    [js "Compressor C-2"; js "Line 4 HMI"; js "Spare"] ∧
  map icon (devices_after fetchAssets plant) = [Cpu; Smartphone; Activity].
Proof.
  destruct (fetched_assets_become_the_devices plant (js "token") fleet
              ltac:(vm_compute; reflexivity) ltac:(discriminate) eq_refl
              ltac:(discriminate)) as (_ & _ & Hnames & Hicons).
  refine (conj _ (conj eq_refl (conj _ _)));
    [ | rewrite Hnames | rewrite Hicons]; vm_compute; reflexivity.
Defined.

Lemma removing_an_absent_device_changes_nothing_witness :
  Forall (λ d, id d ≠ js "dev-99") (devices (signed_in true)) ∧
  api_delete (signed_in true) (js "/assets/" ++ js "dev-99")%list = Returns tt ∧
  devices_after (removeDevice (js "dev-99")) (signed_in true) = defaultDevices.
Proof.
  assert (Forall (λ d, id d ≠ js "dev-99") (devices (signed_in true)))
    as Habsent by other_ids.
  exact (conj Habsent (conj eq_refl
    (removing_an_absent_device_changes_nothing (signed_in true) (js "dev-99")
       Habsent))).
Defined.

Lemma added_device_takes_the_identity_of_the_asset_witness :
  api_post (signed_in true) (js "/assets/")
    (mkAssetCreate (js "Pump P-3") (js "custom") (js "Added via Dashboard")
       (js "active")) = Returns (mkAsset (js "a-9") (js "Pump P-3") None) ∧
  new_id pump_numbered = js "my-own-id" ∧
  devices_after (addDevice pump_numbered) (signed_in true) =
    (defaultDevices ++ [mkDevice (js "a-9") (js "Pump P-3") Cpu])%list.
Proof.
  exact (conj eq_refl (conj eq_refl
    (proj1 (added_device_takes_the_identity_of_the_asset (signed_in true)
              pump_numbered (mkAsset (js "a-9") (js "Pump P-3") None)
              eq_refl)))).
Defined.

Lemma adding_then_removing_restores_the_list_witness :
  api_post (signed_in true) (js "/assets/") (creation pump) =
    Returns (mkAsset (js "a-9") (js "Pump P-3") None) ∧
  Forall (λ d, id d ≠ js "a-9") (devices (signed_in true)) ∧
  length (devices (after (addDevice pump) (signed_in true))) = 5%nat ∧
  devices_after (removeDevice (js "a-9")) (after (addDevice pump) (signed_in true))
  = defaultDevices.
Proof.
  assert (Forall (λ d, id d ≠ js "a-9") (devices (signed_in true)))
    as Hfresh by other_ids.
  exact (conj eq_refl (conj Hfresh (conj eq_refl
    (adding_then_removing_restores_the_list (signed_in true) pump
       (mkAsset (js "a-9") (js "Pump P-3") None) eq_refl eq_refl Hfresh)))).
Defined.

End FleetFacts.

(** ** The session and the roles *)

Module AuthFacts.
Import Auth AuthSpec.

#[local] Open Scope string_scope.
#[local] Arguments js : simpl never.

(** *** The user of the dashboard *)

Lemma before_whole (sep : N) (s : jsstring) : sep ∉ s -> before sep s = s.
Proof.
  induction s as [|c s IH]; [done|]. intros Hsep.
  apply not_elem_of_cons in Hsep as [Hc Hs]. simpl.
  destruct (N.eqb_spec c sep) as [-> | _]; [done|]. by rewrite IH.
Qed.

Lemma before_separator (sep : N) (s rest : jsstring) :
  sep ∉ s -> before sep (s ++ sep :: rest) = s.
Proof.
  induction s as [|c s IH]; intros Hsep; simpl.
  - by rewrite N.eqb_refl.
  - apply not_elem_of_cons in Hsep as [Hc Hs].
    destruct (N.eqb_spec c sep) as [-> | _]; [done|]. by rewrite IH.
Qed.

Lemma or_else_filled (a : option jsstring) (b : jsstring) :
  b ≠ [] -> or_else a b ≠ [].
Proof. by destruct a as [[|c s]|]. Qed.

(** X23.  The user that the dashboard makes of the user of the identity
    provider always has a name: the display name if there is one, otherwise
    what stands before the first "@" of the email address (all of it if it
    has no "@"), otherwise "User".  It keeps the uid as its id, and always
    has an avatar, "/avatar.png" for want of a photo. *)
Theorem mapped_user_always_has_a_name (fbUser : FirebaseUser) :
  name (mapUser fbUser) ≠ [] ∧
  id (mapUser fbUser) = uid fbUser ∧
  (∃ url, avatarUrl (mapUser fbUser) = Some url ∧ url ≠ []) ∧
  (∀ shown, displayName fbUser = Some shown -> shown ≠ [] ->
     name (mapUser fbUser) = shown) ∧
  (truthy (displayName fbUser) = false ->
     (∀ mailbox domain,
        fb_email fbUser = Some (mailbox ++ 64%N :: domain)%list ->
        64%N ∉ mailbox -> mailbox ≠ [] ->
        name (mapUser fbUser) = mailbox) ∧
     (∀ address,
        fb_email fbUser = Some address -> 64%N ∉ address -> address ≠ [] ->
        name (mapUser fbUser) = address) ∧
     (∀ domain,
        fb_email fbUser = Some (64%N :: domain) ->
        name (mapUser fbUser) = js "User") ∧
     (fb_email fbUser = None ∨ fb_email fbUser = Some [] ->
        name (mapUser fbUser) = js "User")).
Proof.
  destruct fbUser as [uid' shown address photo]. simpl. split_and!.
  - apply or_else_filled, or_else_filled. done.
  - reflexivity.
  - eexists. split; [reflexivity|]. by apply or_else_filled.
  - intros s [= ->] Hs. by destruct s.
  - intros Hnone.
    assert (∀ b, or_else shown b = b) as -> by (by destruct shown as [[|? ?]|]).
    split_and!.
    + intros mailbox domain -> Hat Hmailbox. simpl.
      rewrite before_separator by done. by destruct mailbox.
    + intros s -> Hat Hs. simpl. rewrite before_whole by done. by destruct s.
    + by intros domain ->.
    + by intros [-> | ->].
Qed.

(** *** The keys of the local storage *)

Lemma role_key_injective (a b : jsstring) : role_key a = role_key b -> a = b.
Proof. unfold role_key. apply app_inv_head. Qed.

(** The key that [logout] removes is the key of no user. *)
Lemma role_key_not_generic (uid' : jsstring) : role_key uid' ≠ js "forsee_role".
Proof.
  unfold role_key. intros Heq. apply (f_equal length) in Heq.
  rewrite length_app in Heq.
  change (length (js "forsee_role_")) with 12%nat in Heq.
  change (length (js "forsee_role")) with 11%nat in Heq. lia.
Qed.

Ltac step_by_step w :=
  destruct w as [storage u role' pending loading idp];
  unfold stored_role, act, after; cbn -[role_key].

(** A step that names no role leaves the role stored for every user. *)
Lemma act_keeps_stored_roles (w : World) (a : action) (uid' : jsstring) :
  names_a_role a = false -> stored_role (act w a) uid' = stored_role w uid'.
Proof.
  intros Hquiet.
  destruct a as [fb | address password | shown address password
                | | | role | role | u'].
  - step_by_step w. by destruct fb.
  - by step_by_step w.
  - step_by_step w. by destruct (create_user idp address password).
  - by step_by_step w.
  - step_by_step w. destruct (sign_out idp); cbn -[role_key]; [|done].
    apply lookup_delete_ne. intros Heq. by apply (role_key_not_generic uid').
  - step_by_step w. cbn in Hquiet.
    destruct u; [|done]. destruct role as [[|c r]|]; done.
  - step_by_step w. by destruct u.
  - by step_by_step w.
Qed.

Lemma acts_keep_stored_roles (steps : list action) : forall (w : World) uid',
  Forall (λ a, names_a_role a = false) steps ->
  stored_role (acts w steps) uid' = stored_role w uid'.
Proof.
  induction steps as [|a steps IH]; intros w uid' Hquiet; [reflexivity|].
  apply Forall_cons in Hquiet as [Ha Hsteps]. unfold acts in *. simpl.
  rewrite IH by done. by apply act_keeps_stored_roles.
Qed.

(** The role of the session after the listener has fired for a user. *)
Lemma listener_restores (w : World) (fbUser : FirebaseUser) :
  userRole (act w (AuthStateChanged (Some fbUser))) =
  Some (or_else (stored_role w (uid fbUser)) (js "viewer")).
Proof. by step_by_step w. Qed.

(** *** The properties *)

(** X24.  A role given with [setRole] while a user is signed in is the
    role of that user at the next sign-in, whatever happens in between
    short of another [setRole] with a role: logging out, other users
    signing in, requests for roles, [setRole(null)]. *)
Theorem role_is_restored_at_the_next_sign_in
    (w : World) (current : User) (role : jsstring) (steps : list action)
    (fbUser : FirebaseUser) :
  user w = Some current ->
  role ≠ [] ->
  Forall (λ a, names_a_role a = false) steps ->
  uid fbUser = id current ->
  userRole
    (act (acts (act w (SetRole (Some role))) steps)
       (AuthStateChanged (Some fbUser)))
  = Some role.
Proof.
  intros Huser Hrole Hquiet Huid.
  rewrite listener_restores, acts_keep_stored_roles by done.
  assert (stored_role (act w (SetRole (Some role))) (uid fbUser) = Some role)
    as ->.
  { rewrite Huid. step_by_step w. cbn in Huser. subst u.
    destruct role as [|c role]; [done|]. cbn -[role_key].
    apply lookup_insert_eq. }
  by destruct role.
Qed.

(** X25.  [setRole] stores the role under the id of the signed-in user
    only: the role that the next sign-in of any other user restores is not
    changed. *)
Theorem roles_of_other_users_are_untouched
    (w : World) (current : User) (role : UserRole) (fbUser : FirebaseUser) :
  user w = Some current ->
  uid fbUser ≠ id current ->
  stored_role (act w (SetRole role)) (uid fbUser) = stored_role w (uid fbUser) ∧
  userRole (act (act w (SetRole role)) (AuthStateChanged (Some fbUser))) =
  userRole (act w (AuthStateChanged (Some fbUser))).
Proof.
  intros Huser Hother.
  assert (stored_role (act w (SetRole role)) (uid fbUser)
          = stored_role w (uid fbUser)) as Hstored.
  { step_by_step w. cbn in Huser. subst u.
    destruct role as [[|c role]|]; cbn -[role_key]; try done.
    apply lookup_insert_ne. intros Heq. apply role_key_injective in Heq.
    by apply Hother. }
  split; [done|]. by rewrite !listener_restores, Hstored.
Qed.

(** X26.  When the listener fires for a user, that user is signed in with
    a role that is never empty: the string stored for the uid, whatever
    it is (it is not checked against the three roles), and "viewer" when
    none or the empty string is stored.  When it fires for nobody, user
    and role are cleared.  In both cases loading is over. *)
Theorem listener_sets_the_session (w : World) :
  (∀ fbUser,
     let w' := act w (AuthStateChanged (Some fbUser)) in
     user w' = Some (mapUser fbUser) ∧ isLoading w' = false ∧
     localStorage w' = localStorage w ∧
     (∀ stored, stored_role w (uid fbUser) = Some stored -> stored ≠ [] ->
        userRole w' = Some stored) ∧
     (stored_role w (uid fbUser) = None ∨ stored_role w (uid fbUser) = Some [] ->
        userRole w' = Some (js "viewer"))) ∧
  (let w' := act w (AuthStateChanged None) in
   user w' = None ∧ userRole w' = None ∧ isLoading w' = false ∧
   localStorage w' = localStorage w).
Proof.
  split.
  - intros fbUser w'. subst w'. rewrite listener_restores.
    split_and!; try (by step_by_step w).
    + intros stored -> Hstored. by destruct stored.
    + by intros [-> | ->].
  - by step_by_step w.
Qed.

(** X27.  When nobody is signed in or the role is [null] (or empty),
    [setRole] sets the role of the session but stores nothing: such a role
    is gone at the next sign-in. *)
Theorem role_without_user_is_not_remembered (w : World) (role : UserRole) :
  user w = None ∨ truthy role = false ->
  userRole (act w (SetRole role)) = role ∧
  localStorage (act w (SetRole role)) = localStorage w ∧
  ∀ fbUser,
    userRole (act (act w (SetRole role)) (AuthStateChanged (Some fbUser))) =
    userRole (act w (AuthStateChanged (Some fbUser))).
Proof.
  intros Hquiet.
  assert (localStorage (act w (SetRole role)) = localStorage w) as Hstorage.
  { step_by_step w. cbn in Hquiet.
    destruct Hquiet as [-> | Hrole]; [done|].
    destruct u; [|done]. by destruct role as [[|c r]|]. }
  split_and!; [| done |].
  - step_by_step w. destruct u; [|done]. by destruct role as [[|c r]|].
  - intros fbUser. rewrite !listener_restores. unfold stored_role.
    by rewrite Hstorage.
Qed.

(** X28.  The user and the role of the session change only when the
    listener fires or a setter of the context is called: login, signup,
    loginWithGoogle and logout, whether the identity provider accepts or
    refuses, and requestRole, which only records the request, leave them
    as they are, and leave the role stored for every user. *)
Theorem session_changes_only_by_listener_and_setters
    (w : World) (a : action) :
  sets_session a = false ->
  user (act w a) = user w ∧ userRole (act w a) = userRole w ∧
  isLoading (act w a) = isLoading w ∧
  (∀ uid', stored_role (act w a) uid' = stored_role w uid') ∧
  (∀ role, a = RequestRole role ->
     localStorage (act w a) = localStorage w ∧
     pendingRequest (act w a) =
       if isAuthenticated (user w) then role else pendingRequest w).
Proof.
  intros Hquiet.
  assert (names_a_role a = false) as Hnames by (by destruct a).
  split_and!; [.. | intros uid'; by apply act_keeps_stored_roles |].
  1-3: destruct a as [fb | address password | shown address password
                     | | | role | role | u'];
    try discriminate Hquiet; step_by_step w; try done;
    try (by destruct (create_user idp address password));
    try (by destruct (sign_out idp));
    by destruct u.
  intros role ->. step_by_step w. by destruct u.
Qed.

(** X29.  [signup] names the account only once it is created: when the
    creation fails, the profile is not touched and the error is that of
    the creation; when it succeeds, the profile of the created user gets
    the given name, and [signup] ends as that update ends. *)
Theorem signup_names_the_created_account
    (w : World) (shown address password : jsstring) :
  (∀ error,
     create_user (identity w) address password = Throws error ->
     result browser (signup shown address password) w = Throws error ∧
     events browser (signup shown address password) w =
       [existT _ (CreateUserWithEmailAndPassword address password)]) ∧
  (∀ created,
     create_user (identity w) address password = Returns created ->
     result browser (signup shown address password) w =
       update_profile (identity w) created shown ∧
     events browser (signup shown address password) w =
       [existT _ (CreateUserWithEmailAndPassword address password);
        existT _ (UpdateProfile created shown)]).
Proof.
  unfold signup, result.
  rewrite events_and_then, events_perform, run_and_then, run_perform.
  destruct w as [storage u role' pending loading idp]. cbn.
  split.
  - intros error ->. by split.
  - intros created ->. by split.
Qed.

(** X30.  Nothing the provider does writes the key "forsee_role" that
    [logout] removes: if the local storage does not hold it, it never
    will. *)
Theorem generic_role_key_is_never_written
    (w : World) (steps : list action) :
  localStorage w !! js "forsee_role" = None ->
  localStorage (acts w steps) !! js "forsee_role" = None.
Proof.
  revert w. induction steps as [|a steps IH]; intros w Hnone; [done|].
  unfold acts in *. simpl. apply IH.
  destruct a as [fb | address password | shown address password
                | | | role | role | u'].
  - step_by_step w. by destruct fb.
  - by step_by_step w.
  - step_by_step w. by destruct (create_user idp address password).
  - by step_by_step w.
  - step_by_step w. destruct (sign_out idp); cbn -[role_key]; [|done].
    apply lookup_delete_eq.
  - step_by_step w. cbn in Hnone.
    destruct u as [current|]; [|done].
    destruct role as [[|c r]|]; cbn -[role_key]; try done.
    rewrite lookup_insert_ne; [done|]. apply role_key_not_generic.
  - step_by_step w. by destruct u.
  - by step_by_step w.
Qed.

(** *** The properties at sample sessions *)

Lemma role_is_restored_at_the_next_sign_in_witness :
  user ada_signed_in = Some (mapUser ada) ∧
  userRole ada_signed_in = Some (js "viewer") ∧
  userRole
    (act
       (acts (act ada_signed_in (SetRole (Some (js "engineer"))))
          [Logout; AuthStateChanged None;
           Login (js "bob@example.com") (js "secret");
           AuthStateChanged (Some bob); SetRole None;
           RequestRole (Some (js "admin")); Logout; AuthStateChanged None])
       (AuthStateChanged (Some ada)))
  = Some (js "engineer").
Proof.
  refine (conj eq_refl (conj _ _)); [vm_compute; reflexivity|].
  exact (role_is_restored_at_the_next_sign_in ada_signed_in (mapUser ada)
           (js "engineer") _ ada eq_refl ltac:(discriminate)
           ltac:(repeat constructor) eq_refl).
Defined.

Lemma roles_of_other_users_are_untouched_witness :
  user ada_signed_in = Some (mapUser ada) ∧
  uid bob ≠ id (mapUser ada) ∧
  userRole (act ada_signed_in (SetRole (Some (js "admin")))) = Some (js "admin") ∧
  userRole
    (act (act ada_signed_in (SetRole (Some (js "admin"))))
       (AuthStateChanged (Some bob)))
  = Some (js "viewer").
Proof.
  assert (uid bob ≠ id (mapUser ada)) as Hother
    by (intros Heq; vm_compute in Heq; discriminate Heq).
  destruct (roles_of_other_users_are_untouched ada_signed_in (mapUser ada)
              (Some (js "admin")) bob eq_refl Hother) as [_ Hrole].
  refine (conj eq_refl (conj Hother (conj _ _)));
    [ | rewrite Hrole]; vm_compute; reflexivity.
Defined.

Lemma role_without_user_is_not_remembered_witness :
  user (mounted ∅ welcoming) = None ∧
  userRole (act (mounted ∅ welcoming) (SetRole (Some (js "admin"))))
    = Some (js "admin") ∧
  localStorage (act (mounted ∅ welcoming) (SetRole (Some (js "admin")))) = ∅ ∧
  userRole
    (act (act (mounted ∅ welcoming) (SetRole (Some (js "admin"))))
       (AuthStateChanged (Some ada)))
  = Some (js "viewer").
Proof.
  destruct (role_without_user_is_not_remembered (mounted ∅ welcoming)
              (Some (js "admin")) (or_introl eq_refl))
    as (Hrole & Hstorage & Hnext).
  refine (conj eq_refl (conj Hrole (conj Hstorage _))).
  rewrite (Hnext ada). vm_compute. reflexivity.
Defined.

Lemma session_changes_only_by_listener_and_setters_witness :
  sets_session Logout = false ∧
  sign_out (identity ada_signed_in) = Returns tt ∧
  user (act ada_signed_in Logout) = Some (mapUser ada) ∧
  userRole (act ada_signed_in Logout) = Some (js "viewer").
Proof.
  destruct (session_changes_only_by_listener_and_setters ada_signed_in Logout
              eq_refl) as (Huser & Hrole & _).
  refine (conj eq_refl (conj eq_refl (conj _ _)));
    [rewrite Huser | rewrite Hrole]; vm_compute; reflexivity.
Defined.

Lemma generic_role_key_is_never_written_witness :
  localStorage ada_signed_in !! js "forsee_role" = None ∧
  localStorage
    (acts ada_signed_in
       [SetRole (Some (js "admin")); Logout; AuthStateChanged None;
        AuthStateChanged (Some bob); SetRole (Some (js "engineer"))])
    !! js "forsee_role" = None ∧
  localStorage
    (acts ada_signed_in
       [SetRole (Some (js "admin")); Logout; AuthStateChanged None;
        AuthStateChanged (Some bob); SetRole (Some (js "engineer"))])
    !! role_key (js "u-2") = Some (js "engineer").
Proof.
  refine (conj eq_refl (conj
    (generic_role_key_is_never_written ada_signed_in _ eq_refl) _)).
  vm_compute. reflexivity.
Defined.

End AuthFacts.
